(** * LedStripController: the ASCII command protocol of [include/protocol.h]
      and the input accumulator and command handlers of [src/main.cpp]

    The C++ sources are embedded as Rocq functions.  Bytes and the fixed
    width integers of the firmware are numbers in [Z]; every conversion
    to [uint8_t], [uint16_t] and [int16_t] is written out.  The arrays of
    [proto_pkt_t] are lists that are updated in place by index; a store
    whose index leaves the array changes nothing in the model and is
    visible in the access trace that the decoder keeps.  The input
    buffer is the memory behind a [char*], so that a load behind the
    length handed over is a load like any other.  Loops run on a supply
    of rounds that is shown to outlast them.  [strtol], [strlcpy],
    [sprintf] and [Serial.print] belong to the C and Arduino libraries
    and are modelled after their documentation; [atoi] is left open, and
    of FastLED only the colour code and the brightness it is given are
    kept.

    The code puts a store behind an array into the neighbouring field of
    the packet or into the global behind it, and [strlen] runs on behind
    an array without NUL.  The lists of the model do neither, so that
    model and code go the same way up to the first such access.  Where
    a property depends on what such an access does, it is stated for runs
    in which no store leaves its array, or for inputs that cannot cause
    one. *)

From Stdlib Require Import ZArith Lia String Ascii.
From stdpp Require Import base tactics option list.

Local Open Scope Z_scope.

(** ** Constants of [protocol.h] *)

Definition MAX_PROTO_PACKET_LEN : Z := 256.
Definition MAX_PROTO_CMD : Z := 10.
Definition MAX_PROTO_PARAM_COUNT : Z := 4.
Definition MAX_PROTO_PARAM_LEN : Z := 50.

Definition ERR_PROTO_SUCCESS : Z := 0.
Definition ERR_PROTO_CP_MISSING_STX : Z := -101.
Definition ERR_PROTO_CP_MISSING_ETX : Z := -102.
Definition ERR_PROTO_CP_MISSING_PSC : Z := -103.
Definition ERR_PROTO_CP_MISSING_EFC : Z := -104.
Definition ERR_PROTO_CP_CMD_OVERFLOW : Z := -105.
Definition ERR_PROTO_CP_CRC16_MISMATCH : Z := -110.
Definition ERR_PROTO_CP_MISSING_CRC16 : Z := -111.
Definition ERR_PROTO_RB_TOO_MANY_PARAMS : Z := -201.
Definition ERR_PROTO_RB_PARAM_OVERFLOW : Z := -202.

(** ['['], [']'], [':'], ['\r'] and ['\n']. *)
Definition PROTO_STX : Z := 91.
Definition PROTO_ETX : Z := 93.
Definition PROTO_PSC : Z := 58.
Definition PROTO_CR : Z := 13.
Definition PROTO_NL : Z := 10.

(** ** Fixed width integers *)

Definition to_uint8 (x : Z) : Z := x mod 256.
Definition to_uint16 (x : Z) : Z := x mod 65536.
Definition INT16_MAX : Z := 32767.

(** Conversion to [int16_t] keeps the low sixteen bits, read in two's
    complement. *)
Definition to_int16 (x : Z) : Z :=
  let u := to_uint16 x in if u <=? INT16_MAX then u else u - 65536.

(** ** Byte strings *)

(** The character codes of a Rocq string, used to write frames down. *)
Fixpoint bytes (s : string) : list Z :=
  match s with
  | EmptyString => []
  | String c r => Z.of_nat (nat_of_ascii c) :: bytes r
  end.

(** Memory seen through a [char*]: the byte at each offset. *)
Definition memory := Z -> Z.

(** The memory image of an array; offsets behind its end read as zero. *)
Definition mem_of (l : list Z) : memory :=
  fun i => if i <? 0 then 0 else default 0 (l !! Z.to_nat i).

(** [a[i]] and [a[i] = v] on an array held as a list. *)
Definition aget (a : list Z) (i : Z) : Z := default 0 (a !! Z.to_nat i).
Definition aset (a : list Z) (i : Z) (v : Z) : list Z := <[Z.to_nat i := v]> a.

(** The C string an array holds: the bytes in front of the first NUL. *)
Fixpoint c_str (a : list Z) : list Z :=
  match a with
  | [] => []
  | c :: r => if c =? 0 then [] else c :: c_str r
  end.

(** [strlen] *)
Definition strlen (a : list Z) : Z := Z.of_nat (length (c_str a)).

(** ** CRC-16 *)

Definition CRC16_table : list Z := [
    0x0000; 0x1021; 0x2042; 0x3063; 0x4084; 0x50a5; 0x60c6; 0x70e7;
    0x8108; 0x9129; 0xa14a; 0xb16b; 0xc18c; 0xd1ad; 0xe1ce; 0xf1ef;
    0x1231; 0x0210; 0x3273; 0x2252; 0x52b5; 0x4294; 0x72f7; 0x62d6;
    0x9339; 0x8318; 0xb37b; 0xa35a; 0xd3bd; 0xc39c; 0xf3ff; 0xe3de;
    0x2462; 0x3443; 0x0420; 0x1401; 0x64e6; 0x74c7; 0x44a4; 0x5485;
    0xa56a; 0xb54b; 0x8528; 0x9509; 0xe5ee; 0xf5cf; 0xc5ac; 0xd58d;
    0x3653; 0x2672; 0x1611; 0x0630; 0x76d7; 0x66f6; 0x5695; 0x46b4;
    0xb75b; 0xa77a; 0x9719; 0x8738; 0xf7df; 0xe7fe; 0xd79d; 0xc7bc;
    0x48c4; 0x58e5; 0x6886; 0x78a7; 0x0840; 0x1861; 0x2802; 0x3823;
    0xc9cc; 0xd9ed; 0xe98e; 0xf9af; 0x8948; 0x9969; 0xa90a; 0xb92b;
    0x5af5; 0x4ad4; 0x7ab7; 0x6a96; 0x1a71; 0x0a50; 0x3a33; 0x2a12;
    0xdbfd; 0xcbdc; 0xfbbf; 0xeb9e; 0x9b79; 0x8b58; 0xbb3b; 0xab1a;
    0x6ca6; 0x7c87; 0x4ce4; 0x5cc5; 0x2c22; 0x3c03; 0x0c60; 0x1c41;
    0xedae; 0xfd8f; 0xcdec; 0xddcd; 0xad2a; 0xbd0b; 0x8d68; 0x9d49;
    0x7e97; 0x6eb6; 0x5ed5; 0x4ef4; 0x3e13; 0x2e32; 0x1e51; 0x0e70;
    0xff9f; 0xefbe; 0xdfdd; 0xcffc; 0xbf1b; 0xaf3a; 0x9f59; 0x8f78;
    0x9188; 0x81a9; 0xb1ca; 0xa1eb; 0xd10c; 0xc12d; 0xf14e; 0xe16f;
    0x1080; 0x00a1; 0x30c2; 0x20e3; 0x5004; 0x4025; 0x7046; 0x6067;
    0x83b9; 0x9398; 0xa3fb; 0xb3da; 0xc33d; 0xd31c; 0xe37f; 0xf35e;
    0x02b1; 0x1290; 0x22f3; 0x32d2; 0x4235; 0x5214; 0x6277; 0x7256;
    0xb5ea; 0xa5cb; 0x95a8; 0x8589; 0xf56e; 0xe54f; 0xd52c; 0xc50d;
    0x34e2; 0x24c3; 0x14a0; 0x0481; 0x7466; 0x6447; 0x5424; 0x4405;
    0xa7db; 0xb7fa; 0x8799; 0x97b8; 0xe75f; 0xf77e; 0xc71d; 0xd73c;
    0x26d3; 0x36f2; 0x0691; 0x16b0; 0x6657; 0x7676; 0x4615; 0x5634;
    0xd94c; 0xc96d; 0xf90e; 0xe92f; 0x99c8; 0x89e9; 0xb98a; 0xa9ab;
    0x5844; 0x4865; 0x7806; 0x6827; 0x18c0; 0x08e1; 0x3882; 0x28a3;
    0xcb7d; 0xdb5c; 0xeb3f; 0xfb1e; 0x8bf9; 0x9bd8; 0xabbb; 0xbb9a;
    0x4a75; 0x5a54; 0x6a37; 0x7a16; 0x0af1; 0x1ad0; 0x2ab3; 0x3a92;
    0xfd2e; 0xed0f; 0xdd6c; 0xcd4d; 0xbdaa; 0xad8b; 0x9de8; 0x8dc9;
    0x7c26; 0x6c07; 0x5c64; 0x4c45; 0x3ca2; 0x2c83; 0x1ce0; 0x0cc1;
    0xef1f; 0xff3e; 0xcf5d; 0xdf7c; 0xaf9b; 0xbfba; 0x8fd9; 0x9ff8;
    0x6e17; 0x7e36; 0x4e55; 0x5e74; 0x2e93; 0x3eb2; 0x0ed1; 0x1ef0
  ].

(** [CRC16_table[((crc >> 8) ^ data) & 0xff] ^ (crc << 8)], returned as
    [uint16_t]; [crc] arrives as [uint16_t] and [data] as [uint8_t]. *)
Definition crc16 (crc : Z) (data : Z) : Z :=
  let crc := to_uint16 crc in
  let data := to_uint8 data in
  to_uint16
    (Z.lxor (aget CRC16_table (Z.land (Z.lxor (Z.shiftr crc 8) data) 255))
            (Z.shiftl crc 8)).

(** [for(int i=start; i<len; i++) crc = crc16(crc, data[i]);] with [fuel]
    the number of indices left. *)
Fixpoint crc16_loop (fuel : nat) (crc : Z) (data : memory) (i len : Z) : Z :=
  if i <? len then
    match fuel with
    | S fuel' => crc16_loop fuel' (crc16 crc (data i)) data (i + 1) len
    | O => crc
    end
  else crc.

Definition crc16_buffer (crc : Z) (data : memory) (start len : Z) : Z :=
  crc16_loop (Z.to_nat (len - start)) crc data start len.

(** ** The packet *)

Record proto_pkt_t := mk_pkt {
  cmd : list Z;             (* char cmd[MAX_PROTO_CMD] *)
  params : list (list Z);   (* char params[MAX_PROTO_PARAM_COUNT][MAX_PROTO_PARAM_LEN] *)
  param_count : Z;          (* uint8_t *)
  pkt_crc16 : Z             (* uint16_t crc16 *)
}.

Definition set_cmd (pkt : proto_pkt_t) (i v : Z) : proto_pkt_t :=
  mk_pkt (aset (cmd pkt) i v) (params pkt) (param_count pkt) (pkt_crc16 pkt).

(** [pkt->params[slot][i] = v] *)
Definition set_param (pkt : proto_pkt_t) (slot i v : Z) : proto_pkt_t :=
  mk_pkt (cmd pkt) (alter (fun row => aset row i v) (Z.to_nat slot) (params pkt))
         (param_count pkt) (pkt_crc16 pkt).

Definition set_param_count (pkt : proto_pkt_t) (n : Z) : proto_pkt_t :=
  mk_pkt (cmd pkt) (params pkt) n (pkt_crc16 pkt).

Definition set_crc16 (pkt : proto_pkt_t) (c : Z) : proto_pkt_t :=
  mk_pkt (cmd pkt) (params pkt) (param_count pkt) c.

(** The arrays have the sizes the struct declares and the counters are in
    the range of their types. *)
Definition wf_pkt (pkt : proto_pkt_t) : Prop :=
  length (cmd pkt) = Z.to_nat MAX_PROTO_CMD /\
  length (params pkt) = Z.to_nat MAX_PROTO_PARAM_COUNT /\
  Forall (fun row => length row = Z.to_nat MAX_PROTO_PARAM_LEN) (params pkt) /\
  0 <= param_count pkt < 256.

(** The string in parameter slot [k]. *)
Definition param (pkt : proto_pkt_t) (k : Z) : list Z :=
  c_str (default [] (params pkt !! Z.to_nat k)).

(** [proto_clear_pkt] *)
Definition proto_clear_pkt (pkt : proto_pkt_t) : proto_pkt_t :=
  mk_pkt (replicate (Z.to_nat MAX_PROTO_CMD) 0)
         (replicate (Z.to_nat MAX_PROTO_PARAM_COUNT)
                    (replicate (Z.to_nat MAX_PROTO_PARAM_LEN) 0))
         0 0.

(** ** The decoder, [proto_parse_pkt_buffer] *)

(** What the decoder touches: a load from [buffer], a store into [cmd],
    a store into [params[slot]].  The trace lists the accesses, the most
    recent one first. *)
Inductive access :=
| Load_buffer (i : Z)
| Store_cmd (i : Z)
| Store_param (slot i : Z).

(** An access that stays inside its array, for a buffer of [len] bytes. *)
Definition in_bounds (len : Z) (a : access) : bool :=
  match a with
  | Load_buffer i => (0 <=? i) && (i <? len)
  | Store_cmd i => (0 <=? i) && (i <? MAX_PROTO_CMD)
  | Store_param slot i =>
      (0 <=? slot) && (slot <? MAX_PROTO_PARAM_COUNT) && (0 <=? i) && (i <? MAX_PROTO_PARAM_LEN)
  end.

Record parse_result := mk_result {
  ret : Z;                 (* the int16_t the function returns *)
  out : proto_pkt_t;       (* *pkt when it returns *)
  trace : list access
}.

(** [while(buffer[pbi++] != PROTO_STX && pbi < len) { si++; }] *)
Fixpoint scan_stx (fuel : nat) (buffer : memory) (len pbi si : Z) (tr : list access)
  : Z * Z * list access :=
  let c := buffer pbi in
  let tr := Load_buffer pbi :: tr in
  let pbi := to_uint16 (pbi + 1) in
  if negb (c =? PROTO_STX) && (pbi <? len) then
    match fuel with
    | S fuel' => scan_stx fuel' buffer len pbi (to_uint16 (si + 1)) tr
    | O => (pbi, si, tr)
    end
  else (pbi, si, tr).

(** The loop that copies the command name into [pkt->cmd]. *)
Fixpoint copy_cmd (fuel : nat) (buffer : memory) (len pbi i : Z) (pkt : proto_pkt_t)
    (tr : list access) : Z * Z * proto_pkt_t * list access :=
  let guard := (pbi <? len) && (i <? MAX_PROTO_CMD) in
  let tr := if guard then Load_buffer pbi :: tr else tr in
  if guard && negb (buffer pbi =? PROTO_PSC) && negb (buffer pbi =? PROTO_ETX) then
    match fuel with
    | S fuel' =>
        copy_cmd fuel' buffer len (to_uint16 (pbi + 1)) (i + 1)
                 (set_cmd pkt i (buffer pbi)) (Store_cmd i :: tr)
    | O => (pbi, i, pkt, tr)
    end
  else (pbi, i, pkt, tr).

(** The inner loop that copies one parameter into slot [pkt->param_count]. *)
Fixpoint copy_param (fuel : nat) (buffer : memory) (len pbi pci : Z) (pkt : proto_pkt_t)
    (tr : list access) : Z * Z * proto_pkt_t * list access :=
  let guard := (pbi <? len) && (pci <? MAX_PROTO_PARAM_LEN) in
  let tr := if guard then Load_buffer pbi :: tr else tr in
  if guard && negb (buffer pbi =? PROTO_PSC) && negb (buffer pbi =? PROTO_ETX) then
    match fuel with
    | S fuel' =>
        copy_param fuel' buffer len (to_uint16 (pbi + 1)) (pci + 1)
                   (set_param pkt (param_count pkt) pci (buffer pbi))
                   (Store_param (param_count pkt) pci :: tr)
    | O => (pbi, pci, pkt, tr)
    end
  else (pbi, pci, pkt, tr).

(** The [do ... while] over the parameters; it is entered on a separator. *)
Fixpoint parse_params (fuel : nat) (buffer : memory) (len pbi : Z) (pkt : proto_pkt_t)
    (tr : list access) : Z * proto_pkt_t * list access :=
  let pbi := to_uint16 (pbi + 1) in
  let '(pbi, pci, pkt, tr) := copy_param (Z.to_nat len) buffer len pbi 0 pkt tr in
  let tr := Store_param (param_count pkt) pci :: tr in
  let pkt := set_param pkt (param_count pkt) pci 0 in
  let pkt := set_param_count pkt (to_uint8 (param_count pkt + 1)) in
  let tr := if pbi <? len then Load_buffer pbi :: tr else tr in
  if (pbi <? len) && negb (buffer pbi =? PROTO_ETX)
     && (param_count pkt <? MAX_PROTO_PARAM_COUNT) then
    match fuel with
    | S fuel' => parse_params fuel' buffer len pbi pkt tr
    | O => (pbi, pkt, tr)
    end
  else (pbi, pkt, tr).

(** *** [strtol] of the C library, base 16, [long] of 32 bits *)

Definition LONG_MAX : Z := 2147483647.
Definition LONG_MIN : Z := -2147483648.

Definition isspace (c : Z) : bool := (c =? 32) || ((9 <=? c) && (c <=? 13)).

Definition hex_digit (c : Z) : option Z :=
  if (48 <=? c) && (c <=? 57) then Some (c - 48)
  else if (65 <=? c) && (c <=? 70) then Some (c - 55)
  else if (97 <=? c) && (c <=? 102) then Some (c - 87)
  else None.

Fixpoint skip_space (s : list Z) (n : Z) : list Z * Z :=
  match s with
  | c :: r => if isspace c then skip_space r (n + 1) else (s, n)
  | [] => (s, n)
  end.

(** The digits at the head of [s]: their value on top of [acc] and their
    number on top of [n]. *)
Fixpoint strtol_digits (s : list Z) (acc n : Z) : Z * Z :=
  match s with
  | c :: r =>
      match hex_digit c with
      | Some d => strtol_digits r (acc * 16 + d) (n + 1)
      | None => (acc, n)
      end
  | [] => (acc, n)
  end.

Definition is_hex (c : Z) : bool :=
  match hex_digit c with
  | Some _ => true
  | None => false
  end.

(** [strtol(s, &end, 16)]: the value and [end - s].  White space is
    skipped, a sign and the prefix 0x or 0X are accepted, the value is
    clamped to the range of [long].  When no digit is found the value is
    0 and [end] is [s]. *)
Definition strtol16 (s : list Z) : Z * Z :=
  let '(s1, ws) := skip_space s 0 in
  let '(neg, s2, sg) :=
    match s1 with
    | c :: r =>
        if c =? 45 then (true, r, 1)
        else if c =? 43 then (false, r, 1)
        else (false, s1, 0)
    | [] => (false, s1, 0)
    end in
  let '(s3, px) :=
    match s2 with
    | c :: x :: h :: r =>
        if (c =? 48) && ((x =? 120) || (x =? 88)) && is_hex h
        then (h :: r, 2) else (s2, 0)
    | _ => (s2, 0)
    end in
  let '(v, n) := strtol_digits s3 0 0 in
  if n =? 0 then (0, 0)
  else (Z.max LONG_MIN (Z.min LONG_MAX (if neg : bool then - v else v)), ws + sg + px + n).

(** [for(int i=0; i<4 && pbi<len; i++) crc16Hex[i] = buffer[pbi++];] *)
Fixpoint read_crc16Hex (fuel : nat) (buffer : memory) (len pbi i : Z) (crc16Hex : list Z)
    (tr : list access) : Z * list Z * list access :=
  if (i <? 4) && (pbi <? len) then
    match fuel with
    | S fuel' =>
        read_crc16Hex fuel' buffer len (to_uint16 (pbi + 1)) (i + 1)
                      (aset crc16Hex i (buffer pbi)) (Load_buffer pbi :: tr)
    | O => (pbi, crc16Hex, tr)
    end
  else (pbi, crc16Hex, tr).

Section Decoder.

(** [DISABLE_CRC16] is [true] when the macro is defined, as it is in the
    repository. *)
Variable DISABLE_CRC16 : bool.

(** [crc16Hex] has four bytes and no terminator, so [strtol] runs on into
    whatever lies behind the array when all four are digits. *)
Variable behind_crc16Hex : list Z.

(** The checksum part, compiled in when [DISABLE_CRC16] is not defined. *)
Definition check_crc16 (buffer : memory) (len pbi si : Z) (pkt : proto_pkt_t)
    (tr : list access) : parse_result :=
  let pkt := set_crc16 pkt (crc16_buffer (pkt_crc16 pkt) buffer si pbi) in
  let tr := rev (map Load_buffer (map Z.of_nat (seq (Z.to_nat si) (Z.to_nat (pbi - si))))) ++ tr in
  let '(pbi, crc16Hex, tr) := read_crc16Hex 4 buffer len pbi 0 [0; 0; 0; 0] tr in
  let '(v, consumed) := strtol16 (crc16Hex ++ behind_crc16Hex) in
  let crc16In := to_uint16 v in
  if (consumed =? 0) && (crc16In =? 0) && negb (pkt_crc16 pkt =? 0) then
    mk_result ERR_PROTO_CP_MISSING_CRC16 pkt tr
  else if negb (crc16In =? pkt_crc16 pkt) then
    mk_result ERR_PROTO_CP_CRC16_MISMATCH pkt tr
  else mk_result (to_int16 pbi) pkt tr.

(** [proto_parse_pkt_buffer]; [len] is a [uint16_t]. *)
Definition proto_parse_pkt_buffer (buffer : memory) (len : Z) (pkt : proto_pkt_t)
  : parse_result :=
  if len <=? 0 then mk_result 0 pkt []
  else
    let pkt := set_crc16 pkt 0 in
    let '(pbi, si, tr) := scan_stx (Z.to_nat len) buffer len 0 0 [] in
    if pbi >=? len then mk_result ERR_PROTO_CP_MISSING_STX pkt tr
    else
      let '(pbi, i, pkt, tr) := copy_cmd (Z.to_nat len) buffer len pbi 0 pkt tr in
      let pkt := set_cmd pkt i 0 in
      let tr := Store_cmd i :: tr in
      if pbi >=? len then mk_result ERR_PROTO_CP_MISSING_EFC pkt tr
      else if i >=? MAX_PROTO_CMD then mk_result ERR_PROTO_CP_CMD_OVERFLOW pkt tr
      else
        let '(pbi, pkt, tr) :=
          if buffer pbi =? PROTO_ETX then (pbi, pkt, tr)
          else if buffer pbi =? PROTO_PSC then
            parse_params (Z.to_nat len) buffer len pbi pkt tr
          else (pbi, pkt, tr) in
        (* if(buffer[pbi] == PROTO_ETX) pbi++; *)
        let tr := Load_buffer pbi :: tr in
        let pbi := if buffer pbi =? PROTO_ETX then to_uint16 (pbi + 1) else pbi in
        if DISABLE_CRC16 then mk_result (to_int16 pbi) pkt tr
        else check_crc16 buffer len pbi si pkt tr.

End Decoder.

(** ** The response builder *)

(** Bytes written into an array from index [i] on. *)
Fixpoint store_bytes (a : list Z) (i : Z) (bs : list Z) : list Z :=
  match bs with
  | [] => a
  | b :: r => store_bytes (aset a i b) (i + 1) r
  end.

(** [strlcpy(dst, src, size)]: at most [size - 1] characters of the string
    at [src], then a NUL. *)
Definition strlcpy (dst src : list Z) (size : Z) : list Z :=
  if size <=? 0 then dst
  else store_bytes dst 0 (take (Z.to_nat (size - 1)) (c_str src) ++ [0]).

(** [proto_append_response_pkt_param]: the returned [int16_t] and the
    packet afterwards. *)
Definition proto_append_response_pkt_param (pkt_rsp : proto_pkt_t) (param : list Z)
  : Z * proto_pkt_t :=
  if param_count pkt_rsp + 1 >? MAX_PROTO_PARAM_COUNT then
    (ERR_PROTO_RB_TOO_MANY_PARAMS, pkt_rsp)
  else if strlen param >? MAX_PROTO_PARAM_LEN then
    (ERR_PROTO_RB_PARAM_OVERFLOW, pkt_rsp)
  else
    let slot := param_count pkt_rsp in
    let pkt := set_param_count pkt_rsp (to_uint8 (slot + 1)) in
    let pkt :=
      mk_pkt (cmd pkt)
             (alter (fun row => strlcpy row param MAX_PROTO_PARAM_LEN) (Z.to_nat slot)
                    (params pkt))
             (param_count pkt) (pkt_crc16 pkt) in
    (to_int16 (param_count pkt), pkt).

(** The digits of [n] in [base], most significant first, as the number
    printers of the C and Arduino libraries produce them:
    [do { c = n % base; n /= base; *--str = digit(c); } while(n);] *)
Fixpoint digits (fuel : nat) (base n : Z) (acc : list Z) : list Z :=
  let c := n mod base in
  let n := n / base in
  let acc := (if c <? 10 then c + 48 else c + 55) :: acc in
  if n =? 0 then acc
  else match fuel with
       | S fuel' => digits fuel' base n acc
       | O => acc
       end.

(** [Serial.print(n, HEX)] for a [uint16_t]: upper case, no padding. *)
Definition print_HEX (n : Z) : list Z := digits 4 16 (to_uint16 n) [].

(** [sprintf(s, "%d", n)] for an [int16_t]. *)
Definition print_dec (n : Z) : list Z :=
  if n <? 0 then 45 :: digits 5 10 (- n) [] else digits 5 10 n [].

(** [proto_set_response_pkt_error_code] *)
Definition proto_set_response_pkt_error_code (pkt_rsp : proto_pkt_t) (error_code : Z)
  : proto_pkt_t :=
  let pkt := if param_count pkt_rsp <=? 0 then set_param_count pkt_rsp 1 else pkt_rsp in
  mk_pkt (cmd pkt)
         (alter (fun row => store_bytes row 0 (print_dec error_code ++ [0])) 0%nat (params pkt))
         (param_count pkt) (pkt_crc16 pkt).

(** [proto_init_response_pkt] *)
Definition proto_init_response_pkt (pkt_rsp pkt_cmd : proto_pkt_t) : proto_pkt_t :=
  let pkt := proto_clear_pkt pkt_rsp in
  let pkt :=
    mk_pkt (strlcpy (cmd pkt) (cmd pkt_cmd) MAX_PROTO_CMD) (params pkt)
           (param_count pkt) (pkt_crc16 pkt) in
  proto_set_response_pkt_error_code pkt ERR_PROTO_SUCCESS.

(** The [do ... while(i < param_count)] of the encoder: the bytes written
    so far and the running checksum. *)
Fixpoint print_params (fuel : nat) (pkt : proto_pkt_t) (i : Z) (wr : list Z) (crc : Z)
  : list Z * Z :=
  let wr := wr ++ [PROTO_PSC] in
  let crc := crc16 crc PROTO_PSC in
  let row := default [] (params pkt !! Z.to_nat i) in
  let wr := wr ++ c_str row in
  let crc := crc16_buffer crc (mem_of row) 0 (strlen row) in
  let i := i + 1 in
  if i <? param_count pkt then
    match fuel with
    | S fuel' => print_params fuel' pkt i wr crc
    | O => (wr, crc)
    end
  else (wr, crc).

(** [proto_print_response_pkt]: the bytes written to the serial port and
    the packet afterwards (its [crc16] field is overwritten). *)
Definition proto_print_response_pkt (pkt_rsp : proto_pkt_t) : list Z * proto_pkt_t :=
  let wr := [PROTO_STX] in
  let crc := crc16 0 PROTO_STX in
  let wr := wr ++ c_str (cmd pkt_rsp) in
  let crc := crc16_buffer crc (mem_of (cmd pkt_rsp)) 0 (strlen (cmd pkt_rsp)) in
  let '(wr, crc) :=
    if param_count pkt_rsp >? 0
    then print_params (Z.to_nat (param_count pkt_rsp)) pkt_rsp 0 wr crc
    else (wr, crc) in
  let wr := wr ++ [PROTO_ETX] in
  let crc := crc16 crc PROTO_ETX in
  (wr ++ print_HEX crc ++ [PROTO_CR], set_crc16 pkt_rsp crc).

(** ** The input accumulator of [main.cpp] *)

Definition MAX_INPUT_BUFFER_LEN : Z := MAX_PROTO_PACKET_LEN.

(** The globals [proc_input] works on, and the bytes written to the serial
    port so far. *)
Record device := mk_device {
  cib_len : Z;                  (* uint16_t *)
  char_in_buffer : list Z;      (* char char_in_buffer[MAX_PROTO_PACKET_LEN] *)
  pkt_receive : proto_pkt_t;
  pkt_response : proto_pkt_t;
  serial_out : list Z
}.

(** [memset(char_in_buffer, 0, MAX_INPUT_BUFFER_LEN); cib_len = 0;] *)
Definition reset_input (d : device) : device :=
  mk_device 0 (replicate (Z.to_nat MAX_INPUT_BUFFER_LEN) 0)
            (pkt_receive d) (pkt_response d) (serial_out d).

(** The three calls that answer with an error code:
    [proto_init_response_pkt], [proto_set_response_pkt_error_code],
    [proto_print_response_pkt], on the global [pkt_response]. *)
Definition respond_error (d : device) (error_code : Z) : device :=
  let rsp := proto_init_response_pkt (pkt_response d) (pkt_receive d) in
  let rsp := proto_set_response_pkt_error_code rsp error_code in
  let '(wr, rsp) := proto_print_response_pkt rsp in
  mk_device (cib_len d) (char_in_buffer d) (pkt_receive d) rsp (serial_out d ++ wr).

(** [//reset do to buffer overflow], the part behind the [while] loop. *)
Definition overflow_check (d : device) : device :=
  if cib_len d >=? MAX_INPUT_BUFFER_LEN
  then reset_input (respond_error d ERR_PROTO_CP_CMD_OVERFLOW)
  else d.

Section Accumulator.

Variable DISABLE_CRC16 : bool.
Variable behind_crc16Hex : list Z.

(** The [while(Serial.available() > 0)] loop and what follows it.
    [pending] holds the bytes the port has available; the result is the
    [uint8_t] returned, the device afterwards and the bytes left unread. *)
Fixpoint proc_input_loop (pending : list Z) (d : device) : Z * device * list Z :=
  match pending with
  | [] => (0, overflow_check d, [])
  | ich :: pending' =>
      let d :=
        if (cib_len d <? MAX_INPUT_BUFFER_LEN)
           && negb (ich =? PROTO_CR) && negb (ich =? PROTO_NL)
        then mk_device (to_uint16 (cib_len d + 1)) (aset (char_in_buffer d) (cib_len d) ich)
                       (pkt_receive d) (pkt_response d) (serial_out d)
        else d in
      if ich =? PROTO_CR then
        let r := proto_parse_pkt_buffer DISABLE_CRC16 behind_crc16Hex
                   (mem_of (char_in_buffer d)) (cib_len d) (pkt_receive d) in
        let error_code := ret r in
        let d := reset_input (mk_device (cib_len d) (char_in_buffer d) (out r)
                                        (pkt_response d) (serial_out d)) in
        if error_code >=? 0 then (to_uint8 error_code, d, pending')
        else proc_input_loop pending' (respond_error d error_code)
      else proc_input_loop pending' d
  end.

(** [proc_input(&pkt_receive)]; [serial_up] is the value of [Serial]. *)
Definition proc_input (serial_up : bool) (pending : list Z) (d : device)
  : Z * device * list Z :=
  if serial_up then proc_input_loop pending d else (0, d, pending).

End Accumulator.

(** The device after reset: zeroed globals, nothing written. *)
Definition boot : device :=
  let zero := proto_clear_pkt (mk_pkt [] [] 0 0) in
  mk_device 0 (replicate (Z.to_nat MAX_PROTO_PACKET_LEN) 0) zero zero [].

(** ** The command handlers of [main.cpp] *)

Definition ERR_PROTO_CP_CMD_NOT_IMP : Z := -106.
Definition ERR_PROTO_CP_CMD_UNKNOWN : Z := -107.
Definition ERR_PROTO_CP_MISSING_PARAMS : Z := -108.

(** The string literals, with the terminator the compiler adds. *)
Definition VERSION_CODE : list Z := bytes "LEDSC_TEENSY_001" ++ [0].
Definition CMD_PRINT_VERSION : list Z := bytes "CPV" ++ [0; 0].
Definition CMD_FULL_RESET : list Z := bytes "CFR" ++ [0; 0].
Definition CMD_ENTER_BOOTLOADER : list Z := bytes "CEB" ++ [0; 0].
Definition CMD_SET_DEBUGGING : list Z := bytes "CSD" ++ [0; 0].
Definition CMD_SET_EFFECT : list Z := bytes "CSE" ++ [0; 0].
Definition CMD_SET_COLOR : list Z := bytes "CSC" ++ [0; 0].
Definition CMD_SET_BRIGHTNESS : list Z := bytes "CSB" ++ [0; 0].

(** [AvailableEffects::MAX_EFFECT], the number of effects: the
    enumeration runs from [OFF = 0] to [TWINKLE = 9]. *)
Definition MAX_EFFECT : Z := 10.

Definition to_uint32 (x : Z) : Z := x mod 4294967296.

(** [strcmp(a, b) == 0]: the strings are equal up to their first NUL. *)
Definition strcmp_is_0 (a b : list Z) : bool := bool_decide (c_str a = c_str b).

(** FastLED's [CRGB::setColorCode]: red, green and blue are the three low
    bytes of the code. *)
Definition setColorCode (colorcode : Z) : Z * Z * Z :=
  (Z.land (Z.shiftr colorcode 16) 255, Z.land (Z.shiftr colorcode 8) 255,
   Z.land colorcode 255).

(** The globals the handlers work on: those of [proc_input], the settings,
    and the brightness [FastLED.setBrightness] was last given. *)
Record firmware := mk_firmware {
  io : device;
  color : Z * Z * Z;            (* CRGB color *)
  brightness : Z;               (* uint8_t *)
  FastLED_brightness : Z;
  active_effect : Z;            (* Effect_t *)
  debugging : bool;
  brightnessDelta : Z           (* int *)
}.

Definition with_io (st : firmware) (d : device) : firmware :=
  mk_firmware d (color st) (brightness st) (FastLED_brightness st) (active_effect st)
              (debugging st) (brightnessDelta st).

(** The calls of the response builder on the globals: the handlers are
    given [&pkt_receive] and [&pkt_response]. *)
Definition init_response (d : device) : device :=
  mk_device (cib_len d) (char_in_buffer d) (pkt_receive d)
            (proto_init_response_pkt (pkt_response d) (pkt_receive d)) (serial_out d).

Definition set_response_error (d : device) (error_code : Z) : device :=
  mk_device (cib_len d) (char_in_buffer d) (pkt_receive d)
            (proto_set_response_pkt_error_code (pkt_response d) error_code) (serial_out d).

(** The value [proto_append_response_pkt_param] returns is not looked at. *)
Definition append_response (d : device) (param : list Z) : device :=
  mk_device (cib_len d) (char_in_buffer d) (pkt_receive d)
            (snd (proto_append_response_pkt_param (pkt_response d) param)) (serial_out d).

Definition print_response (d : device) : device :=
  let '(wr, rsp) := proto_print_response_pkt (pkt_response d) in
  mk_device (cib_len d) (char_in_buffer d) (pkt_receive d) rsp (serial_out d ++ wr).

Section Handlers.

(** [atoi] of the C library, on the memory from its argument on. *)
Variable atoi : list Z -> Z.

(** [params[0]] is handed to [atoi] and [strtol] as a string: they read
    the rows of [params], which lie one behind the other, and then what
    lies behind the array. *)
Variable behind_params : list Z.

Definition params_0 (pkt : proto_pkt_t) : list Z := concat (params pkt) ++ behind_params.

(** [proc_print_error] *)
Definition proc_print_error (st : firmware) (errorcode : Z) : firmware :=
  with_io st (print_response (set_response_error (init_response (io st)) errorcode)).

(** [proc_print_version] *)
Definition proc_print_version (st : firmware) : firmware :=
  with_io st (print_response (append_response (init_response (io st)) VERSION_CODE)).

(** [proc_set_debugging] *)
Definition proc_set_debugging (st : firmware) : firmware :=
  let pkt_received := pkt_receive (io st) in
  let debugging :=
    if param_count pkt_received >? 0
    then negb (atoi (params_0 pkt_received) =? 0)
    else debugging st in
  mk_firmware (print_response (init_response (io st)))
              (color st) (brightness st) (FastLED_brightness st) (active_effect st) debugging
              (brightnessDelta st).

(** [proc_set_active_effect] *)
Definition proc_set_active_effect (st : firmware) : firmware :=
  let pkt_received := pkt_receive (io st) in
  let d := init_response (io st) in
  if param_count pkt_received <=? 0 then
    with_io st (print_response (set_response_error d ERR_PROTO_CP_MISSING_PARAMS))
  else
    let active_effect :=
      if param_count pkt_received >? 0 then
        let effectin := fst (strtol16 (params_0 pkt_received)) in
        if (effectin >=? 0) && (effectin <? MAX_EFFECT) then effectin else active_effect st
      else active_effect st in
    mk_firmware (print_response d)
                (color st) (brightness st) (FastLED_brightness st) active_effect (debugging st)
                (brightnessDelta st).

(** [proc_set_color]; [colorin] is a [uint32_t]. *)
Definition proc_set_color (st : firmware) : firmware :=
  let pkt_received := pkt_receive (io st) in
  let d := init_response (io st) in
  if param_count pkt_received <=? 0 then
    with_io st (print_response (set_response_error d ERR_PROTO_CP_MISSING_PARAMS))
  else
    let color :=
      if param_count pkt_received >? 0 then
        let colorin := to_uint32 (fst (strtol16 (params_0 pkt_received))) in
        setColorCode colorin
      else color st in
    mk_firmware (print_response d)
                color (brightness st) (FastLED_brightness st) (active_effect st) (debugging st)
                (brightnessDelta st).

(** [proc_set_brightness]; [brightness] is a [uint8_t]. *)
Definition proc_set_brightness (st : firmware) : firmware :=
  let pkt_received := pkt_receive (io st) in
  let d := init_response (io st) in
  if param_count pkt_received <=? 0 then
    with_io st (print_response (set_response_error d ERR_PROTO_CP_MISSING_PARAMS))
  else
    let '(brightness, FastLED_brightness) :=
      if param_count pkt_received >? 0 then
        let brightness := to_uint8 (fst (strtol16 (params_0 pkt_received))) in
        (brightness, brightness)
      else (brightness st, FastLED_brightness st) in
    mk_firmware (print_response d)
                (color st) brightness FastLED_brightness (active_effect st) (debugging st)
                (brightnessDelta st).

(** [proc_cmd(&pkt_receive, &pkt_response)] *)
Definition proc_cmd (st : firmware) : firmware :=
  let name := cmd (pkt_receive (io st)) in
  let st :=
    if strcmp_is_0 name CMD_PRINT_VERSION then proc_print_version st
    else if strcmp_is_0 name CMD_FULL_RESET then proc_print_error st ERR_PROTO_CP_CMD_NOT_IMP
    else if strcmp_is_0 name CMD_ENTER_BOOTLOADER then
      proc_print_error st ERR_PROTO_CP_CMD_NOT_IMP
    else if strcmp_is_0 name CMD_SET_DEBUGGING then proc_set_debugging st
    else if strcmp_is_0 name CMD_SET_EFFECT then proc_set_active_effect st
    else if strcmp_is_0 name CMD_SET_COLOR then proc_set_color st
    else if strcmp_is_0 name CMD_SET_BRIGHTNESS then proc_set_brightness st
    else proc_print_error st ERR_PROTO_CP_CMD_UNKNOWN in
  (* //reset packet *)
  with_io st (mk_device (cib_len (io st)) (char_in_buffer (io st))
                        (proto_clear_pkt (pkt_receive (io st)))
                        (pkt_response (io st)) (serial_out (io st))).

End Handlers.

(** The two constants of the [SOLID_PULSE] case of [loop()]. *)
Definition min_pulse_brightness : Z := 50.
Definition max_pulse_brightness : Z := 175.

(** The brightness part of the [SOLID_PULSE] case, which runs every 33
    milliseconds while that effect is active:
    [brightness += brightnessDelta] on a [uint8_t], then the two bounds
    and [FastLED.setBrightness]. *)
Definition pulse (st : firmware) : firmware :=
  let brightness := to_uint8 (brightness st + brightnessDelta st) in
  let '(brightness, brightnessDelta) :=
    if brightness <=? min_pulse_brightness then (min_pulse_brightness, 1)
    else if brightness >=? max_pulse_brightness then (max_pulse_brightness, -1)
    else (brightness, brightnessDelta st) in
  mk_firmware (io st) (color st) brightness brightness (active_effect st) (debugging st)
              brightnessDelta.

(** [setup()]: the globals as their initializers set them, the start-up
    line written with [Serial.println], and the brightness handed to
    FastLED. *)
Definition setup : firmware :=
  mk_firmware
    (mk_device 0 (replicate (Z.to_nat MAX_PROTO_PACKET_LEN) 0)
               (proto_clear_pkt (mk_pkt [] [] 0 0)) (proto_clear_pkt (mk_pkt [] [] 0 0))
               (bytes "Teensy Startup" ++ [PROTO_CR; PROTO_NL]))
    (175, 91, 7) 0x44 0x44 0 false (-10).

(** * The vocabulary of the properties *)

(** A packet after [proto_clear_pkt]. *)
Definition zero_pkt : proto_pkt_t := proto_clear_pkt (mk_pkt [] [] 0 0).

(** The packet as the frame "[A:1:2:3:4]" leaves it behind.  The decoder
    does not reset [param_count], so the next frame finds it at four. *)
Definition four_params_pkt : proto_pkt_t :=
  out (proto_parse_pkt_buffer true [] (mem_of (bytes "[A:1:2:3:4]")) 11 zero_pkt).

(** The indices [p], [p + 1], ..., [n] of them. *)
Fixpoint zrange (p : Z) (n : nat) : list Z :=
  match n with
  | O => []
  | S n' => p :: zrange (p + 1) n'
  end.

(** The two bytes that end a name or a parameter. *)
Definition delimiter (c : Z) : Prop := c = PROTO_PSC \/ c = PROTO_ETX.

(** The accesses of a trace that leave their array, oldest first. *)
Definition out_of_bounds (len : Z) (tr : list access) : list access :=
  rev (List.filter (fun a => negb (in_bounds len a)) tr).

(** The bytes [l] lie in [m] from offset [p] on. *)
Fixpoint holds (m : memory) (p : Z) (l : list Z) : Prop :=
  match l with
  | [] => True
  | c :: r => m p = c /\ holds m (p + 1) r
  end.

(** No separator and no end marker among the bytes. *)
Definition plain (l : list Z) : Prop := Forall (fun c => ~ delimiter c) l.

(** The array holds a NUL, so that the string ends inside it. *)
Definition terminated (a : list Z) : Prop := strlen a < Z.of_nat (length a).

(** A parameter value that a slot holds together with its terminator and
    that travels unchanged: at most 49 bytes, no NUL, no delimiter. *)
Definition fits (v : list Z) : Prop :=
  Z.of_nat (length v) < MAX_PROTO_PARAM_LEN /\ Forall (fun c => c <> 0) v /\ plain v.

(** The frame up to the end marker: start marker, name, a separator in
    front of each parameter, end marker. *)
Definition frame_body (name : list Z) (ps : list (list Z)) : list Z :=
  [PROTO_STX] ++ name ++ concat (map (cons PROTO_PSC) ps) ++ [PROTO_ETX].

(** [serialize] as the specification words it: the bytes up to the end
    marker, then, if integrity checking is enabled, the checksum over
    every byte written so far in upper case hexadecimal, then the
    carriage return. *)
Definition serialize_spec (crc_enabled : bool) (name : list Z) (ps : list (list Z)) : list Z :=
  frame_body name ps
  ++ (if crc_enabled then print_HEX (fold_left crc16 (frame_body name ps) 0) else [])
  ++ [PROTO_CR].

(** The parameters the encoder visits: slots [0] to [param_count - 1]. *)
Definition encoded_params (pkt : proto_pkt_t) : list (list Z) :=
  map (param pkt) (zrange 0 (Z.to_nat (param_count pkt))).

(** What one round of the parameter loop does for a parameter that fits
    its slot. *)
Definition put_param (pkt : proto_pkt_t) (v : list Z) : proto_pkt_t :=
  mk_pkt (cmd pkt)
         (alter (fun row => store_bytes row 0 (v ++ [0])) (Z.to_nat (param_count pkt))
                (params pkt))
         (param_count pkt + 1) (pkt_crc16 pkt).

(** The rounds for a list of parameters, one behind the other. *)
Definition fill_params (pkt : proto_pkt_t) (vs : list (list Z)) : proto_pkt_t :=
  fold_left put_param vs pkt.

(** The byte in front, if any, is no hexadecimal digit. *)
Definition no_hex_ahead (r : list Z) : Prop :=
  match r with
  | c :: _ => is_hex c = false
  | [] => True
  end.

(** The four bytes of [crc16Hex] after the checksum [c] and the carriage
    return have been read into it. *)
Definition crc16Hex_of (c : Z) : list Z :=
  store_bytes [0; 0; 0; 0] 0 (take 4 (print_HEX c ++ [PROTO_CR])).

(** The check made for each of the 65536 checksums: [crc16Hex] starts
    with a digit, [strtol] reads the checksum back from it, and it is
    full of digits only for a checksum of four digits. *)
Definition hex_field_ok (c : Z) : bool :=
  match crc16Hex_of c with
  | [d; x; h; t] =>
      is_hex d && negb (x =? 120) && negb (x =? 88)
      && (fst (strtol16 [d; x; h; t]) =? c) && (0 <? snd (strtol16 [d; x; h; t]))
      && implb (forallb is_hex [d; x; h; t]) (4096 <=? c)
      && (1 <=? Z.of_nat (length (print_HEX c))) && (Z.of_nat (length (print_HEX c)) <=? 4)
  | _ => false
  end.

(** A packet the encoder can write and the decoder can read back: at
    most four parameters, name and parameters terminated inside their
    arrays and free of separators and end markers. *)
Definition encodable (p : proto_pkt_t) : Prop :=
  wf_pkt p /\
  param_count p <= MAX_PROTO_PARAM_COUNT /\
  terminated (cmd p) /\ plain (c_str (cmd p)) /\
  (forall k, 0 <= k < param_count p ->
     terminated (default [] (params p !! Z.to_nat k)) /\ plain (param p k)).

(** A response packet with the given name and one parameter, made with
    [strlcpy] and [proto_append_response_pkt_param]. *)
Definition response_with (name value : list Z) : proto_pkt_t :=
  let pkt := proto_clear_pkt zero_pkt in
  let pkt := mk_pkt (strlcpy (cmd pkt) name MAX_PROTO_CMD) (params pkt)
                    (param_count pkt) (pkt_crc16 pkt) in
  snd (proto_append_response_pkt_param pkt value).

(** The bytes the accumulator stores: all but carriage return and line
    feed. *)
Definition stored (pending : list Z) : list Z :=
  List.filter (fun ich => negb (ich =? PROTO_CR) && negb (ich =? PROTO_NL)) pending.

(** The response written for an error code. *)
Definition error_report (d : device) (error_code : Z) : list Z :=
  fst (proto_print_response_pkt
         (proto_set_response_pkt_error_code
            (proto_init_response_pkt (pkt_response d) (pkt_receive d)) error_code)).

(** The CRC-16 of the CCITT polynomial x^16 + x^12 + x^5 + 1, taken bit
    by bit: shift the register left and subtract the polynomial when a
    one drops out.  A byte is added to the high half of the register and
    eight shifts follow. *)
Definition CRC16_POLY : Z := 0x1021.

Definition crc_shift (r : Z) : Z :=
  let s := to_uint16 (Z.shiftl r 1) in
  if Z.testbit r 15 then Z.lxor s CRC16_POLY else s.

Fixpoint crc_shifts (n : nat) (r : Z) : Z :=
  match n with
  | O => r
  | S n' => crc_shifts n' (crc_shift r)
  end.

Definition crc_shift8 (r : Z) : Z := crc_shifts 8 r.

Definition crc16_bitwise (crc data : Z) : Z :=
  crc_shift8 (Z.lxor crc (Z.shiftl data 8)).

(** The two facts about single bytes, by running through the 256 of
    them: the table holds the eight shifts of each byte in the high half,
    and a byte in the low half is moved up by the eight shifts. *)
Definition byte_facts (i : Z) : bool :=
  (aget CRC16_table i =? crc_shift8 (Z.shiftl i 8)) && (crc_shift8 i =? Z.shiftl i 8)
  && (0 <=? aget CRC16_table i) && (aget CRC16_table i <? 65536).

(** The eight shifts send no register but zero to zero; checked on the
    65536 registers. *)
Definition shift8_kernel (x : Z) : bool := (x =? 0) || negb (crc_shift8 x =? 0).

(** The number a decimal text stands for; [None] when the text is not an
    optional minus sign followed by digits. *)
Fixpoint decimal_digits (l : list Z) (acc : Z) : option Z :=
  match l with
  | [] => Some acc
  | c :: r => if (48 <=? c) && (c <=? 57) then decimal_digits r (acc * 10 + (c - 48)) else None
  end.

Definition decimal (l : list Z) : option Z :=
  match l with
  | [] => None
  | c :: r =>
      if c =? 45 then
        match r with
        | [] => None
        | _ => option_map Z.opp (decimal_digits r 0)
        end
      else decimal_digits l 0
  end.

(** The check made for each [int16_t]: the text [sprintf] writes for it is
    short, has no NUL and stands for the number. *)
Definition print_dec_ok (n : Z) : bool :=
  (Z.of_nat (length (print_dec n)) <=? 6)
  && forallb (fun c => negb (c =? 0)) (print_dec n)
  && match decimal (print_dec n) with
     | Some v => v =? n
     | None => false
     end.

(** An access that stays inside its array or touches the element just
    behind its end. *)
Definition near (len : Z) (a : access) : bool :=
  match a with
  | Load_buffer i => (0 <=? i) && (i <=? len)
  | Store_cmd i => (0 <=? i) && (i <=? MAX_PROTO_CMD)
  | Store_param slot i =>
      (0 <=? slot) && (slot <? MAX_PROTO_PARAM_COUNT) && (0 <=? i) && (i <=? MAX_PROTO_PARAM_LEN)
  end.

(** A store that stays inside its array.  Loads are let pass: the buffer
    is the memory behind a pointer, and a load changes nothing. *)
Definition store_inside (a : access) : bool :=
  match a with
  | Load_buffer _ => true
  | Store_cmd i => (0 <=? i) && (i <? MAX_PROTO_CMD)
  | Store_param slot i =>
      (0 <=? slot) && (slot <? MAX_PROTO_PARAM_COUNT) && (0 <=? i) && (i <? MAX_PROTO_PARAM_LEN)
  end.

(** No store of the trace leaves its array.  The arrays of the model drop
    such a store while the code puts it into the neighbouring field, so
    that model and code go the same way exactly as long as this holds. *)
Definition stores_inside (tr : list access) : Prop :=
  Forall (fun a => store_inside a = true) tr.

(** Every access of a trace is [near]. *)
Definition all_near (len : Z) (tr : list access) : Prop :=
  Forall (fun a => near len a = true) tr.

(** The end of the decoder: the step over the end marker and, in the
    build that checks, the checksum. *)
Definition finish (DISABLE_CRC16 : bool) (behind : list Z) (buffer : memory) (len si pbi : Z)
    (pkt : proto_pkt_t) (tr : list access) : parse_result :=
  let tr := Load_buffer pbi :: tr in
  let pbi := if buffer pbi =? PROTO_ETX then to_uint16 (pbi + 1) else pbi in
  if DISABLE_CRC16 then mk_result (to_int16 pbi) pkt tr
  else check_crc16 behind buffer len pbi si pkt tr.

(** The packet after the name has been stored. *)
Definition named (pkt : proto_pkt_t) (name : list Z) : proto_pkt_t :=
  mk_pkt (store_bytes (cmd pkt) 0 (name ++ [0])) (params pkt) (param_count pkt) 0.

(** The globals between two calls of [proc_input]: the buffer has room,
    the arrays have their sizes. *)
Definition wf_device (d : device) : Prop :=
  0 <= cib_len d < MAX_INPUT_BUFFER_LEN /\
  length (char_in_buffer d) = Z.to_nat MAX_INPUT_BUFFER_LEN /\
  wf_pkt (pkt_receive d) /\ wf_pkt (pkt_response d).

(** The bytes the accumulator drops without a trace. *)
Definition no_line_feed (pending : list Z) : list Z :=
  List.filter (fun ich => negb (ich =? PROTO_NL)) pending.

(** The input loop with a record of what its decoder calls load and
    store, the most recent access first. *)
Fixpoint proc_input_loop_traced (D : bool) (behind pending : list Z) (d : device)
  : Z * device * list Z * list access :=
  match pending with
  | [] => (0, overflow_check d, [], [])
  | ich :: pending' =>
      let d :=
        if (cib_len d <? MAX_INPUT_BUFFER_LEN)
           && negb (ich =? PROTO_CR) && negb (ich =? PROTO_NL)
        then mk_device (to_uint16 (cib_len d + 1)) (aset (char_in_buffer d) (cib_len d) ich)
                       (pkt_receive d) (pkt_response d) (serial_out d)
        else d in
      if ich =? PROTO_CR then
        let r := proto_parse_pkt_buffer D behind
                   (mem_of (char_in_buffer d)) (cib_len d) (pkt_receive d) in
        let d := reset_input (mk_device (cib_len d) (char_in_buffer d) (out r)
                                        (pkt_response d) (serial_out d)) in
        if ret r >=? 0 then (to_uint8 (ret r), d, pending', trace r)
        else
          let '(res, tr) := proc_input_loop_traced D behind pending' (respond_error d (ret r)) in
          (res, tr ++ trace r)
      else proc_input_loop_traced D behind pending' d
  end.

(** [proc_input] with that record. *)
Definition proc_input_traced (D : bool) (behind : list Z) (serial_up : bool)
    (pending : list Z) (d : device) : Z * device * list Z * list access :=
  if serial_up then proc_input_loop_traced D behind pending d else (0, d, pending, []).

(** Every access stays inside its array of the firmware: [char_in_buffer]
    of 256 bytes, [cmd] and [params] of the receive packet.  The model
    reads zero behind the buffer and drops a store behind an array, where
    the code reads and writes the neighbouring globals; as long as this
    holds for a run, model and code go the same way. *)
Definition accesses_inside (tr : list access) : Prop :=
  Forall (fun a => in_bounds MAX_INPUT_BUFFER_LEN a = true) tr.

(** The five settings. *)
Definition settings_of (st : firmware) : Z * Z * Z * Z * Z * Z * bool :=
  (color st, brightness st, FastLED_brightness st, active_effect st, debugging st).

(** The device has answered with one frame: the first nine bytes of the
    name in the receive packet and the parameters [ps], with checksum and
    carriage return; the input buffer is as it was. *)
Definition answered (d d' : device) (ps : list (list Z)) : Prop :=
  cib_len d' = cib_len d /\ char_in_buffer d' = char_in_buffer d /\
  wf_pkt (pkt_response d') /\
  serial_out d' =
    serial_out d ++ serialize_spec true (take 9 (c_str (cmd (pkt_receive d)))) ps.

(** The settings stay inside their types. *)
Definition settings_in_range (st : firmware) : Prop :=
  let '(r, g, b) := color st in
  0 <= r < 256 /\ 0 <= g < 256 /\ 0 <= b < 256 /\
  0 <= brightness st < 256 /\ FastLED_brightness st = brightness st /\
  0 <= active_effect st < MAX_EFFECT.

(** The check made for each [uint16_t]: its hexadecimal text is not
    empty, is made of hexadecimal digits and reads back as the number. *)
Definition hex_text_ok (n : Z) : bool :=
  negb (Z.of_nat (length (print_HEX n)) =? 0)
  && forallb is_hex (print_HEX n)
  && (fst (strtol_digits (print_HEX n) 0 0) =? n)
  && (Z.of_nat (length (print_HEX n)) <=? 4).

(** * Properties *)

(** ** Arithmetic of the fixed width types *)

Lemma to_uint16_small (x : Z) : 0 <= x < 65536 -> to_uint16 x = x.
Proof. intros H. unfold to_uint16. apply Z.mod_small. lia. Qed.

Lemma to_int16_small (x : Z) : 0 <= x <= INT16_MAX -> to_int16 x = x.
Proof.
  unfold to_int16, INT16_MAX. intros H.
  rewrite to_uint16_small by lia.
  destruct (Z.leb_spec x 32767); lia.
Qed.

(** An [int16_t] made from an index up to 32768 is the index itself or
    the most negative value; it is none of the error codes. *)
Lemma to_int16_index (x : Z) :
  0 <= x <= INT16_MAX + 1 -> 0 <= to_int16 x \/ to_int16 x = -32768.
Proof.
  unfold to_int16, INT16_MAX. intros H.
  rewrite to_uint16_small by lia.
  destruct (Z.leb_spec x 32767); lia.
Qed.

(** ** Arrays *)

Lemma length_aset (a : list Z) (i v : Z) : length (aset a i v) = length a.
Proof. unfold aset. apply length_insert. Qed.

Lemma aget_aset_eq (a : list Z) (i v : Z) :
  (Z.to_nat i < length a)%nat -> aget (aset a i v) i = v.
Proof. intros H. unfold aget, aset. rewrite list_lookup_insert_eq by exact H. reflexivity. Qed.

Lemma aget_aset_ne (a : list Z) (i k v : Z) :
  0 <= i -> 0 <= k -> i <> k -> aget (aset a i v) k = aget a k.
Proof.
  intros Hi Hk Hne. unfold aget, aset. rewrite list_lookup_insert_ne by lia. reflexivity.
Qed.

Lemma length_store_bytes (bs a : list Z) (i : Z) : length (store_bytes a i bs) = length a.
Proof.
  revert a i. induction bs as [|b bs IH]; intros a i; cbn [store_bytes]; [reflexivity|].
  rewrite IH. apply length_aset.
Qed.

Lemma aget_store_bytes_lt (bs a : list Z) (i k : Z) :
  0 <= k < i -> aget (store_bytes a i bs) k = aget a k.
Proof.
  revert a i. induction bs as [|b bs IH]; intros a i H; cbn [store_bytes]; [reflexivity|].
  rewrite IH by lia. apply aget_aset_ne; lia.
Qed.

Lemma store_bytes_app (x y a : list Z) (i : Z) :
  store_bytes a i (x ++ y) = store_bytes (store_bytes a i x) (i + Z.of_nat (length x)) y.
Proof.
  revert a i. induction x as [|b x IH]; intros a i; cbn [store_bytes app length].
  - rewrite Z.add_0_r. reflexivity.
  - rewrite IH. f_equal. lia.
Qed.

(** ** The loops of the decoder *)

Section Loops.

Variable buffer : memory.
Variable len : Z.
Hypothesis len_range : 0 < len <= 65535.

(** The scan stops one behind the first start marker, or at [len] when
    the bytes in front of the last one hold none. *)
Lemma scan_stx_spec (fuel : nat) (pbi : Z) (tr : list access) :
  0 <= pbi < len ->
  (Z.to_nat (len - pbi) <= fuel)%nat ->
  exists p tr',
    scan_stx fuel buffer len pbi pbi tr = (p, p - 1, tr') /\
    pbi < p <= len /\
    (forall j, pbi <= j < p - 1 -> buffer j <> PROTO_STX) /\
    (p < len -> buffer (p - 1) = PROTO_STX).
Proof.
  revert pbi tr. induction fuel as [|fuel IH]; intros pbi tr Hp Hf; [lia|].
  cbn [scan_stx]. rewrite !to_uint16_small by lia.
  destruct (Z.eqb_spec (buffer pbi) PROTO_STX) as [Heq|Hne]; cbn [negb andb].
  - exists (pbi + 1), (Load_buffer pbi :: tr).
    replace (pbi + 1 - 1) with pbi by lia. repeat split; try lia; auto; lia.
  - destruct (Z.ltb_spec (pbi + 1) len) as [Hlt|Hge].
    + destruct (IH (pbi + 1) (Load_buffer pbi :: tr)) as (p & tr' & E & Hr & Hno & Hst); [lia|lia|].
      exists p, tr'. replace (pbi + 1 - 1) with pbi in E by lia.
      split; [exact E|]. split; [lia|]. split; [|exact Hst].
      intros j Hj. destruct (Z.eq_dec j pbi) as [->|]; [auto|apply Hno; lia].
    + exists (pbi + 1), (Load_buffer pbi :: tr).
      replace (pbi + 1 - 1) with pbi by lia. repeat split; try lia.
Qed.

(** The name loop copies a run of [n] bytes free of separators and end
    markers, and stops at the end of the buffer, at the tenth byte, or on
    a separator or end marker. *)
Lemma copy_cmd_spec (fuel : nat) (pbi i : Z) (pkt : proto_pkt_t) (tr : list access) :
  0 <= pbi <= len ->
  (Z.to_nat (len - pbi) <= fuel)%nat ->
  exists (n : nat) tr',
    copy_cmd fuel buffer len pbi i pkt tr =
      (pbi + Z.of_nat n, i + Z.of_nat n,
       mk_pkt (store_bytes (cmd pkt) i (map buffer (zrange pbi n)))
              (params pkt) (param_count pkt) (pkt_crc16 pkt), tr') /\
    pbi + Z.of_nat n <= len /\
    ((0 < n)%nat -> i + Z.of_nat n <= MAX_PROTO_CMD) /\
    (forall j, pbi <= j < pbi + Z.of_nat n -> ~ delimiter (buffer j)) /\
    (pbi + Z.of_nat n < len -> i + Z.of_nat n < MAX_PROTO_CMD ->
     delimiter (buffer (pbi + Z.of_nat n))).
Proof.
  revert pbi i pkt tr. induction fuel as [|fuel IH]; intros pbi i pkt tr Hp Hf.
  - assert (pbi = len) as -> by lia.
    cbn [copy_cmd]. rewrite Z.ltb_irrefl. cbn [andb].
    exists 0%nat, tr. destruct pkt. cbn. rewrite !Z.add_0_r.
    repeat split; try lia.
  - cbn [copy_cmd].
    destruct (Z.ltb_spec pbi len) as [Hlt|Hge]; cbn [andb].
    2:{ exists 0%nat, tr. destruct pkt. cbn. rewrite !Z.add_0_r. repeat split; try lia. }
    destruct (Z.ltb_spec i MAX_PROTO_CMD) as [Hi|Hi]; cbn [andb].
    2:{ exists 0%nat, tr. destruct pkt. cbn. rewrite !Z.add_0_r. repeat split; try lia. }
    destruct (Z.eqb_spec (buffer pbi) PROTO_PSC) as [Hc|Hc]; cbn [negb andb].
    { exists 0%nat, (Load_buffer pbi :: tr). destruct pkt. cbn. rewrite !Z.add_0_r.
      repeat split; try lia. intros _ _. left. exact Hc. }
    destruct (Z.eqb_spec (buffer pbi) PROTO_ETX) as [He|He]; cbn [negb andb].
    { exists 0%nat, (Load_buffer pbi :: tr). destruct pkt. cbn. rewrite !Z.add_0_r.
      repeat split; try lia. intros _ _. right. exact He. }
    rewrite to_uint16_small by lia.
    destruct (IH (pbi + 1) (i + 1) (set_cmd pkt i (buffer pbi))
                 (Store_cmd i :: Load_buffer pbi :: tr)) as (n & tr' & E & H1 & H2 & H3 & H4);
      [lia|lia|].
    exists (S n), tr'. rewrite E. cbn [zrange map store_bytes set_cmd cmd params param_count pkt_crc16].
    replace (pbi + 1 + Z.of_nat n) with (pbi + Z.of_nat (S n)) in * by lia.
    replace (i + 1 + Z.of_nat n) with (i + Z.of_nat (S n)) in * by lia.
    split; [reflexivity|]. split; [lia|]. split.
    { intros _. destruct n; [unfold MAX_PROTO_CMD in *; lia|apply H2; lia]. }
    split; [|exact H4].
    intros j Hj. destruct (Z.eq_dec j pbi) as [->|Hne].
    + unfold delimiter. tauto.
    + apply H3. lia.
Qed.

(** The same for the loop that copies a parameter into its slot. *)
Lemma copy_param_spec (fuel : nat) (pbi pci : Z) (pkt : proto_pkt_t) (tr : list access) :
  0 <= pbi <= len ->
  (Z.to_nat (len - pbi) <= fuel)%nat ->
  exists (n : nat) tr',
    copy_param fuel buffer len pbi pci pkt tr =
      (pbi + Z.of_nat n, pci + Z.of_nat n,
       mk_pkt (cmd pkt)
              (alter (fun row => store_bytes row pci (map buffer (zrange pbi n)))
                     (Z.to_nat (param_count pkt)) (params pkt))
              (param_count pkt) (pkt_crc16 pkt), tr') /\
    pbi + Z.of_nat n <= len /\
    ((0 < n)%nat -> pci + Z.of_nat n <= MAX_PROTO_PARAM_LEN) /\
    (forall j, pbi <= j < pbi + Z.of_nat n -> ~ delimiter (buffer j)) /\
    (pbi + Z.of_nat n < len -> pci + Z.of_nat n < MAX_PROTO_PARAM_LEN ->
     delimiter (buffer (pbi + Z.of_nat n))).
Proof.
  assert (Hid : forall pkt0 : proto_pkt_t,
             mk_pkt (cmd pkt0)
               (alter (fun row => store_bytes row pci []) (Z.to_nat (param_count pkt0)) (params pkt0))
               (param_count pkt0) (pkt_crc16 pkt0) = pkt0).
  { intros [c ps k x]. cbn. f_equal. apply list_alter_id. auto. }
  revert pbi pci pkt tr Hid. induction fuel as [|fuel IH]; intros pbi pci pkt tr Hid Hp Hf.
  - assert (pbi = len) as -> by lia.
    cbn [copy_param]. rewrite Z.ltb_irrefl. cbn [andb].
    exists 0%nat, tr. cbn [zrange map]. rewrite Hid, !Z.add_0_r.
    repeat split; try lia.
  - cbn [copy_param].
    destruct (Z.ltb_spec pbi len) as [Hlt|Hge]; cbn [andb].
    2:{ exists 0%nat, tr. cbn [zrange map]. rewrite Hid, !Z.add_0_r. repeat split; try lia. }
    destruct (Z.ltb_spec pci MAX_PROTO_PARAM_LEN) as [Hi|Hi]; cbn [andb].
    2:{ exists 0%nat, tr. cbn [zrange map]. rewrite Hid, !Z.add_0_r. repeat split; try lia. }
    destruct (Z.eqb_spec (buffer pbi) PROTO_PSC) as [Hc|Hc]; cbn [negb andb].
    { exists 0%nat, (Load_buffer pbi :: tr). cbn [zrange map]. rewrite Hid, !Z.add_0_r.
      repeat split; try lia. intros _ _. left. exact Hc. }
    destruct (Z.eqb_spec (buffer pbi) PROTO_ETX) as [He|He]; cbn [negb andb].
    { exists 0%nat, (Load_buffer pbi :: tr). cbn [zrange map]. rewrite Hid, !Z.add_0_r.
      repeat split; try lia. intros _ _. right. exact He. }
    rewrite to_uint16_small by lia.
    destruct (IH (pbi + 1) (pci + 1) (set_param pkt (param_count pkt) pci (buffer pbi))
                 (Store_param (param_count pkt) pci :: Load_buffer pbi :: tr))
      as (n & tr' & E & H1 & H2 & H3 & H4); [|lia|lia|].
    { intros [c ps k x]. cbn. f_equal. apply list_alter_id. auto. }
    exists (S n), tr'. rewrite E.
    cbn [zrange map store_bytes set_param cmd params param_count pkt_crc16].
    replace (pbi + 1 + Z.of_nat n) with (pbi + Z.of_nat (S n)) in * by lia.
    replace (pci + 1 + Z.of_nat n) with (pci + Z.of_nat (S n)) in * by lia.
    split.
    { f_equal. f_equal. f_equal. rewrite list_alter_alter_eq. reflexivity. }
    split; [lia|]. split.
    { intros _. destruct n; [unfold MAX_PROTO_PARAM_LEN in *; lia|apply H2; lia]. }
    split; [|exact H4].
    intros j Hj. destruct (Z.eq_dec j pbi) as [->|Hne].
    + unfold delimiter. tauto.
    + apply H3. lia.
Qed.

(** The parameter loop moves forward, stays inside the buffer and leaves
    the name alone. *)
Lemma parse_params_spec (fuel : nat) (pbi : Z) (pkt : proto_pkt_t) (tr : list access) :
  0 <= pbi < len ->
  exists p' pkt' tr',
    parse_params fuel buffer len pbi pkt tr = (p', pkt', tr') /\
    pbi < p' <= len /\ cmd pkt' = cmd pkt.
Proof.
  revert pbi pkt tr. induction fuel as [|fuel IH]; intros pbi pkt tr Hp;
    cbn [parse_params]; rewrite to_uint16_small by lia;
    destruct (copy_param_spec (Z.to_nat len) (pbi + 1) 0 pkt tr)
      as (n & tr1 & E & H1 & _); try lia; rewrite E; clear E.
  - match goal with
    | |- context [if ?c then _ else _] => destruct c
    end; (eexists _, _, _; split; [reflexivity|]; split; [lia|reflexivity]).
  - match goal with
    | |- exists _ _ _, (if ?c then _ else _) = _ /\ _ => destruct c eqn:Hc
    end.
    + apply andb_prop in Hc as [Hc _]. apply andb_prop in Hc as [Hc _].
      apply Z.ltb_lt in Hc.
      match goal with
      | |- context [parse_params fuel buffer len ?q ?k ?t] =>
          destruct (IH q k t) as (p' & pkt' & tr' & E & Hr & Hcmd); [lia|]
      end.
      exists p', pkt', tr'. split; [exact E|]. split; [lia|]. rewrite Hcmd. reflexivity.
    + eexists _, _, _. split; [reflexivity|]. split; [lia|reflexivity].
Qed.

Lemma read_crc16Hex_range (fuel : nat) (pbi i : Z) (hex : list Z) (tr : list access) :
  0 <= pbi <= len + 1 ->
  exists p' hex' tr',
    read_crc16Hex fuel buffer len pbi i hex tr = (p', hex', tr') /\ pbi <= p' <= len + 1.
Proof.
  revert pbi i hex tr. induction fuel as [|fuel IH]; intros pbi i hex tr Hp; cbn [read_crc16Hex].
  - destruct (_ && _); eexists _, _, _; (split; [reflexivity|lia]).
  - destruct (Z.ltb_spec i 4); cbn [andb]; [|eexists _, _, _; split; [reflexivity|lia]].
    destruct (Z.ltb_spec pbi len); [|eexists _, _, _; split; [reflexivity|lia]].
    rewrite to_uint16_small by lia.
    destruct (IH (pbi + 1) (i + 1) (aset hex i (buffer pbi)) (Load_buffer pbi :: tr))
      as (p' & hex' & tr' & E & Hr); [lia|].
    exists p', hex', tr'. split; [exact E|lia].
Qed.

End Loops.

(** ** The loops end before their fuel does *)

Section Fuel.

Variable buffer : memory.
Variable len : Z.
Hypothesis len_range : 0 < len <= 65535.

(** The loops are given [len] rounds; each round moves [pbi] forward and
    needs [pbi < len], so any supply of at least [len - pbi] rounds gives
    the same result. *)
Lemma scan_stx_fuel (f1 : nat) :
  forall (f2 : nat) (pbi si : Z) (tr : list access),
    0 <= pbi < len ->
    (Z.to_nat (len - pbi) <= f1)%nat -> (Z.to_nat (len - pbi) <= f2)%nat ->
    scan_stx f1 buffer len pbi si tr = scan_stx f2 buffer len pbi si tr.
Proof.
  induction f1 as [|f1 IH]; intros f2 pbi si tr Hp H1 H2; [lia|].
  destruct f2 as [|f2]; [lia|].
  cbn [scan_stx]. rewrite to_uint16_small by lia.
  destruct (negb (buffer pbi =? PROTO_STX)); cbn [andb]; [|reflexivity].
  destruct (Z.ltb_spec (pbi + 1) len); [|reflexivity].
  apply IH; lia.
Qed.

Lemma copy_cmd_fuel (f1 : nat) :
  forall (f2 : nat) (pbi i : Z) (pkt : proto_pkt_t) (tr : list access),
    0 <= pbi ->
    (Z.to_nat (len - pbi) <= f1)%nat -> (Z.to_nat (len - pbi) <= f2)%nat ->
    copy_cmd f1 buffer len pbi i pkt tr = copy_cmd f2 buffer len pbi i pkt tr.
Proof.
  induction f1 as [|f1 IH]; intros f2 pbi i pkt tr Hp H1 H2;
    destruct f2 as [|f2]; cbn [copy_cmd];
    (destruct (Z.ltb_spec pbi len); cbn [andb]; [|reflexivity]); try lia.
  destruct (_ && _); [|reflexivity].
  rewrite to_uint16_small by lia. apply IH; lia.
Qed.

Lemma copy_param_fuel (f1 : nat) :
  forall (f2 : nat) (pbi pci : Z) (pkt : proto_pkt_t) (tr : list access),
    0 <= pbi ->
    (Z.to_nat (len - pbi) <= f1)%nat -> (Z.to_nat (len - pbi) <= f2)%nat ->
    copy_param f1 buffer len pbi pci pkt tr = copy_param f2 buffer len pbi pci pkt tr.
Proof.
  induction f1 as [|f1 IH]; intros f2 pbi pci pkt tr Hp H1 H2;
    destruct f2 as [|f2]; cbn [copy_param];
    (destruct (Z.ltb_spec pbi len); cbn [andb]; [|reflexivity]); try lia.
  destruct (_ && _); [|reflexivity].
  rewrite to_uint16_small by lia. apply IH; lia.
Qed.

Lemma parse_params_fuel (f1 : nat) :
  forall (f2 : nat) (pbi : Z) (pkt : proto_pkt_t) (tr : list access),
    0 <= pbi < len ->
    (Z.to_nat (len - pbi) <= f1)%nat -> (Z.to_nat (len - pbi) <= f2)%nat ->
    parse_params f1 buffer len pbi pkt tr = parse_params f2 buffer len pbi pkt tr.
Proof.
  induction f1 as [|f1 IH]; intros f2 pbi pkt tr Hp H1 H2; [lia|].
  destruct f2 as [|f2]; [lia|].
  cbn [parse_params]. rewrite to_uint16_small by lia.
  destruct (copy_param_spec buffer len len_range (Z.to_nat len) (pbi + 1) 0 pkt tr)
    as (n & tr1 & E & Hn & _); [lia|lia|].
  rewrite E. cbv zeta.
  destruct (Z.ltb_spec (pbi + 1 + Z.of_nat n) len); cbn [andb]; [|reflexivity].
  destruct (_ && _); [|reflexivity].
  apply IH; lia.
Qed.

Lemma read_crc16Hex_fuel (f1 : nat) :
  forall (f2 : nat) (pbi i : Z) (hex : list Z) (tr : list access),
    0 <= pbi ->
    (Z.to_nat (4 - i) <= f1)%nat -> (Z.to_nat (4 - i) <= f2)%nat ->
    read_crc16Hex f1 buffer len pbi i hex tr = read_crc16Hex f2 buffer len pbi i hex tr.
Proof.
  induction f1 as [|f1 IH]; intros f2 pbi i hex tr Hp H1 H2;
    destruct f2 as [|f2]; cbn [read_crc16Hex];
    (destruct (Z.ltb_spec i 4); cbn [andb]; [|reflexivity]); try lia.
  destruct (Z.ltb_spec pbi len); [|reflexivity].
  rewrite to_uint16_small by lia. apply IH; lia.
Qed.

End Fuel.

Lemma crc16_loop_fuel (f1 : nat) :
  forall (f2 : nat) (crc : Z) (data : memory) (i len : Z),
    (Z.to_nat (len - i) <= f1)%nat -> (Z.to_nat (len - i) <= f2)%nat ->
    crc16_loop f1 crc data i len = crc16_loop f2 crc data i len.
Proof.
  induction f1 as [|f1 IH]; intros f2 crc data i len H1 H2;
    destruct f2 as [|f2]; cbn [crc16_loop];
    (destruct (Z.ltb_spec i len); [|reflexivity]); try lia.
  apply IH; lia.
Qed.

(** The digit loops: a number below [base ^ (fuel + 1)] is printed in
    full. *)
Lemma digits_fuel (base : Z) (f1 : nat) :
  forall (f2 : nat) (n : Z) (acc : list Z),
    1 < base -> 0 <= n < base ^ (Z.of_nat f1 + 1) -> (f1 <= f2)%nat ->
    digits f1 base n acc = digits f2 base n acc.
Proof.
  induction f1 as [|f1 IH]; intros f2 n acc Hb Hn Hf.
  - cbn [digits]. rewrite Z.pow_1_r in Hn.
    rewrite (Z.div_small n base) by lia. cbn.
    destruct f2; cbn [digits]; rewrite (Z.div_small n base) by lia; reflexivity.
  - destruct f2 as [|f2]; [lia|]. cbn [digits].
    destruct (n / base =? 0); [reflexivity|].
    apply IH; [exact Hb| |lia].
    split; [apply Z.div_pos; lia|].
    apply Z.div_lt_upper_bound; [lia|].
    replace (Z.of_nat (S f1) + 1) with (Z.succ (Z.of_nat f1 + 1)) in Hn by lia.
    rewrite Z.pow_succ_r in Hn by lia. lia.
Qed.

(** ** The paths through the decoder *)

Section Anatomy.

Variable DISABLE_CRC16 : bool.
Variable behind_crc16Hex : list Z.
Variable buffer : memory.
Variable len : Z.
Hypothesis len_range : 0 < len <= 65535.

(** The checksum part leaves the name alone; it returns one of its two
    error codes or the index it has reached. *)
Lemma check_crc16_spec (pbi si : Z) (pkt : proto_pkt_t) (tr : list access) :
  0 <= pbi <= len + 1 ->
  let r := check_crc16 behind_crc16Hex buffer len pbi si pkt tr in
  cmd (out r) = cmd pkt /\
  (ret r = ERR_PROTO_CP_MISSING_CRC16 \/ ret r = ERR_PROTO_CP_CRC16_MISMATCH \/
   exists p', pbi <= p' <= len + 1 /\ ret r = to_int16 p').
Proof.
  intros Hp. unfold check_crc16.
  match goal with
  | |- context [read_crc16Hex 4 buffer len pbi 0 ?h ?t] =>
      destruct (read_crc16Hex_range buffer len len_range 4 pbi 0 h t)
        as (p' & hex' & tr' & E & Hr); [lia|]; rewrite E; clear E
  end.
  destruct (strtol16 (hex' ++ behind_crc16Hex)) as [v consumed].
  cbv zeta.
  destruct (_ && _); [cbn; auto|].
  destruct (negb _); [cbn; auto|].
  cbn. split; [reflexivity|]. right. right. exists p'. split; [lia|reflexivity].
Qed.

(** Every run on a buffer of positive length takes one of four paths,
    told apart by [s], the index of the first start marker in front of
    the last byte, and [n], the number of name bytes behind it. *)
Lemma parse_anatomy (pkt : proto_pkt_t) :
  exists (s : Z) (n : nat),
    let r := proto_parse_pkt_buffer DISABLE_CRC16 behind_crc16Hex buffer len pkt in
    0 <= s < len /\
    (forall j, 0 <= j < s -> buffer j <> PROTO_STX) /\
    (len <= s + 1 -> ret r = ERR_PROTO_CP_MISSING_STX) /\
    (s + 1 < len ->
       buffer s = PROTO_STX /\
       s + 1 + Z.of_nat n <= len /\ Z.of_nat n <= MAX_PROTO_CMD /\
       (forall j, s + 1 <= j < s + 1 + Z.of_nat n -> ~ delimiter (buffer j)) /\
       cmd (out r) =
         aset (store_bytes (cmd pkt) 0 (map buffer (zrange (s + 1) n))) (Z.of_nat n) 0 /\
       (len <= s + 1 + Z.of_nat n -> ret r = ERR_PROTO_CP_MISSING_EFC) /\
       (s + 1 + Z.of_nat n < len -> Z.of_nat n = MAX_PROTO_CMD ->
          ret r = ERR_PROTO_CP_CMD_OVERFLOW) /\
       (s + 1 + Z.of_nat n < len -> Z.of_nat n < MAX_PROTO_CMD ->
          delimiter (buffer (s + 1 + Z.of_nat n)) /\
          (ret r = ERR_PROTO_CP_MISSING_CRC16 \/ ret r = ERR_PROTO_CP_CRC16_MISMATCH \/
           exists p', 0 <= p' <= len + 1 /\ ret r = to_int16 p'))).
Proof.
  unfold proto_parse_pkt_buffer.
  destruct (Z.leb_spec len 0) as [?|_]; [lia|].
  destruct (scan_stx_spec buffer len len_range (Z.to_nat len) 0 [])
    as (p & tr0 & E & Hp & Hno & Hst); [lia|lia|].
  rewrite E; clear E.
  destruct (copy_cmd_spec buffer len len_range (Z.to_nat len) p 0 (set_crc16 pkt 0) tr0)
    as (n & tr1 & E & Hn1 & Hn2 & Hn3 & Hn4); [lia|lia|].
  exists (p - 1), n. cbv zeta.
  split; [lia|]. split; [exact Hno|].
  replace (p - 1 + 1) with p by lia.
  destruct (Z.geb_spec p len) as [Hge|Hlt].
  { split; [reflexivity|]. lia. }
  split; [lia|]. intros _.
  rewrite E; clear E. rewrite !Z.add_0_l in *.
  split; [auto|]. split; [lia|].
  assert (Hn10 : Z.of_nat n <= MAX_PROTO_CMD).
  { destruct n; [unfold MAX_PROTO_CMD; lia|apply Hn2; lia]. }
  split; [exact Hn10|]. split; [exact Hn3|].
  destruct (Z.geb_spec (p + Z.of_nat n) len) as [Hge2|Hlt2].
  { split; [reflexivity|]. split; [reflexivity|]. lia. }
  destruct (Z.geb_spec (Z.of_nat n) MAX_PROTO_CMD) as [Hge3|Hlt3].
  { split; [reflexivity|]. split; [lia|]. split; [reflexivity|]. lia. }
  set (pkt1 := set_cmd _ _ _).
  set (tr2 := Store_cmd _ :: _).
  assert (Hbody : exists p2 pkt2 tr3,
             (if buffer (p + Z.of_nat n) =? PROTO_ETX then (p + Z.of_nat n, pkt1, tr2)
              else if buffer (p + Z.of_nat n) =? PROTO_PSC
                   then parse_params (Z.to_nat len) buffer len (p + Z.of_nat n) pkt1 tr2
                   else (p + Z.of_nat n, pkt1, tr2)) = (p2, pkt2, tr3) /\
             p + Z.of_nat n <= p2 <= len /\ cmd pkt2 = cmd pkt1).
  { destruct (_ =? PROTO_ETX); [eexists _, _, _; split; [reflexivity|split; [lia|reflexivity]]|].
    destruct (_ =? PROTO_PSC); [|eexists _, _, _; split; [reflexivity|split; [lia|reflexivity]]].
    destruct (parse_params_spec buffer len len_range (Z.to_nat len) (p + Z.of_nat n) pkt1 tr2)
      as (p2 & pkt2 & tr3 & E & Hr & Hc); [lia|].
    exists p2, pkt2, tr3. split; [exact E|]. split; [lia|exact Hc]. }
  destruct Hbody as (p2 & pkt2 & tr3 & E & Hp2 & Hcmd). rewrite E; clear E.
  set (p3 := if buffer p2 =? PROTO_ETX then to_uint16 (p2 + 1) else p2).
  assert (Hp3 : 0 <= p3 <= len + 1).
  { unfold p3, to_uint16. destruct (_ =? _); [|lia].
    pose proof (Z.mod_pos_bound (p2 + 1) 65536). pose proof (Z.mod_le (p2 + 1) 65536). lia. }
  assert (Hfinal :
    cmd (out (if DISABLE_CRC16 then mk_result (to_int16 p3) pkt2 (Load_buffer p2 :: tr3)
              else check_crc16 behind_crc16Hex buffer len p3 (p - 1) pkt2 (Load_buffer p2 :: tr3)))
      = cmd pkt2 /\
    (let r := if DISABLE_CRC16 then mk_result (to_int16 p3) pkt2 (Load_buffer p2 :: tr3)
              else check_crc16 behind_crc16Hex buffer len p3 (p - 1) pkt2 (Load_buffer p2 :: tr3) in
     ret r = ERR_PROTO_CP_MISSING_CRC16 \/ ret r = ERR_PROTO_CP_CRC16_MISMATCH \/
     exists p', 0 <= p' <= len + 1 /\ ret r = to_int16 p')).
  { destruct DISABLE_CRC16.
    - cbn. split; [reflexivity|]. right. right. exists p3. split; [lia|reflexivity].
    - destruct (check_crc16_spec p3 (p - 1) pkt2 (Load_buffer p2 :: tr3)) as [Hc Hr]; [lia|].
      split; [exact Hc|]. cbv zeta.
      destruct Hr as [Hr|[Hr|(p' & Hp' & Hr)]]; [auto|auto|].
      right. right. exists p'. split; [lia|exact Hr]. }
  destruct Hfinal as [Hc Hr].
  split.
  { rewrite Hc, Hcmd. unfold pkt1. cbn. reflexivity. }
  split; [lia|]. split; [lia|]. intros _ _.
  split; [apply Hn4; lia|exact Hr].
Qed.

End Anatomy.

(** ** The decoder on concrete frames *)

Lemma wf_zero_pkt : wf_pkt zero_pkt.
Proof.
  unfold wf_pkt, zero_pkt. cbn.
  split; [reflexivity|]. split; [reflexivity|]. split; [|lia].
  repeat constructor.
Defined.

(** C2: with checksums disabled, "[CSB:FF]\r" decodes to the name "CSB"
    and the one parameter "FF", whether its nine characters or the ten
    bytes of the terminated string are handed over; "[CSE]\r" decodes to
    the name "CSE" and no parameter; the four bytes "[CPV" give the error
    of the missing frame terminator, ERR_PROTO_CP_MISSING_EFC. *)
Theorem decode_scenarios (behind : list Z) (pkt : proto_pkt_t) :
  let decode frame len := proto_parse_pkt_buffer true behind (mem_of frame) len zero_pkt in
  let csb := bytes "[CSB:FF]" ++ [PROTO_CR] in
  let cse := bytes "[CSE]" ++ [PROTO_CR] in
  (ret (decode csb 9) = 8 /\
   c_str (cmd (out (decode csb 9))) = bytes "CSB" /\
   param_count (out (decode csb 9)) = 1 /\
   param (out (decode csb 9)) 0 = bytes "FF") /\
  (ret (decode csb 10) = 8 /\
   c_str (cmd (out (decode csb 10))) = bytes "CSB" /\
   param_count (out (decode csb 10)) = 1 /\
   param (out (decode csb 10)) 0 = bytes "FF") /\
  (ret (decode cse 6) = 5 /\
   c_str (cmd (out (decode cse 6))) = bytes "CSE" /\
   param_count (out (decode cse 6)) = 0) /\
  ret (proto_parse_pkt_buffer true behind (mem_of (bytes "[CPV")) 4 pkt)
    = ERR_PROTO_CP_MISSING_EFC.
Proof.
  cbv zeta. split; [|split; [|split]].
  - vm_compute. repeat split.
  - vm_compute. repeat split.
  - vm_compute. repeat split.
  - vm_compute. reflexivity.
Qed.

(** C3: a start marker in the last byte of the buffer is reported as
    missing: "[" and "CPV[" both give ERR_PROTO_CP_MISSING_STX although
    each holds a start marker. *)
Theorem stx_in_last_byte_reported_missing
    (DISABLE_CRC16 : bool) (behind : list Z) (pkt : proto_pkt_t) :
  In PROTO_STX (bytes "[") /\
  ret (proto_parse_pkt_buffer DISABLE_CRC16 behind (mem_of (bytes "[")) 1 pkt)
    = ERR_PROTO_CP_MISSING_STX /\
  In PROTO_STX (bytes "CPV[") /\
  ret (proto_parse_pkt_buffer DISABLE_CRC16 behind (mem_of (bytes "CPV[")) 4 pkt)
    = ERR_PROTO_CP_MISSING_STX.
Proof.
  split; [vm_compute; tauto|]. split; [vm_compute; reflexivity|].
  split; [vm_compute; tauto|]. vm_compute; reflexivity.
Qed.

(** The start marker is reported missing exactly when none of the bytes
    in front of the last one is a start marker. *)
Lemma missing_stx_iff (DISABLE_CRC16 : bool) (behind : list Z) (buffer : memory) (len : Z)
    (pkt : proto_pkt_t) :
  0 < len <= INT16_MAX ->
  ret (proto_parse_pkt_buffer DISABLE_CRC16 behind buffer len pkt) = ERR_PROTO_CP_MISSING_STX
  <-> (forall j, 0 <= j < len - 1 -> buffer j <> PROTO_STX).
Proof.
  intros Hlen. unfold INT16_MAX in Hlen.
  destruct (parse_anatomy DISABLE_CRC16 behind buffer len ltac:(lia) pkt)
    as (s & n & Hs & Hno & Hstx & Hrest).
  cbv zeta in *. split.
  - intros Hret j Hj. destruct (Z.le_gt_cases len (s + 1)) as [Hle|Hgt].
    + apply Hno. lia.
    + exfalso. destruct (Hrest Hgt) as (_ & _ & _ & _ & _ & Hefc & Hovf & Hok).
      destruct (Z.le_gt_cases len (s + 1 + Z.of_nat n)) as [H1|H1].
      { rewrite (Hefc H1) in Hret. discriminate. }
      destruct (Z.eq_dec (Z.of_nat n) MAX_PROTO_CMD) as [H2|H2].
      { rewrite (Hovf H1 H2) in Hret. discriminate. }
      destruct (Hok H1) as [_ [Hr|[Hr|(p' & Hp' & Hr)]]];
        [unfold MAX_PROTO_CMD in *; lia| | |]; rewrite Hr in Hret; try discriminate.
      destruct (to_int16_index p') as [H3|H3]; [unfold INT16_MAX; lia| |];
        unfold ERR_PROTO_CP_MISSING_STX in Hret; lia.
  - intros Hall. apply Hstx. destruct (Z.le_gt_cases len (s + 1)) as [Hle|Hgt]; [exact Hle|].
    exfalso. destruct (Hrest Hgt) as (Hst & _). apply (Hall s); [lia|exact Hst].
Qed.

(** ** The decoded name *)

(** C4, counterexample: "[]" decodes with success, it returns 2, and
    the name it leaves behind is empty. *)
Lemma empty_name_decodes :
  let r := proto_parse_pkt_buffer true [] (mem_of (bytes "[]")) 2 zero_pkt in
  0 <= ret r /\ aget (cmd (out r)) 0 = 0.
Proof. vm_compute. split; [discriminate|reflexivity]. Qed.

(** C4, amended: after a successful decode of a buffer of positive length
    the name is non-empty exactly when the byte behind the first start
    marker is none of separator, end marker and NUL. *)
Theorem name_nonempty_iff (DISABLE_CRC16 : bool) (behind : list Z) (buffer : memory)
    (len : Z) (pkt : proto_pkt_t) :
  wf_pkt pkt ->
  0 < len <= 65535 ->
  let r := proto_parse_pkt_buffer DISABLE_CRC16 behind buffer len pkt in
  0 <= ret r ->
  exists s,
    0 <= s /\ s + 1 < len /\ buffer s = PROTO_STX /\
    (forall j, 0 <= j < s -> buffer j <> PROTO_STX) /\
    (aget (cmd (out r)) 0 <> 0 <->
     ~ delimiter (buffer (s + 1)) /\ buffer (s + 1) <> 0).
Proof.
  intros Hwf Hlen r Hret. subst r.
  destruct Hwf as (Hcmdlen & _).
  destruct (parse_anatomy DISABLE_CRC16 behind buffer len Hlen pkt)
    as (s & n & Hs & Hno & Hstx & Hrest).
  cbv zeta in *.
  destruct (Z.le_gt_cases len (s + 1)) as [Hle|Hgt].
  { rewrite (Hstx Hle) in Hret. unfold ERR_PROTO_CP_MISSING_STX in Hret. lia. }
  destruct (Hrest Hgt) as (Hst & Hn1 & Hn2 & Hrun & Hcmd & Hefc & Hovf & Hok).
  destruct (Z.le_gt_cases len (s + 1 + Z.of_nat n)) as [H1|H1].
  { rewrite (Hefc H1) in Hret. unfold ERR_PROTO_CP_MISSING_EFC in Hret. lia. }
  destruct (Z.eq_dec (Z.of_nat n) MAX_PROTO_CMD) as [H2|H2].
  { rewrite (Hovf H1 H2) in Hret. unfold ERR_PROTO_CP_CMD_OVERFLOW in Hret. lia. }
  destruct (Hok H1) as [Hdel _]; [lia|].
  exists s. split; [lia|]. split; [lia|]. split; [exact Hst|]. split; [exact Hno|].
  rewrite Hcmd. destruct n as [|m].
  - cbn [zrange map store_bytes Z.of_nat].
    rewrite aget_aset_eq by (rewrite Hcmdlen; cbn; lia).
    replace (s + 1 + Z.of_nat 0) with (s + 1) in Hdel by lia.
    split; [congruence|tauto].
  - cbn [zrange map store_bytes].
    rewrite aget_aset_ne by lia.
    rewrite aget_store_bytes_lt by lia.
    rewrite aget_aset_eq by (rewrite Hcmdlen; cbn; lia).
    assert (~ delimiter (buffer (s + 1))) by (apply Hrun; lia).
    tauto.
Qed.

Lemma name_nonempty_iff_witness :
  exists s,
    0 <= s /\ s + 1 < 5 /\ mem_of (bytes "[CSE]") s = PROTO_STX /\
    (forall j, 0 <= j < s -> mem_of (bytes "[CSE]") j <> PROTO_STX) /\
    (aget (cmd (out (proto_parse_pkt_buffer true [] (mem_of (bytes "[CSE]")) 5 zero_pkt))) 0 <> 0
     <-> ~ delimiter (mem_of (bytes "[CSE]") (s + 1)) /\ mem_of (bytes "[CSE]") (s + 1) <> 0).
Proof.
  apply (name_nonempty_iff true [] (mem_of (bytes "[CSE]")) 5 zero_pkt).
  - exact wf_zero_pkt.
  - lia.
  - vm_compute. discriminate.
Defined.

(** ** Command overflow *)

(** C5, counterexample: a frame whose name has ten bytes and is closed by
    the end marker is refused with the command overflow error. *)
Lemma ten_byte_name_overflows :
  length (bytes "ABCDEFGHIJ") = 10%nat /\
  ret (proto_parse_pkt_buffer true [] (mem_of (bytes "[ABCDEFGHIJ]")) 12 zero_pkt)
    = ERR_PROTO_CP_CMD_OVERFLOW.
Proof. split; vm_compute; reflexivity. Qed.

(** C5, amended: for a buffer of at most 32767 bytes the decoder returns
    the command overflow error exactly when the first start marker is
    followed by ten bytes that are neither separator nor end marker and by
    at least one byte more; so a frame whose name has at most nine bytes
    and is followed by a separator or an end marker never gets it. *)
Theorem cmd_overflow_iff (DISABLE_CRC16 : bool) (behind : list Z) (buffer : memory)
    (len : Z) (pkt : proto_pkt_t) :
  0 < len <= INT16_MAX ->
  let r := proto_parse_pkt_buffer DISABLE_CRC16 behind buffer len pkt in
  (ret r = ERR_PROTO_CP_CMD_OVERFLOW <->
   exists s,
     0 <= s /\ s + MAX_PROTO_CMD + 1 < len /\ buffer s = PROTO_STX /\
     (forall j, 0 <= j < s -> buffer j <> PROTO_STX) /\
     (forall j, s < j <= s + MAX_PROTO_CMD -> ~ delimiter (buffer j))) /\
  (forall s n,
     0 <= s -> buffer s = PROTO_STX -> (forall j, 0 <= j < s -> buffer j <> PROTO_STX) ->
     0 <= n < MAX_PROTO_CMD -> s + 1 + n < len ->
     (forall j, s < j <= s + n -> ~ delimiter (buffer j)) ->
     delimiter (buffer (s + 1 + n)) ->
     ret r <> ERR_PROTO_CP_CMD_OVERFLOW).
Proof.
  intros Hlen r.
  assert (Hiff : ret r = ERR_PROTO_CP_CMD_OVERFLOW <->
   exists s,
     0 <= s /\ s + MAX_PROTO_CMD + 1 < len /\ buffer s = PROTO_STX /\
     (forall j, 0 <= j < s -> buffer j <> PROTO_STX) /\
     (forall j, s < j <= s + MAX_PROTO_CMD -> ~ delimiter (buffer j))).
  { subst r. unfold INT16_MAX in Hlen.
    destruct (parse_anatomy DISABLE_CRC16 behind buffer len ltac:(lia) pkt)
      as (s & n & Hs & Hno & Hstx & Hrest).
    cbv zeta in *. unfold MAX_PROTO_CMD in *. split.
    - intros Hret.
      destruct (Z.le_gt_cases len (s + 1)) as [Hle|Hgt].
      { rewrite (Hstx Hle) in Hret. discriminate. }
      destruct (Hrest Hgt) as (Hst & Hn1 & Hn2 & Hrun & _ & Hefc & Hovf & Hok).
      destruct (Z.le_gt_cases len (s + 1 + Z.of_nat n)) as [H1|H1].
      { rewrite (Hefc H1) in Hret. discriminate. }
      destruct (Z.eq_dec (Z.of_nat n) 10) as [H2|H2].
      + exists s. split; [lia|]. split; [lia|]. split; [exact Hst|]. split; [exact Hno|].
        intros j Hj. apply Hrun. lia.
      + exfalso. destruct (Hok H1) as [_ [Hr|[Hr|(p' & Hp' & Hr)]]]; [lia| | |];
          rewrite Hr in Hret; try discriminate.
        destruct (to_int16_index p') as [H3|H3]; [unfold INT16_MAX; lia| |];
          unfold ERR_PROTO_CP_CMD_OVERFLOW in Hret; lia.
    - intros (s' & Hs' & Hend & Hst' & Hno' & Hrun').
      assert (s = s').
      { destruct (Z.lt_trichotomy s s') as [Hlt|[Heq|Hgt]]; [|exact Heq|].
        - exfalso. destruct Hrest as (Hst & _); [lia|]. apply (Hno' s); [lia|exact Hst].
        - exfalso. apply (Hno s'); [lia|exact Hst']. }
      subst s'.
      destruct Hrest as (Hst & Hn1 & Hn2 & Hrun & _ & Hefc & Hovf & Hok); [lia|].
      destruct (Z.eq_dec (Z.of_nat n) 10) as [H2|H2].
      + apply Hovf; lia.
      + exfalso. destruct Hok as [Hdel _]; [lia|lia|].
        apply (Hrun' (s + 1 + Z.of_nat n)); [lia|exact Hdel]. }
  split; [exact Hiff|].
  intros s n Hs Hst Hno Hn Hend Hrun Hdel Hret.
  apply Hiff in Hret. destruct Hret as (s' & Hs' & Hend' & Hst' & Hno' & Hrun').
  assert (s = s').
  { destruct (Z.lt_trichotomy s s') as [Hlt|[Heq|Hgt]]; [|exact Heq|].
    - exfalso. apply (Hno' s); [lia|exact Hst].
    - exfalso. apply (Hno s'); [lia|exact Hst']. }
  subst s'. apply (Hrun' (s + 1 + n)); [unfold MAX_PROTO_CMD in *; lia|exact Hdel].
Qed.

Lemma cmd_overflow_iff_witness :
  let buffer := mem_of (bytes "[CSB:FF]") in
  let r := proto_parse_pkt_buffer true [] buffer 8 zero_pkt in
  (ret r = ERR_PROTO_CP_CMD_OVERFLOW <->
   exists s,
     0 <= s /\ s + MAX_PROTO_CMD + 1 < 8 /\ buffer s = PROTO_STX /\
     (forall j, 0 <= j < s -> buffer j <> PROTO_STX) /\
     (forall j, s < j <= s + MAX_PROTO_CMD -> ~ delimiter (buffer j))) /\
  (forall s n,
     0 <= s -> buffer s = PROTO_STX -> (forall j, 0 <= j < s -> buffer j <> PROTO_STX) ->
     0 <= n < MAX_PROTO_CMD -> s + 1 + n < 8 ->
     (forall j, s < j <= s + n -> ~ delimiter (buffer j)) ->
     delimiter (buffer (s + 1 + n)) ->
     ret r <> ERR_PROTO_CP_CMD_OVERFLOW).
Proof.
  apply (cmd_overflow_iff true [] (mem_of (bytes "[CSB:FF]")) 8 zero_pkt).
  unfold INT16_MAX. lia.
Defined.

(** Why the bound on the length: the index returned on success is turned
    into an [int16_t].  In a buffer of 65431 bytes the frame "[ABC]" that
    ends at index 65430 is decoded with success and the value returned,
    65431, reads as -105. *)
Lemma long_buffer_success_reads_as_overflow :
  let buffer : memory := fun i =>
    if i =? 65426 then PROTO_STX
    else if i =? 65430 then PROTO_ETX
    else if (65426 <? i) && (i <? 65430) then 65 + (i - 65427)
    else 32 in
  let r := proto_parse_pkt_buffer true [] buffer 65431 zero_pkt in
  ret r = ERR_PROTO_CP_CMD_OVERFLOW /\ c_str (cmd (out r)) = bytes "ABC".
Proof. vm_compute. split; reflexivity. Qed.

(** ** Exhausted input and the bounds of the arrays *)

(** C8: "[CSB:FF" ends inside the parameter and has no end marker; the
    decoder returns 7, a success, and not ERR_PROTO_CP_MISSING_EFC.  When
    the byte behind the seven bytes handed over happens to be an end
    marker it is taken as well and 8 is returned. *)
Theorem exhausted_in_parameter_succeeds (behind : list Z) :
  let r := proto_parse_pkt_buffer true behind (mem_of (bytes "[CSB:FF")) 7 zero_pkt in
  let r' := proto_parse_pkt_buffer true behind (mem_of (bytes "[CSB:FF]")) 7 zero_pkt in
  ret r = 7 /\ ret r <> ERR_PROTO_CP_MISSING_EFC /\
  c_str (cmd (out r)) = bytes "CSB" /\ param_count (out r) = 1 /\
  param (out r) 0 = bytes "FF" /\
  ret r' = 8.
Proof. vm_compute. repeat split. discriminate. Qed.

(** C10: stores and loads that leave their arrays.  A name of ten bytes
    puts the terminator at [cmd[10]]; a parameter of fifty bytes puts it
    at [params[0][50]]; a frame decoded into the packet a frame with four
    parameters has left behind stores into [params[4]]; a buffer that ends
    inside a parameter is read at index [len]. *)
Theorem decoder_leaves_arrays (behind : list Z) :
  let decode frame pkt :=
    let len := Z.of_nat (length frame) in
    out_of_bounds len (trace (proto_parse_pkt_buffer true behind (mem_of frame) len pkt)) in
  decode (bytes "[ABCDEFGHIJ]") zero_pkt = [Store_cmd 10] /\
  decode (bytes "[A:" ++ replicate 50 66 ++ bytes "]") zero_pkt = [Store_param 0 50] /\
  param_count four_params_pkt = 4 /\
  decode (bytes "[A:B]") four_params_pkt = [Store_param 4 0; Store_param 4 1] /\
  decode (bytes "[A:B") zero_pkt = [Load_buffer 4].
Proof.
  cbv zeta. split; [|split; [|split; [|split]]]; vm_compute; reflexivity.
Qed.

(** ** Appending a parameter *)

(** C6: a value of exactly fifty bytes passes the length check and is
    stored without its last byte. *)
Theorem append_truncates_fifty_bytes :
  let value := replicate 50 65 in
  let r := proto_append_response_pkt_param zero_pkt value in
  strlen value = MAX_PROTO_PARAM_LEN /\
  fst r = 1 /\ param_count (snd r) = 1 /\
  param (snd r) 0 = replicate 49 65 /\ param (snd r) 0 <> value.
Proof. vm_compute. repeat split. discriminate. Qed.

(** ** Memory images and the checksum of a byte string *)

Lemma holds_app (m : memory) (x y : list Z) (p : Z) :
  holds m p (x ++ y) <-> holds m p x /\ holds m (p + Z.of_nat (length x)) y.
Proof.
  revert p. induction x as [|c x IH]; intros p; cbn [holds app length].
  - rewrite Z.add_0_r. tauto.
  - rewrite IH. replace (p + 1 + Z.of_nat (length x)) with (p + Z.of_nat (S (length x))) by lia.
    tauto.
Qed.

Lemma mem_of_app_r (pre l : list Z) (j : Z) :
  0 <= j -> mem_of (pre ++ l) (Z.of_nat (length pre) + j) = mem_of l j.
Proof.
  intros Hj. unfold mem_of.
  destruct (Z.ltb_spec (Z.of_nat (length pre) + j) 0); [lia|].
  destruct (Z.ltb_spec j 0); [lia|].
  rewrite lookup_app_r by lia.
  replace (Z.to_nat (Z.of_nat (length pre) + j) - length pre)%nat with (Z.to_nat j) by lia.
  reflexivity.
Qed.

Lemma holds_mem_of (l pre post : list Z) :
  holds (mem_of (pre ++ l ++ post)) (Z.of_nat (length pre)) l.
Proof.
  revert pre. induction l as [|c l IH]; intros pre; cbn [holds]; [exact I|].
  split.
  - replace (Z.of_nat (length pre)) with (Z.of_nat (length pre) + 0) by lia.
    rewrite mem_of_app_r by lia. reflexivity.
  - specialize (IH (pre ++ [c])).
    rewrite length_app, <- app_assoc in IH. cbn [length app] in IH.
    replace (Z.of_nat (length pre + 1)) with (Z.of_nat (length pre) + 1) in IH by lia.
    exact IH.
Qed.

(** An array starts with the string it holds. *)
Lemma c_str_prefix (a : list Z) : exists rest, a = c_str a ++ rest.
Proof.
  induction a as [|c a [rest IH]]; [exists []; reflexivity|].
  cbn [c_str]. destruct (c =? 0).
  - exists (c :: a). reflexivity.
  - exists rest. cbn [app]. rewrite <- IH. reflexivity.
Qed.

Lemma holds_c_str (a : list Z) : holds (mem_of a) 0 (c_str a).
Proof.
  destruct (c_str_prefix a) as [rest E].
  rewrite E at 1. apply (holds_mem_of (c_str a) [] rest).
Qed.

(** [crc16_buffer] folds [crc16] over the bytes between [start] and
    [len]. *)
Lemma crc16_buffer_fold (l : list Z) (m : memory) (crc start : Z) :
  holds m start l ->
  crc16_buffer crc m start (start + Z.of_nat (length l)) = fold_left crc16 l crc.
Proof.
  unfold crc16_buffer.
  replace (Z.to_nat (start + Z.of_nat (length l) - start)) with (length l) by lia.
  revert crc start. induction l as [|c l IH]; intros crc start H; cbn [length crc16_loop fold_left].
  - destruct (Z.ltb_spec start (start + Z.of_nat 0)); [lia|reflexivity].
  - destruct H as [Hc Hl].
    destruct (Z.ltb_spec start (start + Z.of_nat (S (length l)))); [|lia].
    rewrite Hc.
    replace (start + Z.of_nat (S (length l))) with (start + 1 + Z.of_nat (length l)) by lia.
    apply IH. exact Hl.
Qed.

Lemma crc16_buffer_c_str (a : list Z) (crc : Z) :
  crc16_buffer crc (mem_of a) 0 (strlen a) = fold_left crc16 (c_str a) crc.
Proof.
  unfold strlen.
  rewrite <- (Z.add_0_l (Z.of_nat (length (c_str a)))).
  apply crc16_buffer_fold, holds_c_str.
Qed.

(** ** The encoder *)

Lemma print_params_spec (pkt : proto_pkt_t) (m : nat) :
  forall (fuel : nat) (i : Z) (wr : list Z) (crc : Z),
    0 <= i ->
    i + Z.of_nat (S m) = param_count pkt ->
    (m <= fuel)%nat ->
    let ps := concat (map (cons PROTO_PSC) (map (param pkt) (zrange i (S m)))) in
    print_params fuel pkt i wr crc = (wr ++ ps, fold_left crc16 ps crc).
Proof.
  induction m as [|m IH]; intros fuel i wr crc Hi Hcount Hfuel ps; subst ps.
  - destruct fuel; cbn [print_params zrange map concat];
      (destruct (Z.ltb_spec (i + 1) (param_count pkt)); [lia|]);
      rewrite app_nil_r, crc16_buffer_c_str; fold (param pkt i); cbn [app fold_left];
      rewrite <- app_assoc; reflexivity.
  - destruct fuel as [|fuel]; [lia|].
    cbn [print_params].
    destruct (Z.ltb_spec (i + 1) (param_count pkt)); [|lia].
    rewrite IH by lia.
    rewrite crc16_buffer_c_str. fold (param pkt i).
    cbn [zrange map concat].
    repeat first [rewrite fold_left_app | progress cbn [app fold_left]].
    rewrite <- !app_assoc. cbn [app]. reflexivity.
Qed.

(** The bytes the encoder writes and the checksum it leaves in the
    packet. *)
Lemma proto_print_response_pkt_spec (pkt : proto_pkt_t) :
  fst (proto_print_response_pkt pkt)
    = serialize_spec true (c_str (cmd pkt)) (encoded_params pkt) /\
  pkt_crc16 (snd (proto_print_response_pkt pkt))
    = fold_left crc16 (frame_body (c_str (cmd pkt)) (encoded_params pkt)) 0.
Proof.
  unfold proto_print_response_pkt, serialize_spec, frame_body, encoded_params.
  rewrite crc16_buffer_c_str.
  destruct (Z.gtb_spec (param_count pkt) 0) as [Hpos|Hle].
  - destruct (Z.to_nat (param_count pkt)) as [|m] eqn:Em; [lia|].
    rewrite (print_params_spec pkt m) by lia.
    cbv zeta. cbn [fst snd set_crc16 pkt_crc16].
    rewrite !fold_left_app. cbn [fold_left app].
    rewrite <- !app_assoc. cbn [app]. split; reflexivity.
  - replace (Z.to_nat (param_count pkt)) with 0%nat by lia.
    cbn [zrange map concat fst snd set_crc16 pkt_crc16].
    rewrite !fold_left_app. cbn [fold_left app].
    rewrite <- !app_assoc. cbn [app]. split; reflexivity.
Qed.

(** C7, counterexample: the response to "[CSB:FF]" carries the checksum
    "3447" between the end marker and the carriage return, whatever the
    build; it is not the frame without a checksum field. *)
Lemma encoder_always_emits_checksum :
  let pkt := out (proto_parse_pkt_buffer true [] (mem_of (bytes "[CSB:FF]")) 8 zero_pkt) in
  fst (proto_print_response_pkt pkt) = bytes "[CSB:FF]" ++ bytes "3447" ++ [PROTO_CR] /\
  fst (proto_print_response_pkt pkt)
    <> serialize_spec false (c_str (cmd pkt)) (encoded_params pkt).
Proof. vm_compute. split; [reflexivity|discriminate]. Qed.

(** C7, amended: for every packet whose name and counted parameters end
    inside their arrays and whose parameter count is at most four, the
    encoder writes the start marker, the name, a separator and its bytes
    for each parameter, the end marker, then always the CRC-16 of these
    bytes in upper case hexadecimal without padding, then the carriage
    return.  The encoder does not consult [DISABLE_CRC16].  Without the
    terminators [strlen] runs on behind the array, and a count above four
    sends the loop behind [params]: for such packets nothing is said. *)
Theorem encoder_frame (pkt : proto_pkt_t) :
  wf_pkt pkt ->
  param_count pkt <= MAX_PROTO_PARAM_COUNT ->
  terminated (cmd pkt) ->
  (forall k, 0 <= k < param_count pkt ->
     terminated (default [] (params pkt !! Z.to_nat k))) ->
  fst (proto_print_response_pkt pkt)
    = serialize_spec true (c_str (cmd pkt)) (encoded_params pkt) /\
  pkt_crc16 (snd (proto_print_response_pkt pkt))
    = fold_left crc16 (frame_body (c_str (cmd pkt)) (encoded_params pkt)) 0.
Proof.
  intros Hwf Hcount Hname Hparams.
  exact (proto_print_response_pkt_spec pkt).
Qed.

Lemma encoder_frame_witness :
  let pkt := response_with (bytes "CSB") (bytes "FF") in
  fst (proto_print_response_pkt pkt)
    = serialize_spec true (c_str (cmd pkt)) (encoded_params pkt) /\
  pkt_crc16 (snd (proto_print_response_pkt pkt))
    = fold_left crc16 (frame_body (c_str (cmd pkt)) (encoded_params pkt)) 0.
Proof.
  apply (encoder_frame (response_with (bytes "CSB") (bytes "FF"))).
  - split; [reflexivity|]. split; [reflexivity|]. split; [repeat constructor|].
    vm_compute. split; [discriminate|reflexivity].
  - vm_compute. discriminate.
  - vm_compute. reflexivity.
  - intros k Hk.
    assert (E : param_count (response_with (bytes "CSB") (bytes "FF")) = 1)
      by (vm_compute; reflexivity).
    rewrite E in Hk. assert (k = 0) as -> by lia.
    vm_compute. reflexivity.
Defined.

(** ** The accumulator *)





(** ** Strings in arrays *)

Lemma c_str_nonzero (a : list Z) : Forall (fun c => c <> 0) (c_str a).
Proof.
  induction a as [|c a IH]; cbn [c_str]; [constructor|].
  destruct (Z.eqb_spec c 0); constructor; assumption.
Qed.

Lemma c_str_app_nul (v rest : list Z) :
  Forall (fun c => c <> 0) v -> c_str (v ++ 0 :: rest) = v.
Proof.
  induction 1 as [|c v Hc _ IH]; cbn [c_str app]; [reflexivity|].
  destruct (Z.eqb_spec c 0); [contradiction|]. rewrite IH. reflexivity.
Qed.

Lemma aset_cons_succ (b : Z) (a : list Z) (i v : Z) :
  0 <= i -> aset (b :: a) (i + 1) v = b :: aset a i v.
Proof.
  intros Hi. unfold aset. replace (Z.to_nat (i + 1)) with (S (Z.to_nat i)) by lia. reflexivity.
Qed.

Lemma store_bytes_cons_succ (l : list Z) (b : Z) (a : list Z) (i : Z) :
  0 <= i -> store_bytes (b :: a) (i + 1) l = b :: store_bytes a i l.
Proof.
  revert a i b. induction l as [|c l IH]; intros a i b Hi; cbn [store_bytes]; [reflexivity|].
  rewrite aset_cons_succ by lia. apply IH. lia.
Qed.

(** Writing a string and its terminator at the start of an array. *)
Lemma store_bytes_string (v a : list Z) :
  (length v < length a)%nat ->
  store_bytes a 0 (v ++ [0]) = v ++ 0 :: drop (S (length v)) a.
Proof.
  revert a. induction v as [|c v IH]; intros a Hlen.
  - destruct a as [|x a]; [cbn in Hlen; lia|]. reflexivity.
  - destruct a as [|x a]; [cbn in Hlen; lia|].
    cbn [app store_bytes length].
    change (aset (x :: a) 0 c) with (c :: a).
    rewrite (store_bytes_cons_succ (v ++ [0]) c a 0) by lia.
    rewrite IH by (cbn in Hlen; lia). reflexivity.
Qed.

Lemma c_str_store (v a : list Z) :
  (length v < length a)%nat -> Forall (fun c => c <> 0) v ->
  c_str (store_bytes a 0 (v ++ [0])) = v.
Proof.
  intros Hlen Hnz. rewrite store_bytes_string by exact Hlen. apply c_str_app_nul, Hnz.
Qed.

Lemma holds_nth (m : memory) (l : list Z) :
  forall (p : Z) (k : nat), holds m p l -> (k < length l)%nat -> m (p + Z.of_nat k) = nth k l 0.
Proof.
  induction l as [|c l IH]; intros p k H Hk; [cbn in Hk; lia|].
  destruct H as [Hc Hl]. destruct k as [|k].
  - rewrite Z.add_0_r. exact Hc.
  - cbn [nth]. rewrite <- (IH (p + 1) k Hl) by (cbn in Hk; lia). f_equal. lia.
Qed.

Lemma holds_map_zrange (m : memory) (l : list Z) (p : Z) :
  holds m p l -> map m (zrange p (length l)) = l.
Proof.
  revert p. induction l as [|c l IH]; intros p H; [reflexivity|].
  destruct H as [Hc Hl]. cbn [length zrange map]. rewrite Hc, IH by exact Hl. reflexivity.
Qed.

(** A copy loop that has stopped in front of a delimiter has copied all
    the bytes up to it. *)
Lemma run_length (m : memory) (len p cap : Z) (l : list Z) (n : nat) :
  holds m p l -> plain l -> delimiter (m (p + Z.of_nat (length l))) ->
  p + Z.of_nat (length l) < len -> Z.of_nat (length l) < cap ->
  (forall j, p <= j < p + Z.of_nat n -> ~ delimiter (m j)) ->
  (p + Z.of_nat n < len -> Z.of_nat n < cap -> delimiter (m (p + Z.of_nat n))) ->
  n = length l.
Proof.
  intros Hl Hplain Hd Hlen Hcap Hrun Hstop.
  destruct (Nat.lt_trichotomy n (length l)) as [Hlt|[Heq|Hgt]]; [|exact Heq|]; exfalso.
  - assert (Hdel : delimiter (m (p + Z.of_nat n))) by (apply Hstop; lia).
    rewrite (holds_nth m l p n Hl Hlt) in Hdel.
    unfold plain in Hplain. rewrite Forall_forall in Hplain.
    apply (Hplain (nth n l 0)); [|exact Hdel].
    apply list_elem_of_In, nth_In. exact Hlt.
  - apply (Hrun (p + Z.of_nat (length l))); [lia|exact Hd].
Qed.

(** ** Parameters written one behind the other *)

Lemma fill_params_fields (vs : list (list Z)) (pkt : proto_pkt_t) :
  cmd (fill_params pkt vs) = cmd pkt /\
  pkt_crc16 (fill_params pkt vs) = pkt_crc16 pkt /\
  param_count (fill_params pkt vs) = param_count pkt + Z.of_nat (length vs).
Proof.
  revert pkt. induction vs as [|v vs IH]; intros pkt; cbn [fill_params fold_left length].
  - repeat split; lia.
  - destruct (IH (put_param pkt v)) as (H1 & H2 & H3). unfold fill_params in *.
    rewrite H1, H2, H3. cbn [put_param cmd pkt_crc16 param_count]. repeat split; lia.
Qed.

Lemma wf_put_param (pkt : proto_pkt_t) (v : list Z) :
  wf_pkt pkt -> param_count pkt + 1 < 256 -> wf_pkt (put_param pkt v).
Proof.
  intros (H1 & H2 & H3 & H4) Hc. unfold wf_pkt, put_param. cbn [cmd params param_count].
  split; [exact H1|]. split; [rewrite length_alter; exact H2|]. split; [|lia].
  rewrite Forall_forall in *. intros row Hin.
  apply list_elem_of_lookup in Hin as [i Hi].
  destruct (decide (i = Z.to_nat (param_count pkt))) as [->|Hne].
  - rewrite list_lookup_alter_eq in Hi.
    destruct (params pkt !! Z.to_nat (param_count pkt)) as [row0|] eqn:E; [|discriminate].
    cbn in Hi. injection Hi as <-. rewrite length_store_bytes.
    apply H3. apply list_elem_of_lookup. eauto.
  - rewrite list_lookup_alter_ne in Hi by congruence.
    apply H3. apply list_elem_of_lookup. eauto.
Qed.

Lemma param_put_param (pkt : proto_pkt_t) (v : list Z) (k : Z) :
  wf_pkt pkt -> 0 <= param_count pkt < MAX_PROTO_PARAM_COUNT -> fits v -> 0 <= k ->
  param (put_param pkt v) k = if k =? param_count pkt then v else param pkt k.
Proof.
  intros (H1 & H2 & H3 & H4) Hc (Hv1 & Hv2 & Hv3) Hk.
  unfold param, put_param. cbn [params].
  destruct (Z.eqb_spec k (param_count pkt)) as [->|Hne].
  - rewrite list_lookup_alter_eq.
    destruct (params pkt !! Z.to_nat (param_count pkt)) as [row|] eqn:E.
    + cbn. apply c_str_store; [|exact Hv2].
      rewrite Forall_forall in H3. rewrite (H3 row) by (apply list_elem_of_lookup; eauto).
      unfold MAX_PROTO_PARAM_LEN in *. lia.
    + apply lookup_ge_None in E. unfold MAX_PROTO_PARAM_COUNT in *. lia.
  - rewrite list_lookup_alter_ne by lia. reflexivity.
Qed.

Lemma param_fill_params (vs : list (list Z)) :
  forall (pkt : proto_pkt_t) (k : Z),
    wf_pkt pkt -> 0 <= param_count pkt ->
    param_count pkt + Z.of_nat (length vs) <= MAX_PROTO_PARAM_COUNT ->
    Forall fits vs -> 0 <= k ->
    param (fill_params pkt vs) k =
      if k <? param_count pkt then param pkt k
      else if k <? param_count pkt + Z.of_nat (length vs)
           then nth (Z.to_nat (k - param_count pkt)) vs []
           else param pkt k.
Proof.
  induction vs as [|v vs IH]; intros pkt k Hwf Hc Hn Hfit Hk.
  - cbn [fill_params fold_left length].
    destruct (Z.ltb_spec k (param_count pkt)); [reflexivity|].
    destruct (Z.ltb_spec k (param_count pkt + Z.of_nat 0)); [lia|reflexivity].
  - inversion Hfit as [|? ? Hv Hvs]; subst.
    cbn [length] in Hn. unfold MAX_PROTO_PARAM_COUNT in *.
    change (fill_params pkt (v :: vs)) with (fill_params (put_param pkt v) vs).
    rewrite IH; [|apply wf_put_param; [exact Hwf|lia]|cbn; lia|cbn; lia|exact Hvs|exact Hk].
    cbn [put_param param_count].
    rewrite !param_put_param by (try exact Hwf; try exact Hv; unfold MAX_PROTO_PARAM_COUNT; lia).
    cbn [length].
    repeat match goal with
           | |- context [Z.ltb ?a ?b] => destruct (Z.ltb_spec a b)
           | |- context [Z.eqb ?a ?b] => destruct (Z.eqb_spec a b)
           end; try lia; try reflexivity.
    + subst k. replace (Z.to_nat (param_count pkt - param_count pkt)) with 0%nat by lia.
      reflexivity.
    + replace (Z.to_nat (k - param_count pkt)) with (S (Z.to_nat (k - (param_count pkt + 1))))
        by lia.
      reflexivity.
Qed.

(** ** The checksum field read back *)

Lemma strtol_digits_app (s r : list Z) :
  (forallb is_hex s = true -> no_hex_ahead r) ->
  forall acc n, strtol_digits (s ++ r) acc n = strtol_digits s acc n.
Proof.
  induction s as [|c s IH]; intros H acc n; cbn [app strtol_digits].
  - destruct r as [|c r]; [reflexivity|]. cbn [strtol_digits].
    specialize (H eq_refl). cbn in H. unfold is_hex in H.
    destruct (hex_digit c); [discriminate|reflexivity].
  - destruct (hex_digit c) eqn:E; [|reflexivity].
    apply IH. intros Hs. apply H. cbn [forallb]. unfold is_hex at 1. rewrite E. exact Hs.
Qed.

Lemma is_hex_plain (d : Z) :
  is_hex d = true -> isspace d = false /\ (d =? 45) = false /\ (d =? 43) = false.
Proof.
  unfold is_hex, hex_digit, isspace.
  repeat match goal with
         | |- context [Z.leb ?a ?b] => destruct (Z.leb_spec a b)
         | |- context [Z.eqb ?a ?b] => destruct (Z.eqb_spec a b)
         end; cbn; intros; repeat split; try discriminate; try lia.
Qed.

(** [strtol] on four bytes that start with a digit does not look at what
    follows them, unless all four are digits and a fifth one follows. *)
Lemma strtol16_app (d x h t : Z) (r : list Z) :
  is_hex d = true -> x <> 120 -> x <> 88 ->
  (forallb is_hex [d; x; h; t] = true -> no_hex_ahead r) ->
  strtol16 ([d; x; h; t] ++ r) = strtol16 [d; x; h; t].
Proof.
  intros Hd Hx1 Hx2 Hr. unfold strtol16. cbn [app skip_space].
  destruct (is_hex_plain d Hd) as (-> & -> & ->).
  destruct (Z.eqb_spec x 120); [contradiction|].
  destruct (Z.eqb_spec x 88); [contradiction|].
  rewrite andb_false_r. cbn [orb andb].
  rewrite (strtol_digits_app [d; x; h; t] r Hr). reflexivity.
Qed.

Lemma hex_field_ok_all : forallb hex_field_ok (zrange 0 (Z.to_nat 65536)) = true.
Proof. vm_compute. reflexivity. Qed.

Lemma in_zrange (n : nat) (p c : Z) : p <= c < p + Z.of_nat n -> In c (zrange p n).
Proof.
  revert p. induction n as [|n IH]; intros p H; [lia|].
  cbn [zrange In]. destruct (Z.eq_dec p c) as [->|Hne]; [left; reflexivity|].
  right. apply IH. lia.
Qed.

(** Whatever lies behind [crc16Hex], [strtol] reads the checksum back,
    provided a checksum of four digits is not followed by a fifth. *)
Lemma strtol16_crc16Hex (c : Z) (behind : list Z) :
  0 <= c < 65536 ->
  (c < 4096 \/ no_hex_ahead behind) ->
  Z.of_nat (length (print_HEX c)) <= 4 /\
  exists consumed,
    strtol16 (crc16Hex_of c ++ behind) = (c, consumed) /\ 0 < consumed.
Proof.
  intros Hc Hb.
  pose proof hex_field_ok_all as Hall. rewrite forallb_forall in Hall.
  specialize (Hall c (in_zrange (Z.to_nat 65536) 0 c ltac:(lia))).
  unfold hex_field_ok in Hall.
  destruct (crc16Hex_of c) as [|d [|x [|h [|t [|? ?]]]]]; try discriminate.
  repeat (apply andb_prop in Hall as [Hall ?]).
  rewrite strtol16_app; try lia.
  - split; [lia|].
    destruct (strtol16 [d; x; h; t]) as [v consumed]. cbn [fst snd] in *.
    exists consumed. split; [f_equal; lia|lia].
  - exact Hall.
  - intros Hhex. destruct Hb as [Hlt|Hb]; [|exact Hb].
    match goal with
    | H : implb _ _ = true |- _ => rewrite Hhex in H; cbn in H
    end. lia.
Qed.
(** ** The decoder on an encoded frame *)

Section Frame.

Variable buffer : memory.
Variable len : Z.
Hypothesis len_range : 0 < len <= 65535.

Lemma length_params_bytes (vs : list (list Z)) :
  Forall fits vs ->
  Z.of_nat (length (concat (map (cons PROTO_PSC) vs))) <= MAX_PROTO_PARAM_LEN * Z.of_nat (length vs).
Proof.
  unfold MAX_PROTO_PARAM_LEN. induction 1 as [|v vs (Hv & _) _ IH]; cbn [map concat length].
  - lia.
  - rewrite length_app. cbn [length]. unfold MAX_PROTO_PARAM_LEN in Hv. lia.
Qed.

Lemma param_count_set_param (pkt : proto_pkt_t) (slot i v : Z) :
  param_count (set_param pkt slot i v) = param_count pkt.
Proof. reflexivity. Qed.

(** The parameter loop on the parameters of a frame: they fill the slots
    from [param_count] on and the loop stops at the end marker. *)
Lemma parse_params_run (vs : list (list Z)) :
  forall (v : list Z) (fuel : nat) (pbi : Z) (pkt : proto_pkt_t) (tr : list access),
    holds buffer pbi (PROTO_PSC :: v ++ concat (map (cons PROTO_PSC) vs) ++ [PROTO_ETX]) ->
    0 <= pbi ->
    pbi + 1 + Z.of_nat (length v) + Z.of_nat (length (concat (map (cons PROTO_PSC) vs))) < len ->
    Forall fits (v :: vs) ->
    wf_pkt pkt -> 0 <= param_count pkt ->
    param_count pkt + 1 + Z.of_nat (length vs) <= MAX_PROTO_PARAM_COUNT ->
    (length vs <= fuel)%nat ->
    exists tr',
      parse_params fuel buffer len pbi pkt tr =
        (pbi + 1 + Z.of_nat (length v) + Z.of_nat (length (concat (map (cons PROTO_PSC) vs))),
         fill_params pkt (v :: vs), tr').
Proof.
  induction vs as [|v2 vs IH]; intros v fuel pbi pkt tr Hh Hp Hend Hfit Hwf Hc Hn Hfuel.
  all: inversion Hfit as [|? ? Hv Hvs]; subst.
  all: destruct Hv as (Hv1 & Hv2 & Hv3).
  all: destruct Hh as [_ Hh]; apply holds_app in Hh as [Hhv Hrest].
  all: cbn [map concat length app] in *.
  all: assert (Hstep : exists tr1,
         copy_param (Z.to_nat len) buffer len (pbi + 1) 0 pkt tr =
           (pbi + 1 + Z.of_nat (length v), Z.of_nat (length v),
            mk_pkt (cmd pkt)
                   (alter (fun row => store_bytes row 0 v) (Z.to_nat (param_count pkt))
                          (params pkt))
                   (param_count pkt) (pkt_crc16 pkt), tr1)).
  1,3: destruct (copy_param_spec buffer len len_range (Z.to_nat len) (pbi + 1) 0 pkt tr)
         as (n & tr1 & E & H1 & H2 & H3 & H4); [lia|lia|];
       assert (n = length v) as ->
         by (apply (run_length buffer len (pbi + 1) MAX_PROTO_PARAM_LEN v n);
             [exact Hhv|exact Hv3|destruct Hrest as [-> _]; unfold delimiter; tauto
             |lia|exact Hv1|exact H3|exact H4]);
       exists tr1; rewrite E, (holds_map_zrange buffer v (pbi + 1) Hhv); reflexivity.
  all: destruct Hstep as [tr1 E].
  all: assert (Hput :
         set_param_count
           (set_param
              (mk_pkt (cmd pkt)
                      (alter (fun row => store_bytes row 0 v) (Z.to_nat (param_count pkt))
                             (params pkt))
                      (param_count pkt) (pkt_crc16 pkt))
              (param_count pkt) (Z.of_nat (length v)) 0)
           (to_uint8 (param_count pkt + 1)) = put_param pkt v).
  1,3: unfold set_param_count, set_param, put_param;
       cbn [cmd params param_count pkt_crc16];
       unfold to_uint8; rewrite Z.mod_small by (unfold MAX_PROTO_PARAM_COUNT in *; lia);
       f_equal; rewrite list_alter_alter_eq; apply list_alter_ext; [|reflexivity];
       intros row _; cbn; rewrite store_bytes_app; reflexivity.
  - (* the last parameter *)
    destruct Hrest as [Hetx _].
    assert (Hdone : forall f,
              parse_params f buffer len pbi pkt tr =
              (pbi + 1 + Z.of_nat (length v), put_param pkt v,
               Load_buffer (pbi + 1 + Z.of_nat (length v))
               :: Store_param (param_count pkt) (Z.of_nat (length v)) :: tr1)).
    { intros f. destruct f; cbn [parse_params].
      all: rewrite to_uint16_small by lia.
      all: rewrite E.
      all: cbv zeta.
      all: rewrite !param_count_set_param.
      all: cbn [param_count] in *.
      all: rewrite Hput.
      all: destruct (Z.ltb_spec (pbi + 1 + Z.of_nat (length v)) len); [|lia].
      all: rewrite Hetx, Z.eqb_refl; reflexivity. }
    rewrite Hdone, Z.add_0_r. eexists. reflexivity.
  - (* a further parameter follows *)
    destruct fuel as [|fuel]; [cbn in Hfuel; lia|].
    rewrite <- app_assoc in Hrest.
    cbn [parse_params]. rewrite to_uint16_small by lia. rewrite E. cbv zeta.
    rewrite !param_count_set_param.
    cbn [param_count] in *. rewrite Hput.
    rewrite length_app in *. cbn [length] in *.
    destruct (Z.ltb_spec (pbi + 1 + Z.of_nat (length v)) len); [|lia].
    pose proof Hrest as [Hpsc _]. rewrite Hpsc.
    change (PROTO_PSC =? PROTO_ETX) with false. cbn [negb andb].
    cbn [put_param param_count].
    destruct (Z.ltb_spec (param_count pkt + 1) MAX_PROTO_PARAM_COUNT); [|lia].
    match goal with
    | |- context [parse_params fuel buffer len ?q ?k ?t] =>
        destruct (IH v2 fuel q k t) as [tr' E']
    end.
    + exact Hrest.
    + lia.
    + lia.
    + exact Hvs.
    + apply wf_put_param; [exact Hwf|unfold MAX_PROTO_PARAM_COUNT in *; lia].
    + cbn. lia.
    + cbn. lia.
    + lia.
    + exists tr'. rewrite E'. f_equal. f_equal. lia.
Qed.

(** The loop that fetches the checksum text reads [l] when [l] fills the
    four bytes or ends the buffer. *)
Lemma read_crc16Hex_run (l : list Z) :
  forall (fuel : nat) (pbi i : Z) (hex : list Z) (tr : list access),
    holds buffer pbi l -> 0 <= pbi -> pbi + Z.of_nat (length l) <= len ->
    0 <= i -> i + Z.of_nat (length l) <= 4 ->
    (length l <= fuel)%nat ->
    i + Z.of_nat (length l) = 4 \/ pbi + Z.of_nat (length l) = len ->
    exists tr',
      read_crc16Hex fuel buffer len pbi i hex tr
        = (pbi + Z.of_nat (length l), store_bytes hex i l, tr').
Proof.
  induction l as [|c l IH]; intros fuel pbi i hex tr Hh Hp Hlen Hi Hi4 Hfuel Hstop.
  - cbn [length] in *. exists tr. rewrite Z.add_0_r.
    assert ((i <? 4) && (pbi <? len) = false) as E.
    { destruct (Z.ltb_spec i 4); destruct (Z.ltb_spec pbi len); try reflexivity. lia. }
    destruct fuel; cbn [read_crc16Hex store_bytes]; rewrite E; reflexivity.
  - cbn [length] in *. destruct Hh as [Hc Hl].
    destruct fuel as [|fuel]; [lia|].
    cbn [read_crc16Hex store_bytes].
    destruct (Z.ltb_spec i 4); [|lia]. destruct (Z.ltb_spec pbi len); [|lia].
    cbn [andb]. rewrite to_uint16_small by lia. rewrite Hc.
    destruct (IH fuel (pbi + 1) (i + 1) (aset hex i c) (Load_buffer pbi :: tr)) as [tr' E];
      try lia; [exact Hl|].
    exists tr'. rewrite E. f_equal. f_equal. lia.
Qed.

Lemma scan_stx_at_start (fuel : nat) (tr : list access) :
  buffer 0 = PROTO_STX ->
  scan_stx fuel buffer len 0 0 tr = (1, 0, Load_buffer 0 :: tr).
Proof.
  intros H. destruct fuel; cbn [scan_stx]; rewrite H, Z.eqb_refl; reflexivity.
Qed.

End Frame.

Lemma crc16_range (crc data : Z) : 0 <= crc16 crc data < 65536.
Proof. unfold crc16, to_uint16. apply Z.mod_pos_bound. lia. Qed.

Lemma fold_crc16_range (l : list Z) (crc : Z) :
  0 <= crc < 65536 -> 0 <= fold_left crc16 l crc < 65536.
Proof.
  revert crc. induction l as [|c l IH]; intros crc H; cbn [fold_left]; [exact H|].
  apply IH, crc16_range.
Qed.

(** A frame with the checksum, decoded by the build that checks it into
    a packet without parameters: the name and the parameters of the frame
    are found in the packet. *)
Lemma decode_frame (behind name : list Z) (ps : list (list Z)) (q : proto_pkt_t) :
  wf_pkt q -> param_count q = 0 ->
  Z.of_nat (length name) < MAX_PROTO_CMD -> Forall (fun c => c <> 0) name -> plain name ->
  Z.of_nat (length ps) <= MAX_PROTO_PARAM_COUNT -> Forall fits ps ->
  (fold_left crc16 (frame_body name ps) 0 < 4096 \/ no_hex_ahead behind) ->
  let frame := serialize_spec true name ps in
  let r := proto_parse_pkt_buffer false behind (mem_of frame) (Z.of_nat (length frame)) q in
  0 <= ret r /\
  pkt_crc16 (out r) = fold_left crc16 (frame_body name ps) 0 /\
  c_str (cmd (out r)) = name /\
  param_count (out r) = Z.of_nat (length ps) /\
  (forall k, 0 <= k < Z.of_nat (length ps) -> param (out r) k = nth (Z.to_nat k) ps []).
Proof.
  intros Hwf Hq0 Hname Hnz Hplain Hcount Hfits Hb frame.
  set (crc := fold_left crc16 (frame_body name ps) 0) in *.
  assert (Hcrc : 0 <= crc < 65536) by (apply fold_crc16_range; lia).
  destruct (strtol16_crc16Hex crc behind Hcrc Hb) as (Hhexlen & consumed & Hstr & Hcons).
  set (hex := print_HEX crc) in *.
  set (tail := concat (map (cons PROTO_PSC) ps)).
  assert (Hframe : frame = PROTO_STX :: name ++ tail ++ PROTO_ETX :: hex ++ [PROTO_CR]).
  { unfold frame, serialize_spec, frame_body. fold crc hex tail.
    cbn [app]. rewrite <- !app_assoc. reflexivity. }
  set (buffer := mem_of frame).
  set (len := Z.of_nat (length frame)).
  intros r.
  pose proof (length_params_bytes ps Hfits) as Htail. fold tail in Htail.
  assert (Hlen : len = 1 + Z.of_nat (length name) + Z.of_nat (length tail) + 1
                       + Z.of_nat (length hex) + 1).
  { unfold len. rewrite Hframe. cbn [length]. rewrite !length_app. cbn [length].
    rewrite !length_app. cbn [length]. lia. }
  unfold MAX_PROTO_CMD, MAX_PROTO_PARAM_COUNT, MAX_PROTO_PARAM_LEN in *.
  assert (Hrange : 0 < len <= 65535) by lia.
  assert (Hholds : holds buffer 0 frame).
  { pose proof (holds_mem_of frame [] []) as H. rewrite app_nil_r in H. exact H. }
  rewrite Hframe in Hholds. destruct Hholds as [Hstx Hholds].
  apply holds_app in Hholds as [Hhname Hholds].
  apply holds_app in Hholds as [Hhtail Hholds].
  destruct Hholds as [Hetx Hhhex]. cbn [Z.add] in Hhname.
  replace (0 + 1) with 1 in * by lia.
  set (pE := 1 + Z.of_nat (length name) + Z.of_nat (length tail)) in *.
  (* the start marker *)
  subst r. unfold proto_parse_pkt_buffer.
  destruct (Z.leb_spec len 0); [lia|].
  rewrite (scan_stx_at_start buffer len (Z.to_nat len) [] Hstx).
  destruct (Z.geb_spec 1 len); [lia|].
  (* the name *)
  assert (Hdelim : delimiter (buffer (1 + Z.of_nat (length name)))).
  { unfold tail in Hhtail. destruct ps as [|v vs].
    - cbn [map concat length] in *. unfold pE in Hetx. rewrite Z.add_0_r in Hetx.
      right. exact Hetx.
    - cbn [map concat app] in Hhtail. destruct Hhtail as [Hpsc _]. left. exact Hpsc. }
  destruct (copy_cmd_spec buffer len Hrange (Z.to_nat len) 1 0 (set_crc16 q 0) [Load_buffer 0])
    as (n & tr1 & E & H1 & H2 & H3 & H4); [lia|lia|].
  assert (n = length name) as ->.
  { apply (run_length buffer len 1 10 name n); try assumption; unfold MAX_PROTO_CMD in *; lia. }
  rewrite E, (holds_map_zrange buffer name 1 Hhname). clear E H1 H2 H3 H4.
  rewrite !Z.add_0_l.
  destruct (Z.geb_spec (1 + Z.of_nat (length name)) len); [lia|].
  destruct (Z.geb_spec (Z.of_nat (length name)) MAX_PROTO_CMD);
    [unfold MAX_PROTO_CMD in *; lia|].
  set (pkt1 := set_cmd _ _ _).
  assert (Hwf1 : wf_pkt pkt1).
  { destruct Hwf as (W1 & W2 & W3 & W4). unfold wf_pkt, pkt1. cbn.
    rewrite length_aset, length_store_bytes. repeat split; try assumption; lia. }
  assert (Hc1 : param_count pkt1 = 0) by exact Hq0.
  assert (Hcrc1 : pkt_crc16 pkt1 = 0) by reflexivity.
  assert (Hcmd1 : c_str (cmd pkt1) = name).
  { unfold pkt1. cbn [set_cmd cmd set_crc16].
    replace (aset (store_bytes (cmd q) 0 name) (Z.of_nat (length name)) 0)
      with (store_bytes (cmd q) 0 (name ++ [0]))
      by (rewrite store_bytes_app; reflexivity).
    apply c_str_store; [|exact Hnz].
    destruct Hwf as (W1 & _). rewrite W1. unfold MAX_PROTO_CMD. lia. }
  set (tr2 := Store_cmd _ :: tr1).
  (* the parameters *)
  assert (Hbody : exists tr3,
             (if buffer (1 + Z.of_nat (length name)) =? PROTO_ETX
              then (1 + Z.of_nat (length name), pkt1, tr2)
              else if buffer (1 + Z.of_nat (length name)) =? PROTO_PSC
                   then parse_params (Z.to_nat len) buffer len (1 + Z.of_nat (length name)) pkt1 tr2
                   else (1 + Z.of_nat (length name), pkt1, tr2))
             = (pE, fill_params pkt1 ps, tr3)).
  { unfold tail in *. destruct ps as [|v vs].
    - cbn [map concat length] in *. unfold pE in *. rewrite Z.add_0_r in *.
      rewrite Hetx, Z.eqb_refl. exists tr2. reflexivity.
    - pose proof Hhtail as Hh. cbn [map concat app] in Hh. destruct Hh as [Hpsc _].
      rewrite Hpsc. change (PROTO_PSC =? PROTO_ETX) with false.
      change (PROTO_PSC =? PROTO_PSC) with true. cbv iota.
      destruct (parse_params_run buffer len Hrange vs v (Z.to_nat len)
                  (1 + Z.of_nat (length name)) pkt1 tr2) as [tr3 E].
      + cbn [map concat app] in Hhtail.
        rewrite app_assoc, app_comm_cons.
        apply holds_app. split; [exact Hhtail|].
        cbn [holds]. split; [|exact I].
        cbn [length] in *. rewrite length_app in *. cbn [length] in *.
        rewrite <- Hetx. f_equal. unfold pE, tail.
        cbn [map concat app length]. rewrite ?length_app. cbn [length]. lia.
      + lia.
      + unfold pE, tail in *. cbn [map concat app length] in *.
        rewrite ?length_app in *. cbn [length] in *. lia.
      + exact Hfits.
      + exact Hwf1.
      + lia.
      + cbn [length] in Hcount. unfold MAX_PROTO_PARAM_COUNT. lia.
      + cbn [length] in Hcount. lia.
      + exists tr3. rewrite E. f_equal. f_equal. unfold pE, tail.
        cbn [map concat app length]. rewrite ?length_app. cbn [length]. lia. }
  destruct Hbody as [tr3 E]. rewrite E. clear E.
  destruct (fill_params_fields ps pkt1) as (Fcmd & Fcrc & Fcount).
  set (pkt2 := fill_params pkt1 ps) in *.
  rewrite Hetx, Z.eqb_refl. rewrite to_uint16_small by lia.
  (* the checksum *)
  unfold check_crc16.
  rewrite Fcrc, Hcrc1.
  assert (Hsum : crc16_buffer 0 buffer 0 (pE + 1) = crc).
  { replace (pE + 1) with (0 + Z.of_nat (length (frame_body name ps))).
    - apply crc16_buffer_fold. unfold frame_body. fold tail. cbn [app holds].
      split; [exact Hstx|]. apply holds_app. split; [exact Hhname|].
      apply holds_app. split; [exact Hhtail|]. cbn [holds]. split; [exact Hetx|exact I].
    - unfold frame_body, pE. fold tail. cbn [app length]. rewrite !length_app. cbn [length]. lia. }
  rewrite Hsum.
  set (l := take 4 (hex ++ [PROTO_CR])).
  assert (Hl : hex ++ [PROTO_CR] = l ++ drop 4 (hex ++ [PROTO_CR]))
    by (symmetry; apply take_drop).
  assert (Hll : Z.of_nat (length l) = Z.min 4 (Z.of_nat (length hex) + 1)).
  { unfold l. rewrite length_take, length_app. cbn [length]. lia. }
  match goal with
  | |- context [read_crc16Hex 4 buffer len (pE + 1) 0 ?h ?t] =>
      destruct (read_crc16Hex_run buffer len Hrange l 4 (pE + 1) 0 h t) as [tr4 E]
  end.
  { rewrite Hl in Hhhex. apply holds_app in Hhhex as [Hhl _]. exact Hhl. }
  { lia. }
  { lia. }
  { lia. }
  { lia. }
  { lia. }
  { lia. }
  rewrite E. clear E.
  change (store_bytes [0; 0; 0; 0] 0 l) with (crc16Hex_of crc).
  rewrite Hstr.
  destruct (Z.eqb_spec consumed 0); [lia|]. cbn [andb].
  cbn [set_crc16 pkt_crc16]. rewrite to_uint16_small by lia.
  rewrite Z.eqb_refl. cbn [negb ret out].
  rewrite to_int16_small by (unfold INT16_MAX; lia).
  split; [lia|]. split; [reflexivity|].
  change (cmd (set_crc16 pkt2 crc)) with (cmd pkt2).
  change (param_count (set_crc16 pkt2 crc)) with (param_count pkt2).
  rewrite Fcmd, Fcount, Hc1.
  split; [exact Hcmd1|]. split; [lia|].
  intros k Hk.
  change (param (set_crc16 pkt2 crc) k) with (param pkt2 k).
  unfold pkt2. rewrite param_fill_params; try assumption; try lia;
    [|unfold MAX_PROTO_PARAM_COUNT; lia].
  rewrite Hc1. destruct (Z.ltb_spec k 0); [lia|].
  destruct (Z.ltb_spec k (0 + Z.of_nat (length ps))); [|lia].
  rewrite Z.sub_0_r. reflexivity.
Qed.

(** ** Round trip *)

Lemma length_zrange (n : nat) (p : Z) : length (zrange p n) = n.
Proof. revert p. induction n as [|n IH]; intros p; cbn [zrange length]; [|rewrite IH]; reflexivity. Qed.

Lemma Forall_map_zrange {A : Type} (P : A -> Prop) (f : Z -> A) (n : nat) (p : Z) :
  (forall k, p <= k < p + Z.of_nat n -> P (f k)) -> Forall P (map f (zrange p n)).
Proof.
  revert p. induction n as [|n IH]; intros p H; cbn [zrange map]; constructor.
  - apply H. lia.
  - apply IH. intros k Hk. apply H. lia.
Qed.

Lemma nth_map_zrange {A : Type} (f : Z -> A) (d : A) (n : nat) :
  forall (p : Z) (j : nat), (j < n)%nat -> nth j (map f (zrange p n)) d = f (p + Z.of_nat j).
Proof.
  induction n as [|n IH]; intros p j Hj; [lia|].
  cbn [zrange map]. destruct j as [|j]; cbn [nth].
  - rewrite Z.add_0_r. reflexivity.
  - rewrite IH by lia. f_equal. lia.
Qed.

(** C1, counterexample: a parameter that holds a separator comes back
    as two parameters. *)
Lemma separator_in_parameter_splits :
  let p := response_with (bytes "CGS") (bytes "12:30") in
  let frame := fst (proto_print_response_pkt p) in
  let r := proto_parse_pkt_buffer false [] (mem_of frame) (Z.of_nat (length frame)) zero_pkt in
  c_str (cmd p) = bytes "CGS" /\ param_count p = 1 /\ param p 0 = bytes "12:30" /\
  0 <= ret r /\ param_count (out r) = 2 /\
  param (out r) 0 = bytes "12" /\ param (out r) 1 = bytes "30".
Proof. vm_compute. repeat split. discriminate. Qed.

(** C1, amended: with checksums enabled, encoding a packet whose name and
    parameters end inside their arrays and hold neither separator nor end
    marker, and decoding the frame into a packet whose parameter count is
    zero, gives back the name, the parameter count and the parameters;
    this supposes that a checksum of four digits is not followed in memory
    by a further hexadecimal digit, since [crc16Hex] has no terminator. *)
Theorem round_trip (behind : list Z) (p q : proto_pkt_t) :
  encodable p ->
  wf_pkt q -> param_count q = 0 ->
  (pkt_crc16 (snd (proto_print_response_pkt p)) < 4096 \/ no_hex_ahead behind) ->
  let frame := fst (proto_print_response_pkt p) in
  let r := proto_parse_pkt_buffer false behind (mem_of frame) (Z.of_nat (length frame)) q in
  0 <= ret r /\
  c_str (cmd (out r)) = c_str (cmd p) /\
  param_count (out r) = param_count p /\
  (forall k, 0 <= k < param_count p -> param (out r) k = param p k).
Proof.
  intros (Hwf & Hcount & Hname & Hplain & Hparams) Hwfq Hq0 Hb.
  destruct (proto_print_response_pkt_spec p) as [Hframe Hcrc].
  rewrite Hcrc in Hb. rewrite Hframe.
  pose proof Hwf as (W1 & W2 & W3 & W4).
  assert (Hlen : Z.of_nat (length (encoded_params p)) = param_count p).
  { unfold encoded_params. rewrite length_map, length_zrange. lia. }
  destruct (decode_frame behind (c_str (cmd p)) (encoded_params p) q)
    as (R1 & _ & R3 & R4 & R5); try assumption.
  - unfold terminated, strlen in Hname. rewrite W1 in Hname. exact Hname.
  - apply c_str_nonzero.
  - lia.
  - unfold encoded_params. apply Forall_map_zrange. intros k Hk.
    destruct (Hparams k) as [Ht Hp]; [lia|].
    split; [|split; [apply c_str_nonzero|exact Hp]].
    unfold terminated, strlen in Ht. unfold param.
    destruct (params p !! Z.to_nat k) as [row|] eqn:E.
    + simpl in Ht |- *. rewrite Forall_forall in W3.
      rewrite (W3 row) in Ht by (apply list_elem_of_lookup; eauto). exact Ht.
    + cbn. unfold MAX_PROTO_PARAM_LEN. lia.
  - cbv zeta. split; [exact R1|]. split; [exact R3|]. split; [lia|].
    intros k Hk. rewrite R5 by lia. unfold encoded_params.
    rewrite nth_map_zrange by lia. f_equal. lia.
Qed.

Lemma round_trip_witness :
  let p := response_with (bytes "CSB") (bytes "FF") in
  let frame := fst (proto_print_response_pkt p) in
  let r := proto_parse_pkt_buffer false [] (mem_of frame) (Z.of_nat (length frame)) zero_pkt in
  0 <= ret r /\
  c_str (cmd (out r)) = c_str (cmd p) /\
  param_count (out r) = param_count p /\
  (forall k, 0 <= k < param_count p -> param (out r) k = param p k).
Proof.
  apply (round_trip [] (response_with (bytes "CSB") (bytes "FF")) zero_pkt).
  - split; [|split; [|split; [|split]]].
    + split; [reflexivity|]. split; [reflexivity|]. split; [repeat constructor|].
      vm_compute. split; [discriminate|reflexivity].
    + vm_compute. discriminate.
    + vm_compute. reflexivity.
    + repeat constructor; intros [H|H]; discriminate H.
    + intros k Hk.
      assert (E : param_count (response_with (bytes "CSB") (bytes "FF")) = 1)
        by (vm_compute; reflexivity).
      rewrite E in Hk. assert (k = 0) as -> by lia.
      split; [vm_compute; reflexivity|].
      repeat constructor; intros [H|H]; discriminate H.
  - exact wf_zero_pkt.
  - reflexivity.
  - right. exact I.
Defined.

(** ** Appending a parameter, in general *)

(** What [proto_append_response_pkt_param] does in each case: the value
    stored is the first 49 bytes of the string handed over. *)
Lemma append_param_spec (pkt : proto_pkt_t) (value : list Z) :
  wf_pkt pkt ->
  let r := proto_append_response_pkt_param pkt value in
  (MAX_PROTO_PARAM_COUNT <= param_count pkt -> r = (ERR_PROTO_RB_TOO_MANY_PARAMS, pkt)) /\
  (param_count pkt < MAX_PROTO_PARAM_COUNT -> MAX_PROTO_PARAM_LEN < strlen value ->
   r = (ERR_PROTO_RB_PARAM_OVERFLOW, pkt)) /\
  (param_count pkt < MAX_PROTO_PARAM_COUNT -> strlen value <= MAX_PROTO_PARAM_LEN ->
   fst r = param_count pkt + 1 /\
   param_count (snd r) = param_count pkt + 1 /\
   param (snd r) (param_count pkt) = take 49 (c_str value)).
Proof.
  intros (W1 & W2 & W3 & W4) r. subst r. unfold proto_append_response_pkt_param.
  unfold MAX_PROTO_PARAM_COUNT, MAX_PROTO_PARAM_LEN in *.
  split; [|split].
  - intros H. destruct (Z.gtb_spec (param_count pkt + 1) 4); [reflexivity|lia].
  - intros H1 H2. destruct (Z.gtb_spec (param_count pkt + 1) 4); [lia|].
    destruct (Z.gtb_spec (strlen value) 50); [reflexivity|lia].
  - intros H1 H2. destruct (Z.gtb_spec (param_count pkt + 1) 4); [lia|].
    destruct (Z.gtb_spec (strlen value) 50); [lia|].
    cbn [fst snd set_param_count cmd params param_count pkt_crc16].
    unfold to_uint8. rewrite Z.mod_small by lia.
    rewrite to_int16_small by (unfold INT16_MAX; lia).
    split; [reflexivity|]. split; [reflexivity|].
    unfold param. cbn [params]. rewrite list_lookup_alter_eq.
    destruct (params pkt !! Z.to_nat (param_count pkt)) as [row|] eqn:E.
    + cbn. unfold strlcpy. cbn.
      apply c_str_store.
      * rewrite Forall_forall in W3. rewrite (W3 row) by (apply list_elem_of_lookup; eauto).
        rewrite length_take. lia.
      * apply Forall_take, c_str_nonzero.
    + apply lookup_ge_None in E. lia.
Qed.

(** ** The checksum: composition *)

Lemma zrange_app (n1 n2 : nat) (p : Z) :
  zrange p (n1 + n2) = zrange p n1 ++ zrange (p + Z.of_nat n1) n2.
Proof.
  revert p. induction n1 as [|n1 IH]; intros p; cbn [zrange Nat.add app].
  - rewrite Z.add_0_r. reflexivity.
  - rewrite IH. do 3 f_equal. lia.
Qed.

Lemma holds_zrange (m : memory) (n : nat) (p : Z) : holds m p (map m (zrange p n)).
Proof.
  revert p. induction n as [|n IH]; intros p; cbn [zrange map holds]; [exact I|].
  split; [reflexivity|apply IH].
Qed.

(** [crc16_buffer] is the fold of [crc16] over the bytes at the indices
    from [start] up to [len]. *)
Lemma crc16_buffer_zrange (crc : Z) (m : memory) (start len : Z) :
  crc16_buffer crc m start len
    = fold_left crc16 (map m (zrange start (Z.to_nat (len - start)))) crc.
Proof.
  destruct (Z.le_gt_cases start len) as [Hle|Hgt].
  - rewrite <- (crc16_buffer_fold _ m crc start (holds_zrange m _ start)).
    rewrite length_map, length_zrange. f_equal. lia.
  - unfold crc16_buffer. replace (Z.to_nat (len - start)) with 0%nat by lia.
    cbn. destruct (Z.ltb_spec start len); [lia|reflexivity].
Qed.

(** X1: the checksum can be taken piece by piece.  Feeding the checksum
    of the bytes from [a] up to [b] into the run from [b] up to [c] gives
    the checksum of the bytes from [a] up to [c]; an empty range leaves
    the checksum as it is. *)
Theorem crc16_buffer_incremental (crc : Z) (m : memory) (a b c : Z) :
  a <= b <= c ->
  crc16_buffer (crc16_buffer crc m a b) m b c = crc16_buffer crc m a c /\
  crc16_buffer crc m b b = crc.
Proof.
  intros H. rewrite !crc16_buffer_zrange. split.
  - replace (Z.to_nat (c - a)) with (Z.to_nat (b - a) + Z.to_nat (c - b))%nat by lia.
    rewrite zrange_app, map_app, fold_left_app. do 3 f_equal. lia.
  - replace (Z.to_nat (b - b)) with 0%nat by lia. reflexivity.
Qed.

Lemma crc16_buffer_incremental_witness :
  crc16_buffer (crc16_buffer 0 (mem_of (bytes "[CSB:FF]")) 0 4) (mem_of (bytes "[CSB:FF]")) 4 8
    = crc16_buffer 0 (mem_of (bytes "[CSB:FF]")) 0 8 /\
  crc16_buffer 0 (mem_of (bytes "[CSB:FF]")) 4 4 = 0.
Proof. apply (crc16_buffer_incremental 0 (mem_of (bytes "[CSB:FF]")) 0 4 8). lia. Defined.

(** ** The checksum: the table and the polynomial *)

Lemma testbit_small (a k n : Z) : 0 <= a < 2 ^ k -> 0 <= k <= n -> Z.testbit a n = false.
Proof.
  intros Ha Hk. rewrite <- (Z.mod_small a (2 ^ k)) by lia.
  apply Z.mod_pow2_bits_high. lia.
Qed.

Lemma crc_shift_lxor (a b : Z) :
  crc_shift (Z.lxor a b) = Z.lxor (crc_shift a) (crc_shift b).
Proof.
  unfold crc_shift, to_uint16. change 65536 with (2 ^ 16).
  rewrite Z.lxor_spec.
  assert (E : Z.shiftl (Z.lxor a b) 1 mod 2 ^ 16
              = Z.lxor (Z.shiftl a 1 mod 2 ^ 16) (Z.shiftl b 1 mod 2 ^ 16)).
  { rewrite Z.shiftl_lxor. rewrite <- !Z.land_ones by lia.
    apply Z.bits_inj'. intros n Hn.
    repeat first [rewrite Z.lxor_spec | rewrite Z.land_spec].
    destruct (Z.testbit (Z.shiftl a 1) n), (Z.testbit (Z.shiftl b 1) n),
      (Z.testbit (Z.ones 16) n); reflexivity. }
  rewrite E.
  destruct (Z.testbit a 15), (Z.testbit b 15); cbn [xorb].
  - rewrite Z.lxor_assoc, (Z.lxor_comm CRC16_POLY), Z.lxor_assoc, Z.lxor_nilpotent,
      Z.lxor_0_r. reflexivity.
  - rewrite !Z.lxor_assoc. f_equal. apply Z.lxor_comm.
  - rewrite Z.lxor_assoc. reflexivity.
  - reflexivity.
Qed.

Lemma crc_shift8_lxor (a b : Z) :
  crc_shift8 (Z.lxor a b) = Z.lxor (crc_shift8 a) (crc_shift8 b).
Proof.
  unfold crc_shift8. generalize 8%nat. intros n. revert a b.
  induction n as [|n IH]; intros a b; cbn [crc_shifts]; [reflexivity|].
  rewrite crc_shift_lxor. apply IH.
Qed.

Lemma byte_facts_all : forallb byte_facts (zrange 0 256) = true.
Proof. vm_compute. reflexivity. Qed.

Lemma byte_facts_at (i : Z) :
  0 <= i < 256 ->
  aget CRC16_table i = crc_shift8 (Z.shiftl i 8) /\ crc_shift8 i = Z.shiftl i 8 /\
  0 <= aget CRC16_table i < 65536.
Proof.
  intros Hi. pose proof byte_facts_all as H. rewrite forallb_forall in H.
  specialize (H i (in_zrange 256 0 i ltac:(lia))). unfold byte_facts in H.
  repeat (apply andb_prop in H as [H ?]). lia.
Qed.

Lemma lxor_bytes (a b : Z) : 0 <= a < 256 -> 0 <= b < 256 -> 0 <= Z.lxor a b < 256.
Proof.
  intros Ha Hb. split; [apply Z.lxor_nonneg; lia|].
  destruct (Z.eq_dec (Z.lxor a b) 0) as [->|Hne]; [lia|].
  assert (0 < Z.lxor a b) by (pose proof (proj2 (Z.lxor_nonneg a b)); lia).
  apply Z.log2_lt_pow2 with (b := 8); [lia|].
  pose proof (Z.log2_lxor a b ltac:(lia) ltac:(lia)).
  assert (Z.log2 a < 8).
  { destruct (Z.eq_dec a 0) as [->|]; [cbn; lia|]. apply Z.log2_lt_pow2; lia. }
  assert (Z.log2 b < 8).
  { destruct (Z.eq_dec b 0) as [->|]; [cbn; lia|]. apply Z.log2_lt_pow2; lia. }
  lia.
Qed.

(** A step of [crc16] is eight shifts of the register with the byte
    added to its high half. *)
Lemma crc16_as_shifts (crc data : Z) :
  crc16 crc data = crc_shift8 (Z.lxor (to_uint16 crc) (Z.shiftl (to_uint8 data) 8)).
Proof.
  unfold crc16. cbv zeta.
  set (c := to_uint16 crc). set (d := to_uint8 data).
  assert (Hc : 0 <= c < 65536) by (apply Z.mod_pos_bound; lia).
  assert (Hd : 0 <= d < 256) by (apply Z.mod_pos_bound; lia).
  set (h := c / 256). set (l := c mod 256).
  assert (Hh : 0 <= h < 256).
  { unfold h. split; [apply Z.div_pos; lia|apply Z.div_lt_upper_bound; lia]. }
  assert (Hl : 0 <= l < 256) by (apply Z.mod_pos_bound; lia).
  assert (Hcl : c = 256 * h + l) by (unfold h, l; apply Z.div_mod; lia).
  pose proof (lxor_bytes h d Hh Hd) as Hx.
  (* the index into the table *)
  rewrite (Z.shiftr_div_pow2 c 8) by lia. change (2 ^ 8) with 256. fold h.
  change 255 with (Z.ones 8). rewrite Z.land_ones by lia. change (2 ^ 8) with 256.
  rewrite (Z.mod_small (Z.lxor h d) 256) by lia.
  destruct (byte_facts_at (Z.lxor h d) Hx) as (HT & _ & HTr).
  destruct (byte_facts_at l Hl) as (_ & Hlow & _).
  (* the register before the eight shifts *)
  assert (Hreg : Z.lxor c (Z.shiftl d 8) = Z.lxor (Z.shiftl (Z.lxor h d) 8) l).
  { rewrite Z.shiftl_lxor, Hcl.
    rewrite (Z.add_nocarry_lxor (256 * h) l).
    - rewrite (Z.shiftl_mul_pow2 h 8) by lia. change (2 ^ 8) with 256.
      rewrite (Z.mul_comm h 256).
      rewrite !Z.lxor_assoc. f_equal. apply Z.lxor_comm.
    - apply Z.bits_inj'. intros n Hn. rewrite Z.land_spec, Z.bits_0.
      destruct (Z.lt_ge_cases n 8).
      + replace (256 * h) with (Z.shiftl h 8)
          by (rewrite Z.shiftl_mul_pow2 by lia; change (2 ^ 8) with 256; lia).
        rewrite Z.shiftl_spec_low by lia. reflexivity.
      + rewrite (testbit_small l 8 n) by (change (2 ^ 8) with 256; lia).
        apply andb_false_r. }
  rewrite Hreg, crc_shift8_lxor, <- HT, Hlow.
  (* the old register moved up by a byte *)
  unfold to_uint16. change 65536 with (2 ^ 16).
  rewrite <- Z.land_ones by lia.
  apply Z.bits_inj'. intros n Hn.
  rewrite Z.land_spec, !Z.lxor_spec.
  destruct (Z.lt_ge_cases n 16) as [Hlt|Hge].
  - rewrite Z.ones_spec_low by lia. rewrite andb_true_r. f_equal.
    destruct (Z.lt_ge_cases n 8).
    + rewrite !Z.shiftl_spec_low by lia. reflexivity.
    + rewrite !Z.shiftl_spec by lia.
      rewrite Hcl.
      replace (256 * h + l) with (l + h * 2 ^ 8) by (change (2 ^ 8) with 256; lia).
      rewrite <- (Z.mod_pow2_bits_low (l + h * 2 ^ 8) 8 (n - 8)) by lia.
      rewrite Z.mod_add by lia. rewrite Z.mod_small by (change (2 ^ 8) with 256; lia).
      reflexivity.
  - rewrite Z.ones_spec_high by lia. rewrite andb_false_r.
    rewrite (testbit_small (aget CRC16_table (Z.lxor h d)) 16 n)
      by (change (2 ^ 16) with 65536; lia).
    rewrite Z.shiftl_spec by lia.
    rewrite (testbit_small l 8 (n - 8)) by (change (2 ^ 8) with 256; lia).
    reflexivity.
Qed.

(** X2: the table driven step is the CRC-16 of the polynomial 0x1021
    taken bit by bit, most significant bit first, without reflection. *)
Theorem crc16_is_bitwise_crc (crc data : Z) :
  crc16 crc data = crc16_bitwise (to_uint16 crc) (to_uint8 data).
Proof.
  unfold crc16_bitwise. rewrite crc16_as_shifts. reflexivity.
Qed.

(** ** The checksum: a changed byte changes it *)

Lemma lxor_bound (k a b : Z) :
  0 <= k -> 0 <= a < 2 ^ k -> 0 <= b < 2 ^ k -> 0 <= Z.lxor a b < 2 ^ k.
Proof.
  intros Hk Ha Hb. split; [apply Z.lxor_nonneg; lia|].
  destruct (Z.eq_dec (Z.lxor a b) 0) as [->|Hne]; [lia|].
  assert (0 < Z.lxor a b) by (pose proof (proj2 (Z.lxor_nonneg a b)); lia).
  assert (0 < k).
  { destruct (Z.eq_dec k 0) as [->|]; [|lia]. exfalso. apply Hne.
    replace a with 0 by (cbn in Ha; lia). replace b with 0 by (cbn in Hb; lia). reflexivity. }
  apply Z.log2_lt_pow2; [lia|].
  pose proof (Z.log2_lxor a b ltac:(lia) ltac:(lia)).
  assert (Z.log2 a < k).
  { destruct (Z.eq_dec a 0) as [->|]; [cbn; lia|]. apply Z.log2_lt_pow2; lia. }
  assert (Z.log2 b < k).
  { destruct (Z.eq_dec b 0) as [->|]; [cbn; lia|]. apply Z.log2_lt_pow2; lia. }
  lia.
Qed.

Lemma shift8_kernel_all : forallb shift8_kernel (zrange 0 (Z.to_nat 65536)) = true.
Proof. vm_compute. reflexivity. Qed.

Lemma crc_shift8_inj (a b : Z) :
  0 <= a < 65536 -> 0 <= b < 65536 -> crc_shift8 a = crc_shift8 b -> a = b.
Proof.
  intros Ha Hb E. apply Z.lxor_eq.
  pose proof (lxor_bound 16 a b ltac:(lia) Ha Hb) as Hx. change (2 ^ 16) with 65536 in Hx.
  pose proof shift8_kernel_all as H. rewrite forallb_forall in H.
  specialize (H (Z.lxor a b) (in_zrange (Z.to_nat 65536) 0 (Z.lxor a b) ltac:(lia))).
  unfold shift8_kernel in H. rewrite crc_shift8_lxor, E, Z.lxor_nilpotent in H.
  cbn in H. rewrite orb_false_r in H. apply Z.eqb_eq in H. exact H.
Qed.

Lemma register_bound (c d : Z) :
  0 <= c < 65536 -> 0 <= d < 256 -> 0 <= Z.lxor c (Z.shiftl d 8) < 65536.
Proof.
  intros Hc Hd. apply (lxor_bound 16); [lia|exact Hc|].
  rewrite Z.shiftl_mul_pow2 by lia. change (2 ^ 8) with 256. change (2 ^ 16) with 65536. lia.
Qed.

Lemma lxor_cancel_l (c a b : Z) : Z.lxor c a = Z.lxor c b -> a = b.
Proof.
  intros E. apply Z.lxor_eq.
  replace (Z.lxor a b) with (Z.lxor (Z.lxor c a) (Z.lxor c b)).
  - rewrite E. apply Z.lxor_nilpotent.
  - rewrite Z.lxor_assoc, <- (Z.lxor_assoc a c b), (Z.lxor_comm a c), Z.lxor_assoc,
      <- (Z.lxor_assoc c c), Z.lxor_nilpotent, Z.lxor_0_l. reflexivity.
Qed.

(** The step is one to one in the byte and in the register. *)
Lemma crc16_inj_data (crc d1 d2 : Z) :
  crc16 crc d1 = crc16 crc d2 -> to_uint8 d1 = to_uint8 d2.
Proof.
  rewrite !crc16_as_shifts. intros E.
  assert (Hc : 0 <= to_uint16 crc < 65536) by (apply Z.mod_pos_bound; lia).
  assert (H1 : 0 <= to_uint8 d1 < 256) by (apply Z.mod_pos_bound; lia).
  assert (H2 : 0 <= to_uint8 d2 < 256) by (apply Z.mod_pos_bound; lia).
  apply crc_shift8_inj in E; try (apply register_bound; assumption).
  apply lxor_cancel_l in E. rewrite !Z.shiftl_mul_pow2 in E by lia. lia.
Qed.

Lemma crc16_inj_crc (c1 c2 d : Z) :
  crc16 c1 d = crc16 c2 d -> to_uint16 c1 = to_uint16 c2.
Proof.
  rewrite !crc16_as_shifts. intros E.
  assert (H1 : 0 <= to_uint16 c1 < 65536) by (apply Z.mod_pos_bound; lia).
  assert (H2 : 0 <= to_uint16 c2 < 65536) by (apply Z.mod_pos_bound; lia).
  assert (Hd : 0 <= to_uint8 d < 256) by (apply Z.mod_pos_bound; lia).
  apply crc_shift8_inj in E; try (apply register_bound; assumption).
  rewrite (Z.lxor_comm (to_uint16 c1)), (Z.lxor_comm (to_uint16 c2)) in E.
  apply lxor_cancel_l in E. exact E.
Qed.

Lemma fold_crc16_inj (l : list Z) (c1 c2 : Z) :
  to_uint16 c1 <> to_uint16 c2 ->
  to_uint16 (fold_left crc16 l c1) <> to_uint16 (fold_left crc16 l c2).
Proof.
  revert c1 c2. induction l as [|x l IH]; intros c1 c2 H; cbn [fold_left]; [exact H|].
  apply IH. intros E.
  rewrite !to_uint16_small in E by apply crc16_range.
  apply crc16_inj_crc in E. contradiction.
Qed.

Lemma in_zrange_inv (n : nat) (p j : Z) : In j (zrange p n) -> p <= j < p + Z.of_nat n.
Proof.
  revert p. induction n as [|n IH]; intros p H; [destruct H|].
  destruct H as [<-|H]; [lia|]. apply IH in H. lia.
Qed.

(** X3: a single changed byte is always detected.  When two buffers
    differ in exactly one byte of the range, their checksums differ. *)
Theorem crc16_detects_changed_byte (crc : Z) (m1 m2 : memory) (start len k : Z) :
  start <= k < len ->
  (forall j, j <> k -> m1 j = m2 j) ->
  to_uint8 (m1 k) <> to_uint8 (m2 k) ->
  crc16_buffer crc m1 start len <> crc16_buffer crc m2 start len.
Proof.
  intros Hk Hsame Hdiff. rewrite !crc16_buffer_zrange.
  replace (Z.to_nat (len - start))
    with (Z.to_nat (k - start) + S (Z.to_nat (len - k - 1)))%nat by lia.
  rewrite zrange_app. cbn [zrange]. rewrite !map_app. cbn [map].
  rewrite !fold_left_app. cbn [fold_left].
  replace (start + Z.of_nat (Z.to_nat (k - start))) with k by lia.
  assert (E1 : map m1 (zrange start (Z.to_nat (k - start)))
               = map m2 (zrange start (Z.to_nat (k - start)))).
  { apply map_ext_in. intros j Hj. apply in_zrange_inv in Hj. apply Hsame. lia. }
  assert (E2 : map m1 (zrange (k + 1) (Z.to_nat (len - k - 1)))
               = map m2 (zrange (k + 1) (Z.to_nat (len - k - 1)))).
  { apply map_ext_in. intros j Hj. apply in_zrange_inv in Hj. apply Hsame. lia. }
  rewrite E1, E2. intros E.
  apply (fold_crc16_inj (map m2 (zrange (k + 1) (Z.to_nat (len - k - 1))))
           (crc16 (fold_left crc16 (map m2 (zrange start (Z.to_nat (k - start)))) crc) (m1 k))
           (crc16 (fold_left crc16 (map m2 (zrange start (Z.to_nat (k - start)))) crc) (m2 k))).
  - rewrite !to_uint16_small by apply crc16_range.
    intros E'. apply crc16_inj_data in E'. contradiction.
  - rewrite E. reflexivity.
Qed.

Lemma crc16_detects_changed_byte_witness :
  crc16_buffer 0 (mem_of (bytes "[CSB:FF]")) 0 8 <> crc16_buffer 0 (mem_of (bytes "[CSB:FE]")) 0 8.
Proof.
  apply (crc16_detects_changed_byte 0 (mem_of (bytes "[CSB:FF]")) (mem_of (bytes "[CSB:FE]")) 0 8 6).
  - lia.
  - intros j Hj. unfold mem_of. destruct (j <? 0); [reflexivity|].
    destruct (Z.to_nat j) as [|[|[|[|[|[|[|n]]]]]]] eqn:E; try reflexivity. lia.
  - vm_compute. discriminate.
Defined.

(** ** The response builder *)

Lemma print_dec_ok_all : forallb print_dec_ok (zrange (-32768) (Z.to_nat 65536)) = true.
Proof. vm_compute. reflexivity. Qed.

Lemma print_dec_facts (n : Z) :
  -32768 <= n <= 32767 ->
  Z.of_nat (length (print_dec n)) <= 6 /\
  Forall (fun c => c <> 0) (print_dec n) /\
  decimal (print_dec n) = Some n.
Proof.
  intros Hn. pose proof print_dec_ok_all as H. rewrite forallb_forall in H.
  specialize (H n (in_zrange (Z.to_nat 65536) (-32768) n ltac:(lia))).
  unfold print_dec_ok in H. repeat (apply andb_prop in H as [H ?]).
  split; [lia|]. split.
  - apply Forall_forall. intros c Hc.
    match goal with
    | F : forallb _ _ = true |- _ => rewrite forallb_forall in F; specialize (F c)
    end.
    apply list_elem_of_In in Hc.
    match goal with
    | F : In c _ -> _ |- _ => specialize (F Hc); destruct (Z.eqb_spec c 0); [discriminate|assumption]
    end.
  - destruct (decimal (print_dec n)) as [v|]; [|discriminate]. f_equal. lia.
Qed.

Lemma wf_alter_row (pkt : proto_pkt_t) (f : list Z -> list Z) (slot : nat) (c k : Z) :
  wf_pkt pkt -> (forall row, length (f row) = length row) -> 0 <= k < 256 ->
  wf_pkt (mk_pkt (cmd pkt) (alter f slot (params pkt)) k c).
Proof.
  intros (H1 & H2 & H3 & H4) Hf Hk. unfold wf_pkt. cbn [cmd params param_count].
  split; [exact H1|]. split; [rewrite length_alter; exact H2|]. split; [|exact Hk].
  rewrite Forall_forall in *. intros row Hin.
  apply list_elem_of_lookup in Hin as [i Hi].
  destruct (decide (i = slot)) as [->|Hne].
  - rewrite list_lookup_alter_eq in Hi.
    destruct (params pkt !! slot) as [row0|] eqn:E; [|discriminate].
    cbn in Hi. injection Hi as <-. rewrite Hf.
    apply H3. apply list_elem_of_lookup. eauto.
  - rewrite list_lookup_alter_ne in Hi by congruence.
    apply H3. apply list_elem_of_lookup. eauto.
Qed.

Lemma param_alter_string (pkt : proto_pkt_t) (v : list Z) (slot k c n : Z) :
  wf_pkt pkt -> 0 <= slot < MAX_PROTO_PARAM_COUNT -> 0 <= k ->
  Z.of_nat (length v) < MAX_PROTO_PARAM_LEN -> Forall (fun x => x <> 0) v ->
  param (mk_pkt (cmd pkt)
                (alter (fun row => store_bytes row 0 (v ++ [0])) (Z.to_nat slot) (params pkt))
                n c) k
    = if k =? slot then v else param pkt k.
Proof.
  intros (H1 & H2 & H3 & H4) Hs Hk Hv Hnz. unfold param. cbn [params].
  unfold MAX_PROTO_PARAM_COUNT, MAX_PROTO_PARAM_LEN in *.
  destruct (Z.eqb_spec k slot) as [->|Hne].
  - rewrite list_lookup_alter_eq.
    destruct (params pkt !! Z.to_nat slot) as [row|] eqn:E.
    + cbn. apply c_str_store; [|exact Hnz].
      rewrite Forall_forall in H3. rewrite (H3 row) by (apply list_elem_of_lookup; eauto). lia.
    + apply lookup_ge_None in E. lia.
  - rewrite list_lookup_alter_ne by lia. reflexivity.
Qed.

(** A fresh response: well formed whatever the packet held before, with
    the first nine bytes of the request's name and the single parameter
    "0". *)
Lemma init_response_facts (pkt_rsp pkt_cmd : proto_pkt_t) :
  let r := proto_init_response_pkt pkt_rsp pkt_cmd in
  wf_pkt r /\
  c_str (cmd r) = take 9 (c_str (cmd pkt_cmd)) /\
  param_count r = 1 /\
  param r 0 = bytes "0" /\
  (forall k, 1 <= k -> param r k = []) /\
  pkt_crc16 r = 0.
Proof.
  cbv zeta. unfold proto_init_response_pkt, proto_set_response_pkt_error_code.
  cbn [proto_clear_pkt cmd params param_count pkt_crc16 set_param_count].
  change (0 <=? 0) with true. cbv iota. cbn [cmd params param_count pkt_crc16 set_param_count].
  split; [|split; [|split; [|split; [|split]]]].
  - split; [|split; [|split]].
    + cbn [cmd]. unfold strlcpy. cbn. rewrite length_store_bytes. reflexivity.
    + cbn [params]. rewrite length_alter. reflexivity.
    + cbn [params]. cbn. repeat constructor.
    + cbn. lia.
  - cbn [cmd]. unfold strlcpy. cbn [Z.leb Z.compare MAX_PROTO_CMD].
    change (Z.to_nat (MAX_PROTO_CMD - 1)) with 9%nat.
    apply c_str_store.
    + rewrite length_take, length_replicate. unfold MAX_PROTO_CMD. lia.
    + apply Forall_take, c_str_nonzero.
  - reflexivity.
  - reflexivity.
  - intros k Hk. unfold param. cbn [params].
    destruct (Z.to_nat k) as [|[|[|[|n]]]] eqn:E; try lia; reflexivity.
  - reflexivity.
Qed.

(** X4: a fresh response.  Whatever the response packet held before, after
    [proto_init_response_pkt] it is well formed, carries the first nine
    bytes of the request's name, has exactly one parameter, the status
    "0", its other slots are empty and its checksum field is zero. *)
Theorem init_response_spec (pkt_rsp pkt_cmd : proto_pkt_t) :
  let r := proto_init_response_pkt pkt_rsp pkt_cmd in
  wf_pkt r /\
  c_str (cmd r) = take 9 (c_str (cmd pkt_cmd)) /\
  param_count r = 1 /\
  param r 0 = bytes "0" /\
  param r 1 = [] /\ param r 2 = [] /\ param r 3 = [] /\
  pkt_crc16 r = 0.
Proof.
  destruct (init_response_facts pkt_rsp pkt_cmd) as (H1 & H2 & H3 & H4 & H5 & H6).
  cbv zeta in *.
  split; [exact H1|]. split; [exact H2|]. split; [exact H3|]. split; [exact H4|].
  split; [apply H5; lia|]. split; [apply H5; lia|]. split; [apply H5; lia|exact H6].
Qed.

(** The status slot after [proto_set_response_pkt_error_code]. *)
Lemma set_error_code_facts (pkt : proto_pkt_t) (code : Z) :
  wf_pkt pkt ->
  -32768 <= code <= 32767 ->
  let r := proto_set_response_pkt_error_code pkt code in
  wf_pkt r /\
  cmd r = cmd pkt /\
  param_count r = Z.max 1 (param_count pkt) /\
  param r 0 = print_dec code /\
  (forall k, 1 <= k -> param r k = param pkt k).
Proof.
  intros Hwf Hcode. cbv zeta.
  destruct (print_dec_facts code Hcode) as (Hlen & Hnz & Hdec).
  pose proof Hwf as (W1 & W2 & W3 & W4).
  unfold proto_set_response_pkt_error_code.
  set (pkt' := if param_count pkt <=? 0 then set_param_count pkt 1 else pkt).
  assert (Hwf' : wf_pkt pkt').
  { unfold pkt'. destruct (param_count pkt <=? 0); [|exact Hwf].
    unfold wf_pkt, set_param_count. cbn. repeat split; try assumption; lia. }
  assert (Hc' : param_count pkt' = Z.max 1 (param_count pkt)).
  { unfold pkt'. destruct (Z.leb_spec (param_count pkt) 0); cbn; lia. }
  assert (Hcmd' : cmd pkt' = cmd pkt) by (unfold pkt'; destruct (_ <=? _); reflexivity).
  assert (Hpar' : params pkt' = params pkt) by (unfold pkt'; destruct (_ <=? _); reflexivity).
  split; [|split; [|split; [|split]]].
  - apply wf_alter_row; [exact Hwf'| |lia].
    intros row. apply length_store_bytes.
  - cbn [cmd]. exact Hcmd'.
  - cbn [param_count]. exact Hc'.
  - change 0%nat with (Z.to_nat 0).
    rewrite (param_alter_string pkt' (print_dec code) 0 0);
      [| exact Hwf' | unfold MAX_PROTO_PARAM_COUNT; lia | lia
       | unfold MAX_PROTO_PARAM_LEN; lia | exact Hnz].
    reflexivity.
  - intros k Hk. change 0%nat with (Z.to_nat 0).
    rewrite (param_alter_string pkt' (print_dec code) 0 k);
      [| exact Hwf' | unfold MAX_PROTO_PARAM_COUNT; lia | lia
       | unfold MAX_PROTO_PARAM_LEN; lia | exact Hnz].
    destruct (Z.eqb_spec k 0); [lia|]. unfold param. rewrite Hpar'. reflexivity.
Qed.

(** X5: the status slot.  For a well formed packet and any [int16_t]
    code, [proto_set_response_pkt_error_code] leaves a well formed
    packet whose slot 0 holds the decimal text of the code; the name and
    the other slots are as before and the count is raised to one when it
    was zero. *)
Theorem set_error_code_spec (pkt : proto_pkt_t) (code : Z) :
  wf_pkt pkt ->
  -32768 <= code <= 32767 ->
  let r := proto_set_response_pkt_error_code pkt code in
  wf_pkt r /\
  cmd r = cmd pkt /\
  param_count r = Z.max 1 (param_count pkt) /\
  decimal (param r 0) = Some code /\
  (forall k, 1 <= k -> param r k = param pkt k).
Proof.
  intros Hwf Hcode.
  destruct (set_error_code_facts pkt code Hwf Hcode) as (H1 & H2 & H3 & H4 & H5).
  destruct (print_dec_facts code Hcode) as (_ & _ & Hdec).
  cbv zeta in *.
  split; [exact H1|]. split; [exact H2|]. split; [exact H3|].
  split; [rewrite H4; exact Hdec|exact H5].
Qed.

Lemma set_error_code_spec_witness :
  let r := proto_set_response_pkt_error_code zero_pkt ERR_PROTO_CP_MISSING_STX in
  wf_pkt r /\
  cmd r = cmd zero_pkt /\
  param_count r = Z.max 1 (param_count zero_pkt) /\
  decimal (param r 0) = Some ERR_PROTO_CP_MISSING_STX /\
  (forall k, 1 <= k -> param r k = param zero_pkt k).
Proof.
  apply (set_error_code_spec zero_pkt ERR_PROTO_CP_MISSING_STX).
  - exact wf_zero_pkt.
  - vm_compute. split; discriminate.
Defined.

(** Appending a parameter that finds room. *)
Lemma append_param_fits (pkt : proto_pkt_t) (value : list Z) :
  wf_pkt pkt ->
  param_count pkt < MAX_PROTO_PARAM_COUNT -> strlen value < MAX_PROTO_PARAM_LEN ->
  let r := proto_append_response_pkt_param pkt value in
  fst r = param_count pkt + 1 /\
  wf_pkt (snd r) /\
  cmd (snd r) = cmd pkt /\
  param_count (snd r) = param_count pkt + 1 /\
  param (snd r) (param_count pkt) = c_str value /\
  (forall k, 0 <= k -> k <> param_count pkt -> param (snd r) k = param pkt k).
Proof.
  intros Hwf H1 H2 r. subst r. pose proof Hwf as (W1 & W2 & W3 & W4).
  unfold proto_append_response_pkt_param.
  unfold MAX_PROTO_PARAM_COUNT, MAX_PROTO_PARAM_LEN in *.
  destruct (Z.gtb_spec (param_count pkt + 1) 4); [lia|].
  destruct (Z.gtb_spec (strlen value) 50); [lia|].
  cbn [fst snd set_param_count cmd params param_count pkt_crc16].
  unfold to_uint8. rewrite Z.mod_small by lia.
  rewrite to_int16_small by (unfold INT16_MAX; lia).
  assert (Hcopy : forall row,
             strlcpy row value 50 = store_bytes row 0 (c_str value ++ [0])).
  { intros row. unfold strlcpy. cbn [Z.leb Z.compare].
    rewrite take_ge by (unfold strlen in H2; lia). reflexivity. }
  rewrite (list_alter_ext _ (fun row => store_bytes row 0 (c_str value ++ [0]))
             (params pkt) (params pkt)) by (intros; auto).
  split; [reflexivity|]. split.
  { apply wf_alter_row; [exact Hwf| |lia]. intros row. apply length_store_bytes. }
  split; [reflexivity|]. split; [reflexivity|]. split.
  - rewrite param_alter_string;
      [| exact Hwf | unfold MAX_PROTO_PARAM_COUNT; lia | lia
       | unfold MAX_PROTO_PARAM_LEN, strlen in *; lia | apply c_str_nonzero].
    rewrite Z.eqb_refl. reflexivity.
  - intros k Hk Hne.
    rewrite param_alter_string;
      [| exact Hwf | unfold MAX_PROTO_PARAM_COUNT; lia | lia
       | unfold MAX_PROTO_PARAM_LEN, strlen in *; lia | apply c_str_nonzero].
    destruct (Z.eqb_spec k (param_count pkt)); [contradiction|reflexivity].
Qed.

(** X6: appending a parameter of fewer than fifty bytes.  With room in
    the packet the value lands unchanged in the next free slot, the count
    grows by one and is returned, and the name and the other slots stay;
    without room, or with a value of more than fifty bytes, the call
    returns a negative code and the packet stays as it was. *)
Theorem append_param_ok (pkt : proto_pkt_t) (value : list Z) :
  wf_pkt pkt ->
  let r := proto_append_response_pkt_param pkt value in
  (param_count pkt < MAX_PROTO_PARAM_COUNT -> strlen value < MAX_PROTO_PARAM_LEN ->
   fst r = param_count pkt + 1 /\
   wf_pkt (snd r) /\
   cmd (snd r) = cmd pkt /\
   param_count (snd r) = param_count pkt + 1 /\
   param (snd r) (param_count pkt) = c_str value /\
   (forall k, 0 <= k -> k <> param_count pkt -> param (snd r) k = param pkt k)) /\
  (MAX_PROTO_PARAM_COUNT <= param_count pkt \/ MAX_PROTO_PARAM_LEN < strlen value ->
   fst r < 0 /\ snd r = pkt).
Proof.
  intros Hwf r. subst r. split.
  - intros H1 H2. exact (append_param_fits pkt value Hwf H1 H2).
  - pose proof Hwf as (W1 & W2 & W3 & W4).
    unfold proto_append_response_pkt_param.
    unfold MAX_PROTO_PARAM_COUNT, MAX_PROTO_PARAM_LEN in *.
    intros H.
    destruct (Z.gtb_spec (param_count pkt + 1) 4);
      [cbn [fst snd]; split; [unfold ERR_PROTO_RB_TOO_MANY_PARAMS; lia|reflexivity]|].
    destruct (Z.gtb_spec (strlen value) 50);
      [cbn [fst snd]; split; [unfold ERR_PROTO_RB_PARAM_OVERFLOW; lia|reflexivity]|].
    lia.
Qed.

Lemma append_param_ok_witness :
  let r := proto_append_response_pkt_param zero_pkt (bytes "LEDSC_TEENSY_001") in
  (param_count zero_pkt < MAX_PROTO_PARAM_COUNT ->
   strlen (bytes "LEDSC_TEENSY_001") < MAX_PROTO_PARAM_LEN ->
   fst r = param_count zero_pkt + 1 /\
   wf_pkt (snd r) /\
   cmd (snd r) = cmd zero_pkt /\
   param_count (snd r) = param_count zero_pkt + 1 /\
   param (snd r) (param_count zero_pkt) = c_str (bytes "LEDSC_TEENSY_001") /\
   (forall k, 0 <= k -> k <> param_count zero_pkt -> param (snd r) k = param zero_pkt k)) /\
  (MAX_PROTO_PARAM_COUNT <= param_count zero_pkt
   \/ MAX_PROTO_PARAM_LEN < strlen (bytes "LEDSC_TEENSY_001") ->
   fst r < 0 /\ snd r = zero_pkt).
Proof. apply (append_param_ok zero_pkt (bytes "LEDSC_TEENSY_001")). exact wf_zero_pkt. Defined.

(** ** The decoder, path by path *)

Lemma near_load (len i : Z) : 0 <= i <= len -> near len (Load_buffer i) = true.
Proof. intros H. cbn [near]. rewrite andb_true_iff, !Z.leb_le. lia. Qed.

Lemma near_cmd (len i : Z) : 0 <= i <= MAX_PROTO_CMD -> near len (Store_cmd i) = true.
Proof. intros H. cbn [near]. rewrite andb_true_iff, !Z.leb_le. lia. Qed.

Lemma near_param (len slot i : Z) :
  0 <= slot < MAX_PROTO_PARAM_COUNT -> 0 <= i <= MAX_PROTO_PARAM_LEN ->
  near len (Store_param slot i) = true.
Proof. intros H1 H2. cbn [near]. rewrite !andb_true_iff, !Z.leb_le, Z.ltb_lt. lia. Qed.

Section Paths.

Variable buffer : memory.
Variable len : Z.
Hypothesis len_range : 0 < len <= 65535.

Lemma scan_stx_near (fuel : nat) :
  forall (pbi si : Z) (tr : list access),
    0 <= pbi < len -> all_near len tr -> all_near len (snd (scan_stx fuel buffer len pbi si tr)).
Proof.
  induction fuel as [|fuel IH]; intros pbi si tr Hp Htr; cbn [scan_stx].
  all: rewrite (to_uint16_small (pbi + 1)) by lia.
  all: assert (Htr' : all_near len (Load_buffer pbi :: tr))
         by (constructor; [apply near_load; lia|exact Htr]).
  - destruct (_ && _); exact Htr'.
  - destruct (negb _); cbn [andb]; [|exact Htr'].
    destruct (Z.ltb_spec (pbi + 1) len); [|exact Htr'].
    apply IH; [lia|exact Htr'].
Qed.

Lemma copy_cmd_near (fuel : nat) :
  forall (pbi i : Z) (pkt : proto_pkt_t) (tr : list access),
    0 <= pbi -> 0 <= i -> all_near len tr ->
    all_near len (snd (copy_cmd fuel buffer len pbi i pkt tr)).
Proof.
  unfold MAX_PROTO_CMD.
  induction fuel as [|fuel IH]; intros pbi i pkt tr Hp Hi Htr; cbn [copy_cmd].
  all: unfold MAX_PROTO_CMD.
  all: destruct (Z.ltb_spec pbi len) as [Hpl|Hpl]; cbn [andb]; [|exact Htr].
  all: destruct (Z.ltb_spec i 10) as [Hil|Hil]; cbn [andb]; [|exact Htr].
  all: assert (Htr' : all_near len (Load_buffer pbi :: tr))
         by (constructor; [apply near_load; lia|exact Htr]).
  - destruct (_ && _); exact Htr'.
  - destruct (_ && _); [|exact Htr'].
    rewrite to_uint16_small by lia.
    apply IH; [lia|lia|].
    constructor; [apply near_cmd; unfold MAX_PROTO_CMD; lia|exact Htr'].
Qed.

Lemma copy_param_near (fuel : nat) :
  forall (pbi pci : Z) (pkt : proto_pkt_t) (tr : list access),
    0 <= pbi -> 0 <= pci -> 0 <= param_count pkt < MAX_PROTO_PARAM_COUNT -> all_near len tr ->
    all_near len (snd (copy_param fuel buffer len pbi pci pkt tr)).
Proof.
  unfold MAX_PROTO_PARAM_COUNT.
  induction fuel as [|fuel IH]; intros pbi pci pkt tr Hp Hi Hc Htr; cbn [copy_param].
  all: unfold MAX_PROTO_PARAM_LEN.
  all: destruct (Z.ltb_spec pbi len) as [Hpl|Hpl]; cbn [andb]; [|exact Htr].
  all: destruct (Z.ltb_spec pci 50) as [Hil|Hil]; cbn [andb]; [|exact Htr].
  all: assert (Htr' : all_near len (Load_buffer pbi :: tr))
         by (constructor; [apply near_load; lia|exact Htr]).
  - destruct (_ && _); exact Htr'.
  - destruct (_ && _); [|exact Htr'].
    rewrite to_uint16_small by lia.
    apply IH; [lia|lia|rewrite param_count_set_param; exact Hc|].
    constructor; [|exact Htr'].
    apply near_param; unfold MAX_PROTO_PARAM_COUNT, MAX_PROTO_PARAM_LEN; lia.
Qed.

Lemma read_crc16Hex_near (fuel : nat) :
  forall (pbi i : Z) (hex : list Z) (tr : list access),
    0 <= pbi -> all_near len tr ->
    all_near len (snd (read_crc16Hex fuel buffer len pbi i hex tr)).
Proof.
  induction fuel as [|fuel IH]; intros pbi i hex tr Hp Htr; cbn [read_crc16Hex].
  - destruct (_ && _); exact Htr.
  - destruct (i <? 4); cbn [andb]; [|exact Htr].
    destruct (Z.ltb_spec pbi len); [|exact Htr].
    rewrite to_uint16_small by lia.
    apply IH; [lia|]. constructor; [apply near_load; lia|exact Htr].
Qed.

(** What the parameter loop keeps and where it stops: the packet stays
    well formed, name and checksum field stay, a count below four grows
    and does not pass four, and the loop ends at the end of the buffer,
    on an end marker, or with the count at four or more. *)
Lemma parse_params_inv (fuel : nat) :
  forall (pbi : Z) (pkt : proto_pkt_t) (tr : list access),
    0 <= pbi < len -> wf_pkt pkt -> (Z.to_nat (len - pbi) <= fuel)%nat ->
    exists p' pkt' tr',
      parse_params fuel buffer len pbi pkt tr = (p', pkt', tr') /\
      pbi < p' <= len /\
      cmd pkt' = cmd pkt /\ pkt_crc16 pkt' = pkt_crc16 pkt /\ wf_pkt pkt' /\
      (param_count pkt < MAX_PROTO_PARAM_COUNT ->
       param_count pkt < param_count pkt' <= MAX_PROTO_PARAM_COUNT) /\
      (p' < len -> buffer p' = PROTO_ETX \/ MAX_PROTO_PARAM_COUNT <= param_count pkt') /\
      (param_count pkt < MAX_PROTO_PARAM_COUNT -> all_near len tr -> all_near len tr').
Proof.
  unfold MAX_PROTO_PARAM_COUNT.
  induction fuel as [|fuel IH]; intros pbi pkt tr Hp Hwf Hfuel; [lia|].
  cbn [parse_params]. rewrite to_uint16_small by lia.
  destruct (copy_param_spec buffer len len_range (Z.to_nat len) (pbi + 1) 0 pkt tr)
    as (n & tr1 & E & Hn & Hn50 & _); [lia|lia|].
  assert (T1 : param_count pkt < 4 -> all_near len tr -> all_near len tr1).
  { intros Hc Htr.
    pose proof (copy_param_near (Z.to_nat len) (pbi + 1) 0 pkt tr) as T.
    rewrite E in T. apply T; [lia|lia| |exact Htr].
    destruct Hwf as (_ & _ & _ & W4). unfold MAX_PROTO_PARAM_COUNT. lia. }
  assert (T2 : param_count pkt < 4 -> all_near len tr ->
               all_near len (Store_param (param_count pkt) (0 + Z.of_nat n) :: tr1)).
  { intros Hc Htr. constructor; [|exact (T1 Hc Htr)].
    destruct Hwf as (_ & _ & _ & W4).
    apply near_param; [unfold MAX_PROTO_PARAM_COUNT; lia|].
    destruct n; [unfold MAX_PROTO_PARAM_LEN; lia|]. split; [lia|apply Hn50; lia]. }
  assert (T3 : pbi + 1 + Z.of_nat n < len -> param_count pkt < 4 -> all_near len tr ->
               all_near len (Load_buffer (pbi + 1 + Z.of_nat n)
                         :: Store_param (param_count pkt) (0 + Z.of_nat n) :: tr1)).
  { intros Hl Hc Htr. constructor; [apply near_load; lia|exact (T2 Hc Htr)]. }
  rewrite E; clear E. cbv zeta.
  rewrite !param_count_set_param. cbn [param_count].
  set (pkt1 := set_param_count _ _).
  assert (Hc1 : param_count pkt1 = to_uint8 (param_count pkt + 1)) by reflexivity.
  assert (Hr1 : 0 <= param_count pkt1 < 256) by (rewrite Hc1; apply Z.mod_pos_bound; lia).
  assert (Hwf1 : wf_pkt pkt1).
  { pose proof Hwf as (W1 & W2 & W3 & W4).
    unfold pkt1, set_param_count, set_param. cbn [cmd params param_count pkt_crc16].
    rewrite list_alter_alter_eq.
    apply wf_alter_row; [exact Hwf| |exact Hr1].
    intros row. cbn. rewrite length_aset, length_store_bytes. reflexivity. }
  assert (Hsmall : param_count pkt < 4 -> param_count pkt1 = param_count pkt + 1).
  { intros H. rewrite Hc1. unfold to_uint8. destruct Hwf as (_ & _ & _ & W4).
    apply Z.mod_small. lia. }
  destruct (Z.ltb_spec (pbi + 1 + Z.of_nat n) len) as [Hlt|Hge]; cbn [andb].
  2:{ eexists _, _, _. split; [reflexivity|]. split; [lia|].
      split; [reflexivity|]. split; [reflexivity|]. split; [exact Hwf1|].
      split; [intros H; rewrite (Hsmall H); lia|]. split; [lia|exact T2]. }
  specialize (T3 Hlt).
  destruct (Z.eqb_spec (buffer (pbi + 1 + Z.of_nat n)) PROTO_ETX) as [He|He]; cbn [negb andb].
  { eexists _, _, _. split; [reflexivity|]. split; [lia|].
    split; [reflexivity|]. split; [reflexivity|]. split; [exact Hwf1|].
    split; [intros H; rewrite (Hsmall H); lia|]. split; [auto|exact T3]. }
  fold pkt1. destruct (Z.ltb_spec (param_count pkt1) MAX_PROTO_PARAM_COUNT) as [Hc|Hc];
    unfold MAX_PROTO_PARAM_COUNT in Hc.
  2:{ eexists _, _, _. split; [reflexivity|]. split; [lia|].
      split; [reflexivity|]. split; [reflexivity|]. split; [exact Hwf1|].
      split; [intros H; rewrite (Hsmall H) in *; lia|]. split; [auto|exact T3]. }
  match goal with
  | |- context [parse_params fuel buffer len ?q ?k ?t] =>
      destruct (IH q k t)
        as (p' & pkt' & tr' & E & Hr & Hcmd & Hcrc & Hwf' & Hcnt & Hstop & Htrace);
        [lia|exact Hwf1|lia|]
  end.
  exists p', pkt', tr'. split; [exact E|]. split; [lia|].
  split; [rewrite Hcmd; reflexivity|]. split; [rewrite Hcrc; reflexivity|].
  split; [exact Hwf'|]. split; [|split; [exact Hstop|]].
  - intros H. specialize (Hcnt Hc). rewrite (Hsmall H) in Hcnt. lia.
  - intros H Htr. apply Htrace; [exact Hc|exact (T3 H Htr)].
Qed.

End Paths.

Section Paths2.

Variable buffer : memory.
Variable len : Z.
Hypothesis len_range : 0 < len <= 65535.

(** The four ways through the decoder, with the packet each one leaves;
    only the last one depends on the build.  [s] is the index of the
    first start marker and [n] the number of name bytes copied. *)
Lemma parse_paths (pkt : proto_pkt_t) :
  wf_pkt pkt ->
  let decode D behind := proto_parse_pkt_buffer D behind buffer len pkt in
  ((exists tr, all_near len tr /\ forall D behind,
      decode D behind = mk_result ERR_PROTO_CP_MISSING_STX (set_crc16 pkt 0) tr) /\
   forall j, 0 <= j < len - 1 -> buffer j <> PROTO_STX) \/
  exists (s : Z) (n : nat),
    0 <= s /\ s + 1 < len /\ buffer s = PROTO_STX /\
    (forall j, 0 <= j < s -> buffer j <> PROTO_STX) /\
    s + 1 + Z.of_nat n <= len /\ Z.of_nat n <= MAX_PROTO_CMD /\
    (forall j, s + 1 <= j < s + 1 + Z.of_nat n -> ~ delimiter (buffer j)) /\
    let pkt1 := named pkt (map buffer (zrange (s + 1) n)) in
    ((len <= s + 1 + Z.of_nat n /\
      exists tr, all_near len tr /\ forall D behind,
        decode D behind = mk_result ERR_PROTO_CP_MISSING_EFC pkt1 tr) \/
     (s + 1 + Z.of_nat n < len /\ Z.of_nat n = MAX_PROTO_CMD /\
      exists tr, all_near len tr /\ forall D behind,
        decode D behind = mk_result ERR_PROTO_CP_CMD_OVERFLOW pkt1 tr) \/
     (s + 1 + Z.of_nat n < len /\ Z.of_nat n < MAX_PROTO_CMD /\
      delimiter (buffer (s + 1 + Z.of_nat n)) /\
      exists p2 pkt2 tr,
        (forall D behind, decode D behind = finish D behind buffer len s p2 pkt2 tr) /\
        s + 1 + Z.of_nat n <= p2 <= len /\
        cmd pkt2 = cmd pkt1 /\ pkt_crc16 pkt2 = 0 /\ wf_pkt pkt2 /\
        (buffer (s + 1 + Z.of_nat n) = PROTO_ETX ->
         p2 = s + 1 + Z.of_nat n /\ pkt2 = pkt1) /\
        (buffer (s + 1 + Z.of_nat n) = PROTO_PSC ->
         s + 1 + Z.of_nat n < p2 /\
         (param_count pkt < MAX_PROTO_PARAM_COUNT ->
          param_count pkt < param_count pkt2 <= MAX_PROTO_PARAM_COUNT) /\
         (p2 < len -> buffer p2 = PROTO_ETX \/ MAX_PROTO_PARAM_COUNT <= param_count pkt2)) /\
        (param_count pkt < MAX_PROTO_PARAM_COUNT -> all_near len tr))).
Proof.
  intros Hwf decode. subst decode. cbv beta. unfold proto_parse_pkt_buffer.
  destruct (Z.leb_spec len 0) as [?|_]; [lia|].
  destruct (scan_stx_spec buffer len len_range (Z.to_nat len) 0 [])
    as (p & tr0 & E & Hp & Hno & Hst); [lia|lia|].
  assert (T0 : all_near len tr0).
  { pose proof (scan_stx_near buffer len len_range (Z.to_nat len) 0 0 []) as T.
    rewrite E in T. apply T; [lia|constructor]. }
  rewrite E; clear E.
  destruct (Z.geb_spec p len) as [Hge|Hlt].
  { left. split; [exists tr0; split; [exact T0|reflexivity]|].
    intros j Hj. apply Hno. lia. }
  right.
  destruct (copy_cmd_spec buffer len len_range (Z.to_nat len) p 0 (set_crc16 pkt 0) tr0)
    as (n & tr1 & E & Hn1 & Hn2 & Hn3 & Hn4); [lia|lia|].
  assert (T1 : all_near len tr1).
  { pose proof (copy_cmd_near buffer len len_range (Z.to_nat len) p 0 (set_crc16 pkt 0) tr0)
      as T.
    rewrite E in T. apply T; [lia|lia|exact T0]. }
  rewrite E; clear E. rewrite !Z.add_0_l in *.
  exists (p - 1), n. replace (p - 1 + 1) with p by lia.
  assert (Hn10 : Z.of_nat n <= MAX_PROTO_CMD).
  { destruct n; [unfold MAX_PROTO_CMD; lia|apply Hn2; lia]. }
  split; [lia|]. split; [lia|]. split; [auto|]. split; [exact Hno|].
  split; [lia|]. split; [exact Hn10|]. split; [exact Hn3|].
  cbv zeta.
  set (run := map buffer (zrange p n)).
  assert (Hpkt1 :
    set_cmd (mk_pkt (store_bytes (cmd (set_crc16 pkt 0)) 0 run) (params (set_crc16 pkt 0))
                    (param_count (set_crc16 pkt 0)) (pkt_crc16 (set_crc16 pkt 0)))
            (Z.of_nat n) 0 = named pkt run).
  { unfold named, set_cmd. cbn [cmd params param_count pkt_crc16 set_crc16].
    f_equal. rewrite store_bytes_app. unfold run. rewrite length_map, length_zrange.
    reflexivity. }
  rewrite Hpkt1.
  assert (Hwf1 : wf_pkt (named pkt run)).
  { destruct Hwf as (W1 & W2 & W3 & W4). unfold wf_pkt, named. cbn.
    rewrite length_store_bytes. repeat split; try assumption; lia. }
  set (tr2 := Store_cmd _ :: tr1).
  assert (T2 : all_near len tr2).
  { constructor; [apply near_cmd; lia|exact T1]. }
  destruct (Z.geb_spec (p + Z.of_nat n) len) as [Hge2|Hlt2].
  { left. split; [lia|]. exists tr2. split; [exact T2|reflexivity]. }
  right.
  destruct (Z.geb_spec (Z.of_nat n) MAX_PROTO_CMD) as [Hge3|Hlt3].
  { left. split; [lia|]. split; [lia|]. exists tr2. split; [exact T2|reflexivity]. }
  right. split; [lia|]. split; [lia|]. split; [apply Hn4; lia|].
  destruct (Z.eqb_spec (buffer (p + Z.of_nat n)) PROTO_ETX) as [He|He].
  { exists (p + Z.of_nat n), (named pkt run), tr2.
    split; [unfold finish; reflexivity|]. split; [lia|].
    split; [reflexivity|]. split; [reflexivity|]. split; [exact Hwf1|].
    split; [auto|]. split; [|intros _; exact T2].
    intros Hpsc. rewrite Hpsc in He. discriminate. }
  destruct (Z.eqb_spec (buffer (p + Z.of_nat n)) PROTO_PSC) as [Hs|Hs].
  - destruct (parse_params_inv buffer len len_range (Z.to_nat len) (p + Z.of_nat n)
                (named pkt run) tr2)
      as (p2 & pkt2 & tr3 & E & Hr & Hcmd & Hcrc & Hwf2 & Hcnt & Hstop & Htrace);
      [lia|exact Hwf1|lia|].
    rewrite E. exists p2, pkt2, tr3.
    split; [unfold finish; reflexivity|]. split; [lia|].
    split; [exact Hcmd|]. split; [exact Hcrc|]. split; [exact Hwf2|].
    split; [intros; contradiction|]. split; [|intros Hc; exact (Htrace Hc T2)].
    intros _. split; [lia|]. split; [exact Hcnt|exact Hstop].
  - exfalso. destruct (Hn4 Hlt2 Hlt3) as [?|?]; contradiction.
Qed.

End Paths2.

(** The checksum part touches only the checksum field. *)
Lemma check_crc16_out (behind : list Z) (buffer : memory) (len pbi si : Z)
    (pkt : proto_pkt_t) (tr : list access) :
  out (check_crc16 behind buffer len pbi si pkt tr)
    = set_crc16 pkt (crc16_buffer (pkt_crc16 pkt) buffer si pbi).
Proof.
  unfold check_crc16.
  destruct (read_crc16Hex _ _ _ _ _ _ _) as [[p' hex'] tr'].
  destruct (strtol16 _) as [v consumed]. cbv zeta.
  destruct (_ && _); [reflexivity|]. destruct (negb _); reflexivity.
Qed.

Lemma finish_out (D : bool) (behind : list Z) (buffer : memory) (len si pbi : Z)
    (pkt : proto_pkt_t) (tr : list access) :
  let r := finish D behind buffer len si pbi pkt tr in
  cmd (out r) = cmd pkt /\ params (out r) = params pkt /\
  param_count (out r) = param_count pkt /\
  (D = true -> pkt_crc16 (out r) = pkt_crc16 pkt).
Proof.
  unfold finish. destruct D; [repeat split; reflexivity|].
  cbv zeta. rewrite check_crc16_out. repeat split. discriminate.
Qed.

(** The four checksum characters move the index by at most four, and not
    past the end of the buffer. *)
Lemma read_crc16Hex_steps (buffer : memory) (len : Z) (fuel : nat) :
  forall (pbi i : Z) (hex : list Z) (tr : list access),
    0 <= pbi <= len + 1 -> len <= 65535 -> 0 <= i <= 4 ->
    exists p' hex' tr',
      read_crc16Hex fuel buffer len pbi i hex tr = (p', hex', tr') /\
      pbi <= p' <= pbi + (4 - i) /\ p' <= Z.max pbi len.
Proof.
  induction fuel as [|fuel IH]; intros pbi i hex tr Hp Hl Hi; cbn [read_crc16Hex].
  - destruct (_ && _); eexists _, _, _; (split; [reflexivity|lia]).
  - destruct (Z.ltb_spec i 4) as [Hi4|Hi4]; cbn [andb].
    2:{ eexists _, _, _. split; [reflexivity|lia]. }
    destruct (Z.ltb_spec pbi len) as [Hpl|Hpl].
    2:{ eexists _, _, _. split; [reflexivity|lia]. }
    rewrite to_uint16_small by lia.
    destruct (IH (pbi + 1) (i + 1) (aset hex i (buffer pbi)) (Load_buffer pbi :: tr))
      as (p' & hex' & tr' & E & H1 & H2); [lia|lia|lia|].
    exists p', hex', tr'. split; [exact E|lia].
Qed.

(** What the last part returns: the index after the end marker in the
    build without check; a checksum error or an index at most four further
    in the build that checks. *)
Lemma finish_ret (D : bool) (behind : list Z) (buffer : memory) (len si pbi : Z)
    (pkt : proto_pkt_t) (tr : list access) :
  0 <= pbi <= len -> len <= INT16_MAX - 1 ->
  let p3 := if buffer pbi =? PROTO_ETX then pbi + 1 else pbi in
  let r := finish D behind buffer len si pbi pkt tr in
  (D = true -> ret r = p3) /\
  (D = false ->
   ret r = ERR_PROTO_CP_MISSING_CRC16 \/ ret r = ERR_PROTO_CP_CRC16_MISMATCH \/
   (p3 <= ret r <= p3 + 4 /\ ret r <= Z.max p3 len)).
Proof.
  intros Hp Hl p3 r. unfold INT16_MAX in Hl. subst r. unfold finish.
  assert (E3 : (if buffer pbi =? PROTO_ETX then to_uint16 (pbi + 1) else pbi) = p3).
  { unfold p3. destruct (_ =? _); [apply to_uint16_small; lia|reflexivity]. }
  rewrite E3. assert (H3 : pbi <= p3 <= pbi + 1) by (unfold p3; destruct (_ =? _); lia).
  clearbody p3. destruct D.
  - split; [|discriminate]. intros _. cbn [ret]. apply to_int16_small. unfold INT16_MAX. lia.
  - split; [discriminate|]. intros _. unfold check_crc16.
    destruct (read_crc16Hex_steps buffer len 4 p3 0 [0; 0; 0; 0]
                (rev (map Load_buffer (map Z.of_nat (seq (Z.to_nat si) (Z.to_nat (p3 - si)))))
                   ++ Load_buffer pbi :: tr))
      as (p' & hex' & tr' & E & H1 & H2); [lia|lia|lia|].
    cbv zeta. rewrite E. destruct (strtol16 _) as [v consumed].
    destruct (_ && _); [left; reflexivity|].
    destruct (negb _); [right; left; reflexivity|].
    right; right. cbn [ret]. rewrite to_int16_small by (unfold INT16_MAX; lia). lia.
Qed.

Lemma check_crc16_trace (behind : list Z) (buffer : memory) (len pbi si : Z)
    (pkt : proto_pkt_t) (tr : list access) :
  trace (check_crc16 behind buffer len pbi si pkt tr)
    = snd (read_crc16Hex 4 buffer len pbi 0 [0; 0; 0; 0]
             (rev (map Load_buffer (map Z.of_nat (seq (Z.to_nat si) (Z.to_nat (pbi - si)))))
                ++ tr)).
Proof.
  unfold check_crc16.
  destruct (read_crc16Hex _ _ _ _ _ _ _) as [[p' hex'] tr'].
  destruct (strtol16 _) as [v consumed]. cbv zeta.
  destruct (_ && _); [reflexivity|]. destruct (negb _); reflexivity.
Qed.

(** The last part of the decoder reads the buffer at most one byte behind
    its end. *)
Lemma finish_near (D : bool) (behind : list Z) (buffer : memory) (len si pbi : Z)
    (pkt : proto_pkt_t) (tr : list access) :
  0 < len <= 65535 -> 0 <= si -> 0 <= pbi <= len -> all_near len tr ->
  all_near len (trace (finish D behind buffer len si pbi pkt tr)).
Proof.
  intros Hlen Hsi Hp Htr. unfold finish.
  assert (Htr' : all_near len (Load_buffer pbi :: tr))
    by (constructor; [apply near_load; lia|exact Htr]).
  destruct D; [exact Htr'|].
  set (p3 := if buffer pbi =? PROTO_ETX then to_uint16 (pbi + 1) else pbi).
  assert (H3 : 0 <= p3 <= len + 1).
  { unfold p3. destruct (_ =? _); [|lia]. unfold to_uint16.
    pose proof (Z.mod_pos_bound (pbi + 1) 65536 ltac:(lia)).
    pose proof (Z.mod_le (pbi + 1) 65536 ltac:(lia) ltac:(lia)). lia. }
  rewrite check_crc16_trace. apply read_crc16Hex_near; [exact Hlen|lia|].
  apply Forall_app. split; [|exact Htr'].
  apply Forall_rev. apply List.Forall_map. apply List.Forall_map.
  apply List.Forall_forall. intros k Hk. apply in_seq in Hk.
  apply near_load. lia.
Qed.

(** ** What the decoder leaves and returns *)

Lemma c_str_cut (v : list Z) :
  exists rest, v = c_str v ++ rest /\ (rest = [] \/ exists r, rest = 0 :: r).
Proof.
  induction v as [|c v (rest & E & H)]; [exists []; split; [reflexivity|left; reflexivity]|].
  cbn [c_str]. destruct (Z.eqb_spec c 0) as [->|Hc].
  - exists (0 :: v). split; [reflexivity|right; eauto].
  - exists rest. split; [cbn; f_equal; exact E|exact H].
Qed.

Lemma c_str_app_nul_any (v rest : list Z) : c_str (v ++ 0 :: rest) = c_str v.
Proof.
  induction v as [|c v IH]; [reflexivity|].
  cbn [c_str app]. destruct (c =? 0); [reflexivity|]. f_equal. exact IH.
Qed.

(** X7: the shape of the packet behind the decoder.  In a run of the
    decoder in which no store leaves its array, the arrays keep their
    sizes; a parameter count below four on entry is not lowered and does
    not pass four; the build without check leaves the checksum field at
    zero.  A store behind an array is left out: [params[3][50]] is the
    parameter count itself, and what the code does from there on is not
    what the lists of the model do. *)
Theorem decoder_keeps_packet_shape (D : bool) (behind : list Z) (buffer : memory) (len : Z)
    (pkt : proto_pkt_t) :
  wf_pkt pkt -> 0 < len <= 65535 ->
  let r := proto_parse_pkt_buffer D behind buffer len pkt in
  stores_inside (trace r) ->
  wf_pkt (out r) /\
  (param_count pkt < MAX_PROTO_PARAM_COUNT ->
   param_count pkt <= param_count (out r) <= MAX_PROTO_PARAM_COUNT) /\
  (D = true -> pkt_crc16 (out r) = 0).
Proof.
  intros Hwf Hlen r Hinside. subst r.
  assert (Hwf0 : forall name, wf_pkt (named pkt name)).
  { intros name. destruct Hwf as (W1 & W2 & W3 & W4). unfold wf_pkt, named. cbn.
    rewrite length_store_bytes. repeat split; try assumption; lia. }
  destruct (parse_paths buffer len Hlen pkt Hwf)
    as [[(tr & _ & E) _]|(s & n & _ & _ & _ & _ & _ & _ & _ & H)].
  { rewrite E. cbn [out]. split; [exact Hwf|]. split; [cbn; lia|reflexivity]. }
  cbv zeta in H.
  destruct H as [(_ & tr & _ & E)|[(_ & _ & tr & _ & E)|(_ & _ & Hd & p2 & pkt2 & tr & E & _ & _ & Hcrc & Hwf2 & He & Hs & _)]].
  - rewrite E. cbn [out]. split; [apply Hwf0|]. split; [cbn; lia|reflexivity].
  - rewrite E. cbn [out]. split; [apply Hwf0|]. split; [cbn; lia|reflexivity].
  - rewrite E.
    destruct (finish_out D behind buffer len s p2 pkt2 tr) as (F1 & F2 & F3 & F4).
    cbv zeta in F1, F2, F3, F4.
    split; [|split].
    + destruct Hwf2 as (W1 & W2 & W3 & W4). unfold wf_pkt.
      rewrite F1, F2, F3. exact (conj W1 (conj W2 (conj W3 W4))).
    + intros Hc. rewrite F3. destruct Hd as [Hd|Hd].
      * destruct (Hs Hd) as (_ & Hcnt & _). specialize (Hcnt Hc). lia.
      * destruct (He Hd) as (_ & ->). cbn. lia.
    + intros HD. rewrite (F4 HD). exact Hcrc.
Qed.

Lemma decoder_keeps_packet_shape_witness :
  let r := proto_parse_pkt_buffer true [] (mem_of (bytes "[CSB:44]")) 8 zero_pkt in
  wf_pkt (out r) /\
  (param_count zero_pkt < MAX_PROTO_PARAM_COUNT ->
   param_count zero_pkt <= param_count (out r) <= MAX_PROTO_PARAM_COUNT) /\
  (true = true -> pkt_crc16 (out r) = 0).
Proof.
  apply (decoder_keeps_packet_shape true [] (mem_of (bytes "[CSB:44]")) 8 zero_pkt).
  - exact wf_zero_pkt.
  - lia.
  - vm_compute. repeat constructor.
Defined.

(** X8: the name the decoder stores.  Whenever the decoder reports
    neither a missing start marker, nor a missing end of the name, nor a
    name overflow, the name field holds, as a C string of at most nine
    bytes without separator or end marker, the bytes that follow the first
    start marker of the buffer, up to the first separator, end marker or
    NUL. *)
Theorem decoded_name (D : bool) (behind : list Z) (buffer : memory) (len : Z)
    (pkt : proto_pkt_t) :
  wf_pkt pkt -> 0 < len <= 65535 ->
  let r := proto_parse_pkt_buffer D behind buffer len pkt in
  ret r <> ERR_PROTO_CP_MISSING_STX ->
  ret r <> ERR_PROTO_CP_MISSING_EFC ->
  ret r <> ERR_PROTO_CP_CMD_OVERFLOW ->
  exists s,
    0 <= s /\ buffer s = PROTO_STX /\ (forall j, 0 <= j < s -> buffer j <> PROTO_STX) /\
    let name := c_str (cmd (out r)) in
    let e := s + 1 + Z.of_nat (length name) in
    Z.of_nat (length name) < MAX_PROTO_CMD /\ plain name /\ holds buffer (s + 1) name /\
    e < len /\ (delimiter (buffer e) \/ buffer e = 0).
Proof.
  intros Hwf Hlen r H1 H2 H3. subst r.
  destruct (parse_paths buffer len Hlen pkt Hwf)
    as [[(tr & _ & E) _]|(s & n & Hs0 & Hs1 & Hstx & Hfirst & Hn & _ & Hpl & H)].
  { rewrite E in H1. contradiction H1. reflexivity. }
  cbv zeta in H.
  destruct H as [(_ & tr & _ & E)|[(_ & _ & tr & _ & E)|(Hlt & Hn9 & Hd & p2 & pkt2 & tr & E & _ & Hcmd & _)]].
  { rewrite E in H2. contradiction H2. reflexivity. }
  { rewrite E in H3. contradiction H3. reflexivity. }
  exists s. split; [exact Hs0|]. split; [exact Hstx|]. split; [exact Hfirst|].
  rewrite E.
  destruct (finish_out D behind buffer len s p2 pkt2 tr) as (F1 & _).
  cbv zeta in F1. rewrite F1, Hcmd. unfold named. cbn [cmd].
  set (run := map buffer (zrange (s + 1) n)).
  assert (Hlr : length run = n) by (unfold run; rewrite length_map, length_zrange; reflexivity).
  rewrite store_bytes_string
    by (destruct Hwf as (W1 & _); rewrite W1, Hlr; unfold MAX_PROTO_CMD in *; lia).
  rewrite c_str_app_nul_any.
  destruct (c_str_cut run) as (rest & Erun & Hrest).
  assert (Hlen' : (length (c_str run) + length rest)%nat = n).
  { rewrite <- Hlr. rewrite <- length_app. f_equal. symmetry. exact Erun. }
  assert (Hplain : plain run).
  { unfold plain, run. apply Forall_map_zrange. exact Hpl. }
  assert (Hholds : holds buffer (s + 1) run) by apply holds_zrange.
  rewrite Erun in Hplain, Hholds.
  apply Forall_app in Hplain as [Hplain _].
  apply holds_app in Hholds as [Hholds Hrest'].
  cbv zeta. split; [lia|]. split; [exact Hplain|]. split; [exact Hholds|].
  destruct Hrest as [->|[r ->]].
  - cbn [length] in Hlen'. replace (length (c_str run)) with n by lia.
    split; [lia|]. left. exact Hd.
  - cbn [length] in Hlen'. split; [lia|]. right.
    cbn [holds] in Hrest'. destruct Hrest' as [Hz _].
    exact Hz.
Qed.

Lemma decoded_name_witness :
  let r := proto_parse_pkt_buffer true [] (mem_of (bytes "..[CSB:44]")) 10 zero_pkt in
  exists s,
    0 <= s /\ mem_of (bytes "..[CSB:44]") s = PROTO_STX /\
    (forall j, 0 <= j < s -> mem_of (bytes "..[CSB:44]") j <> PROTO_STX) /\
    let name := c_str (cmd (out r)) in
    let e := s + 1 + Z.of_nat (length name) in
    Z.of_nat (length name) < MAX_PROTO_CMD /\ plain name /\
    holds (mem_of (bytes "..[CSB:44]")) (s + 1) name /\
    e < 10 /\ (delimiter (mem_of (bytes "..[CSB:44]") e) \/ mem_of (bytes "..[CSB:44]") e = 0).
Proof.
  apply (decoded_name true [] (mem_of (bytes "..[CSB:44]")) 10 zero_pkt).
  - exact wf_zero_pkt.
  - lia.
  - vm_compute. discriminate.
  - vm_compute. discriminate.
  - vm_compute. discriminate.
Defined.

(** X9: what the build without checksum check can return.  For a buffer
    of at most 32766 bytes the result is one of the three errors missing
    start marker, missing end of name and name overflow, all of which
    leave the parameter count as it was, or an index from 2 up to one past
    the length; at that index the decoder has just passed an end marker,
    or has used up the buffer, or has a parameter count of four or more.
    The two checksum errors never come out of this build. *)
Theorem unchecked_build_returns (behind : list Z) (buffer : memory) (len : Z)
    (pkt : proto_pkt_t) :
  wf_pkt pkt -> 0 < len <= INT16_MAX - 1 ->
  let r := proto_parse_pkt_buffer true behind buffer len pkt in
  ((ret r = ERR_PROTO_CP_MISSING_STX \/ ret r = ERR_PROTO_CP_MISSING_EFC \/
    ret r = ERR_PROTO_CP_CMD_OVERFLOW) /\
   param_count (out r) = param_count pkt) \/
  (2 <= ret r <= len + 1 /\
   (buffer (ret r - 1) = PROTO_ETX \/ ret r = len \/
    MAX_PROTO_PARAM_COUNT <= param_count (out r))).
Proof.
  intros Hwf Hlen r. subst r.
  assert (Hlen' : 0 < len <= 65535) by (unfold INT16_MAX in Hlen; lia).
  destruct (parse_paths buffer len Hlen' pkt Hwf)
    as [[(tr & _ & E) _]|(s & n & Hs0 & Hs1 & Hstx & Hfirst & Hn & _ & Hpl & H)].
  { left. rewrite E. cbn [ret out]. split; [left; reflexivity|reflexivity]. }
  cbv zeta in H.
  destruct H as [(_ & tr & _ & E)|[(_ & _ & tr & _ & E)|(Hlt & Hn9 & Hd & p2 & pkt2 & tr & E & Hp2 & _ & _ & _ & He & Hs & _)]].
  { left. rewrite E. cbn [ret out]. split; [right; left; reflexivity|reflexivity]. }
  { left. rewrite E. cbn [ret out]. split; [right; right; reflexivity|reflexivity]. }
  right. rewrite E.
  destruct (finish_out true behind buffer len s p2 pkt2 tr) as (_ & _ & F3 & _).
  destruct (finish_ret true behind buffer len s p2 pkt2 tr) as (R & _); [lia|lia|].
  cbv zeta in F3, R. rewrite F3, (R eq_refl). clear R F3 E.
  destruct Hd as [Hd|Hd].
  - destruct (Hs Hd) as (Hgt & _ & Hstop).
    destruct (Z.eqb_spec (buffer p2) PROTO_ETX) as [Hetx|Hetx].
    + split; [lia|]. left. rewrite <- Hetx. f_equal. lia.
    + split; [lia|]. destruct (Z.eq_dec p2 len) as [->|Hne]; [right; left; reflexivity|].
      destruct Hstop as [?|?]; [lia|contradiction|right; right; assumption].
  - destruct (He Hd) as (-> & _). rewrite Hd, Z.eqb_refl.
    split; [lia|]. left. rewrite <- Hd. f_equal. lia.
Qed.

Lemma unchecked_build_returns_witness :
  let r := proto_parse_pkt_buffer true [] (mem_of (bytes "[CSB:44]")) 8 zero_pkt in
  ((ret r = ERR_PROTO_CP_MISSING_STX \/ ret r = ERR_PROTO_CP_MISSING_EFC \/
    ret r = ERR_PROTO_CP_CMD_OVERFLOW) /\
   param_count (out r) = param_count zero_pkt) \/
  (2 <= ret r <= 8 + 1 /\
   (mem_of (bytes "[CSB:44]") (ret r - 1) = PROTO_ETX \/ ret r = 8 \/
    MAX_PROTO_PARAM_COUNT <= param_count (out r))).
Proof.
  apply (unchecked_build_returns [] (mem_of (bytes "[CSB:44]")) 8 zero_pkt).
  - exact wf_zero_pkt.
  - vm_compute. split; [reflexivity|discriminate].
Defined.

(** X10: the two builds side by side.  The build that checks the
    checksum stores the same name, parameters and parameter count as the
    build that does not.  Where the unchecked build reports an error the
    checked build gives the very same result; where it returns an index
    the checked build returns a checksum error or an index at most four
    further, inside the buffer or where the unchecked build stopped. *)
Theorem builds_agree (behind : list Z) (buffer : memory) (len : Z) (pkt : proto_pkt_t) :
  wf_pkt pkt -> 0 < len <= INT16_MAX - 1 ->
  let u := proto_parse_pkt_buffer true behind buffer len pkt in
  let c := proto_parse_pkt_buffer false behind buffer len pkt in
  cmd (out c) = cmd (out u) /\ params (out c) = params (out u) /\
  param_count (out c) = param_count (out u) /\
  (ret u < 0 -> c = u) /\
  (0 <= ret u ->
   ret c = ERR_PROTO_CP_MISSING_CRC16 \/ ret c = ERR_PROTO_CP_CRC16_MISMATCH \/
   (ret u <= ret c <= ret u + 4 /\ ret c <= Z.max (ret u) len)).
Proof.
  intros Hwf Hlen u c. subst u c.
  assert (Hlen' : 0 < len <= 65535) by (unfold INT16_MAX in Hlen; lia).
  assert (Herr : forall e p tr,
    e < 0 ->
    (forall D b, proto_parse_pkt_buffer D b buffer len pkt = mk_result e p tr) ->
    let u := proto_parse_pkt_buffer true behind buffer len pkt in
    let c := proto_parse_pkt_buffer false behind buffer len pkt in
    cmd (out c) = cmd (out u) /\ params (out c) = params (out u) /\
    param_count (out c) = param_count (out u) /\
    (ret u < 0 -> c = u) /\
    (0 <= ret u ->
     ret c = ERR_PROTO_CP_MISSING_CRC16 \/ ret c = ERR_PROTO_CP_CRC16_MISMATCH \/
     (ret u <= ret c <= ret u + 4 /\ ret c <= Z.max (ret u) len))).
  { intros e p tr He E. cbv zeta. rewrite !E. cbn [ret out].
    repeat split; try reflexivity. intros. lia. }
  destruct (parse_paths buffer len Hlen' pkt Hwf)
    as [[(tr & _ & E) _]|(s & n & Hs0 & Hs1 & Hstx & Hfirst & Hn & _ & Hpl & H)].
  { eapply Herr; [|exact E]. unfold ERR_PROTO_CP_MISSING_STX; lia. }
  cbv zeta in H.
  destruct H as [(_ & tr & _ & E)|[(_ & _ & tr & _ & E)|(Hlt & Hn9 & Hd & p2 & pkt2 & tr & E & Hp2 & _)]].
  { eapply Herr; [|exact E]. unfold ERR_PROTO_CP_MISSING_EFC; lia. }
  { eapply Herr; [|exact E]. unfold ERR_PROTO_CP_CMD_OVERFLOW; lia. }
  rewrite !E.
  destruct (finish_out true behind buffer len s p2 pkt2 tr) as (U1 & U2 & U3 & _).
  destruct (finish_out false behind buffer len s p2 pkt2 tr) as (C1 & C2 & C3 & _).
  destruct (finish_ret true behind buffer len s p2 pkt2 tr) as (RU & _); [lia|lia|].
  destruct (finish_ret false behind buffer len s p2 pkt2 tr) as (_ & RC); [lia|lia|].
  cbv zeta in U1, U2, U3, C1, C2, C3, RU, RC.
  rewrite U1, U2, U3, C1, C2, C3, (RU eq_refl).
  split; [reflexivity|]. split; [reflexivity|]. split; [reflexivity|].
  split.
  - intros Hneg. destruct (buffer p2 =? PROTO_ETX); lia.
  - intros _. exact (RC eq_refl).
Qed.

Lemma builds_agree_witness :
  let u := proto_parse_pkt_buffer true [] (mem_of (bytes "[CSB:44]")) 8 zero_pkt in
  let c := proto_parse_pkt_buffer false [] (mem_of (bytes "[CSB:44]")) 8 zero_pkt in
  cmd (out c) = cmd (out u) /\ params (out c) = params (out u) /\
  param_count (out c) = param_count (out u) /\
  (ret u < 0 -> c = u) /\
  (0 <= ret u ->
   ret c = ERR_PROTO_CP_MISSING_CRC16 \/ ret c = ERR_PROTO_CP_CRC16_MISMATCH \/
   (ret u <= ret c <= ret u + 4 /\ ret c <= Z.max (ret u) 8)).
Proof.
  apply (builds_agree [] (mem_of (bytes "[CSB:44]")) 8 zero_pkt).
  - exact wf_zero_pkt.
  - vm_compute. split; [reflexivity|discriminate].
Defined.

(** Every access the decoder makes without checksum check is [near],
    for a packet that counts fewer than four parameters on entry. *)
Lemma unchecked_trace_near (behind : list Z) (buffer : memory) (len : Z) (pkt : proto_pkt_t) :
  wf_pkt pkt -> param_count pkt < MAX_PROTO_PARAM_COUNT -> 0 < len <= 65535 ->
  all_near len (trace (proto_parse_pkt_buffer true behind buffer len pkt)).
Proof.
  intros Hwf Hcount Hlen.
  destruct (parse_paths buffer len Hlen pkt Hwf)
    as [[(tr & T & E) _]|(s & n & Hs0 & _ & _ & _ & Hn & _ & _ & H)].
  { rewrite E. exact T. }
  cbv zeta in H.
  destruct H as [(_ & tr & T & E)|[(_ & _ & tr & T & E)
                |(_ & _ & _ & p2 & pkt2 & tr & E & Hp2 & _ & _ & _ & _ & _ & T)]].
  - rewrite E. exact T.
  - rewrite E. exact T.
  - rewrite E. apply finish_near; [exact Hlen|exact Hs0|lia|exact (T Hcount)].
Qed.

(** X27: the first overrun of the decoder is by one element.  Take the
    build without checksum check and a packet that counts fewer than four
    parameters on entry, and read the accesses of a run in their order.
    An access in front of which no store has left its array stays inside
    its array or touches the element just behind its end: the buffer is
    read at an index from 0 to [len], the name is written at an index from
    0 to 10, a parameter is written in a slot from 0 to 3 at an index from
    0 to 50.  Up to the first store that leaves an array the model goes the
    way of the code; of what follows such a store nothing is said. *)
Theorem decoder_overruns_by_at_most_one (behind : list Z) (buffer : memory) (len : Z)
    (pkt : proto_pkt_t) (pre post : list access) (a : access) :
  wf_pkt pkt -> param_count pkt < MAX_PROTO_PARAM_COUNT -> 0 < len <= 65535 ->
  rev (trace (proto_parse_pkt_buffer true behind buffer len pkt)) = pre ++ a :: post ->
  stores_inside pre ->
  near len a = true.
Proof.
  intros Hwf Hcount Hlen Hrun Hpre.
  pose proof (unchecked_trace_near behind buffer len pkt Hwf Hcount Hlen) as Hall.
  unfold all_near in Hall. apply Forall_rev in Hall. rewrite Hrun in Hall.
  apply Forall_app in Hall as [_ Hall].
  inversion Hall as [|? ? Ha _]. exact Ha.
Qed.

Lemma decoder_overruns_by_at_most_one_witness :
  near 12 (Store_cmd 10) = true.
Proof.
  apply (decoder_overruns_by_at_most_one [] (mem_of (bytes "[ABCDEFGHIJ]")) 12 zero_pkt
           (removelast (rev (trace (proto_parse_pkt_buffer true []
                                      (mem_of (bytes "[ABCDEFGHIJ]")) 12 zero_pkt))))
           [] (Store_cmd 10)).
  - exact wf_zero_pkt.
  - vm_compute. reflexivity.
  - lia.
  - vm_compute. reflexivity.
  - vm_compute. repeat constructor.
Defined.

(** ** Frames in the build without checksum check *)

(** A frame body anywhere in the buffer, behind bytes that hold no start
    marker and in front of any bytes at all: the build without check
    returns the index behind the end marker, stores the name, and appends
    the parameters to those the packet already counts. *)
Lemma decode_body (behind : list Z) (buffer : memory) (len s : Z) (name : list Z)
    (ps : list (list Z)) (q : proto_pkt_t) :
  wf_pkt q -> 0 <= param_count q ->
  param_count q + Z.of_nat (length ps) <= MAX_PROTO_PARAM_COUNT ->
  0 <= s -> (forall j, 0 <= j < s -> buffer j <> PROTO_STX) ->
  holds buffer s (frame_body name ps) ->
  s + Z.of_nat (length (frame_body name ps)) <= len <= INT16_MAX - 1 ->
  Z.of_nat (length name) < MAX_PROTO_CMD -> Forall (fun c => c <> 0) name -> plain name ->
  Forall fits ps ->
  let r := proto_parse_pkt_buffer true behind buffer len q in
  ret r = s + Z.of_nat (length (frame_body name ps)) /\
  c_str (cmd (out r)) = name /\
  out r = fill_params (named q name) ps.
Proof.
  intros Hwf Hq0 Hcount Hs Hno Hholds Hlen Hname Hnz Hplain Hfits r.
  set (tail := concat (map (cons PROTO_PSC) ps)).
  assert (Hbody : frame_body name ps = PROTO_STX :: name ++ tail ++ [PROTO_ETX]) by reflexivity.
  pose proof (length_params_bytes ps Hfits) as Htail. fold tail in Htail.
  assert (HL : Z.of_nat (length (frame_body name ps))
               = 1 + Z.of_nat (length name) + Z.of_nat (length tail) + 1).
  { rewrite Hbody. cbn [length]. rewrite !length_app. cbn [length]. lia. }
  rewrite HL in *. rewrite Hbody in Hholds. clear Hbody HL.
  unfold MAX_PROTO_CMD, MAX_PROTO_PARAM_COUNT, MAX_PROTO_PARAM_LEN, INT16_MAX in *.
  assert (Hrange : 0 < len <= 65535) by lia.
  destruct Hholds as [Hstx Hholds].
  apply holds_app in Hholds as [Hhname Hholds].
  apply holds_app in Hholds as [Hhtail Hholds].
  destruct Hholds as [Hetx _].
  set (pN := s + 1 + Z.of_nat (length name)) in *.
  set (pE := pN + Z.of_nat (length tail)) in *.
  (* the start marker *)
  subst r. unfold proto_parse_pkt_buffer.
  destruct (Z.leb_spec len 0); [lia|].
  destruct (scan_stx_spec buffer len Hrange (Z.to_nat len) 0 [])
    as (p & tr0 & E & Hp & Hnop & Hst); [lia|lia|].
  assert (p = s + 1) as ->.
  { destruct (Z.lt_trichotomy (p - 1) s) as [Hlt|[Heq|Hgt]]; [|lia|].
    - exfalso. apply (Hno (p - 1)); [lia|]. apply Hst. lia.
    - exfalso. apply (Hnop s); [lia|exact Hstx]. }
  rewrite E; clear E Hnop Hst Hp.
  destruct (Z.geb_spec (s + 1) len); [lia|].
  (* the name *)
  assert (Hdelim : delimiter (buffer pN)).
  { unfold tail in Hhtail, pE. destruct ps as [|v vs].
    - cbn [map concat length] in *. unfold pE in Hetx. rewrite Z.add_0_r in Hetx.
      right. exact Hetx.
    - cbn [map concat app] in Hhtail. destruct Hhtail as [Hpsc _]. left. exact Hpsc. }
  destruct (copy_cmd_spec buffer len Hrange (Z.to_nat len) (s + 1) 0 (set_crc16 q 0) tr0)
    as (n & tr1 & E & H1 & H2 & H3 & H4); [lia|lia|].
  assert (n = length name) as ->.
  { apply (run_length buffer len (s + 1) 10 name n); try assumption;
      unfold MAX_PROTO_CMD in *; fold pN; lia. }
  rewrite E, (holds_map_zrange buffer name (s + 1) Hhname). clear E H1 H2 H3 H4.
  rewrite !Z.add_0_l. fold pN.
  destruct (Z.geb_spec pN len); [lia|].
  destruct (Z.geb_spec (Z.of_nat (length name)) MAX_PROTO_CMD);
    [unfold MAX_PROTO_CMD in *; lia|].
  assert (Hpkt1 :
    set_cmd (mk_pkt (store_bytes (cmd (set_crc16 q 0)) 0 name) (params (set_crc16 q 0))
                    (param_count (set_crc16 q 0)) (pkt_crc16 (set_crc16 q 0)))
            (Z.of_nat (length name)) 0 = named q name).
  { unfold named, set_cmd. cbn [cmd params param_count pkt_crc16 set_crc16].
    f_equal. rewrite store_bytes_app. reflexivity. }
  rewrite Hpkt1. clear Hpkt1.
  set (pkt1 := named q name).
  assert (Hwf1 : wf_pkt pkt1).
  { destruct Hwf as (W1 & W2 & W3 & W4). unfold wf_pkt, pkt1, named. cbn.
    rewrite length_store_bytes. repeat split; try assumption; lia. }
  assert (Hc1 : param_count pkt1 = param_count q) by reflexivity.
  assert (Hcmd1 : c_str (cmd pkt1) = name).
  { unfold pkt1, named. cbn [cmd].
    apply c_str_store; [|exact Hnz].
    destruct Hwf as (W1 & _). rewrite W1. unfold MAX_PROTO_CMD. lia. }
  set (tr2 := Store_cmd _ :: tr1).
  (* the parameters *)
  assert (Hbody : exists tr3,
             (if buffer pN =? PROTO_ETX
              then (pN, pkt1, tr2)
              else if buffer pN =? PROTO_PSC
                   then parse_params (Z.to_nat len) buffer len pN pkt1 tr2
                   else (pN, pkt1, tr2))
             = (pE, fill_params pkt1 ps, tr3)).
  { unfold tail in *. destruct ps as [|v vs].
    - cbn [map concat length] in *. unfold pE in *. rewrite Z.add_0_r in *.
      rewrite Hetx, Z.eqb_refl. exists tr2. reflexivity.
    - pose proof Hhtail as Hh. cbn [map concat app] in Hh. destruct Hh as [Hpsc _].
      rewrite Hpsc. change (PROTO_PSC =? PROTO_ETX) with false.
      change (PROTO_PSC =? PROTO_PSC) with true. cbv iota.
      destruct (parse_params_run buffer len Hrange vs v (Z.to_nat len) pN pkt1 tr2)
        as [tr3 E].
      + cbn [map concat app] in Hhtail.
        rewrite app_assoc, app_comm_cons.
        apply holds_app. split; [exact Hhtail|].
        cbn [holds]. split; [|exact I].
        cbn [length] in *. rewrite length_app in *. cbn [length] in *.
        rewrite <- Hetx. f_equal. unfold pE.
        cbn [map concat app length]. rewrite ?length_app. cbn [length]. lia.
      + unfold pN. lia.
      + unfold pE in *. cbn [map concat app length] in *.
        rewrite ?length_app in *. cbn [length] in *. lia.
      + exact Hfits.
      + exact Hwf1.
      + lia.
      + cbn [length] in Hcount. unfold MAX_PROTO_PARAM_COUNT. lia.
      + cbn [length] in Hcount. cbn [map concat app length] in Hlen. lia.
      + exists tr3. rewrite E. f_equal. f_equal. unfold pE.
        cbn [map concat app length]. rewrite ?length_app. cbn [length]. lia. }
  destruct Hbody as [tr3 E]. rewrite E. clear E.
  destruct (fill_params_fields ps pkt1) as (Fcmd & Fcrc & Fcount).
  rewrite Hetx, Z.eqb_refl. rewrite to_uint16_small by (unfold pE, pN; lia).
  cbn [ret out].
  rewrite to_int16_small by (unfold INT16_MAX, pE, pN; lia).
  split; [unfold pE, pN; lia|]. split; [rewrite Fcmd; exact Hcmd1|reflexivity].
Qed.

(** X11: a frame among other bytes, in the build without checksum check.
    Bytes in front of the frame that hold no start marker are skipped, the
    bytes behind its end marker are not looked at: the call returns the
    index behind the end marker and stores the name.  The parameters are
    written behind those the packet already counts, whose slots stay as
    they were. *)
Theorem frame_among_other_bytes (behind noise name trailer : list Z) (ps : list (list Z))
    (q : proto_pkt_t) :
  wf_pkt q -> 0 <= param_count q ->
  param_count q + Z.of_nat (length ps) <= MAX_PROTO_PARAM_COUNT ->
  Forall (fun c => c <> PROTO_STX) noise ->
  Z.of_nat (length name) < MAX_PROTO_CMD -> Forall (fun c => c <> 0) name -> plain name ->
  Forall fits ps ->
  Z.of_nat (length (noise ++ frame_body name ps ++ trailer)) <= INT16_MAX - 1 ->
  let buf := noise ++ frame_body name ps ++ trailer in
  let r := proto_parse_pkt_buffer true behind (mem_of buf) (Z.of_nat (length buf)) q in
  ret r = Z.of_nat (length noise) + Z.of_nat (length (frame_body name ps)) /\
  c_str (cmd (out r)) = name /\
  param_count (out r) = param_count q + Z.of_nat (length ps) /\
  (forall k, 0 <= k < param_count q -> param (out r) k = param q k) /\
  (forall k, 0 <= k < Z.of_nat (length ps) ->
     param (out r) (param_count q + k) = nth (Z.to_nat k) ps []).
Proof.
  intros Hwf Hq0 Hcount Hnoise Hname Hnz Hplain Hfits Hlen buf r.
  destruct (decode_body behind (mem_of buf) (Z.of_nat (length buf)) (Z.of_nat (length noise))
              name ps q) as (R1 & R2 & R3); try assumption.
  - lia.
  - intros j Hj. unfold buf, mem_of.
    destruct (Z.ltb_spec j 0); [lia|].
    rewrite lookup_app_l by lia.
    destruct (noise !! Z.to_nat j) as [c|] eqn:E.
    + cbn. rewrite Forall_forall in Hnoise. apply Hnoise.
      apply list_elem_of_lookup. eauto.
    + apply lookup_ge_None in E. lia.
  - apply holds_mem_of.
  - split; [|exact Hlen]. unfold buf. rewrite !length_app. lia.
  - fold r in R1, R2, R3. split; [exact R1|]. split; [exact R2|].
    assert (Hwf1 : wf_pkt (named q name)).
    { destruct Hwf as (W1 & W2 & W3 & W4). unfold wf_pkt, named. cbn.
      rewrite length_store_bytes. repeat split; try assumption; lia. }
    rewrite R3.
    destruct (fill_params_fields ps (named q name)) as (_ & _ & Fcount).
    split; [exact Fcount|]. split.
    + intros k Hk. rewrite param_fill_params; try assumption; try lia.
      cbn [named param_count].
      destruct (Z.ltb_spec k (param_count q)); [reflexivity|lia].
    + intros k Hk. rewrite param_fill_params; try assumption; try lia.
      cbn [named param_count].
      destruct (Z.ltb_spec (param_count q + k) (param_count q)); [lia|].
      destruct (Z.ltb_spec (param_count q + k) (param_count q + Z.of_nat (length ps))); [|lia].
      f_equal. f_equal. lia.
Qed.

Lemma frame_among_other_bytes_witness :
  let buf := bytes "ab" ++ frame_body (bytes "CSB") [bytes "44"] ++ bytes "1F2E" in
  let r := proto_parse_pkt_buffer true [] (mem_of buf) (Z.of_nat (length buf)) zero_pkt in
  ret r = Z.of_nat (length (bytes "ab")) + Z.of_nat (length (frame_body (bytes "CSB") [bytes "44"])) /\
  c_str (cmd (out r)) = bytes "CSB" /\
  param_count (out r) = param_count zero_pkt + Z.of_nat (length [bytes "44"]) /\
  (forall k, 0 <= k < param_count zero_pkt -> param (out r) k = param zero_pkt k) /\
  (forall k, 0 <= k < Z.of_nat (length [bytes "44"]) ->
     param (out r) (param_count zero_pkt + k) = nth (Z.to_nat k) [bytes "44"] []).
Proof.
  apply (frame_among_other_bytes [] (bytes "ab") (bytes "CSB") (bytes "1F2E") [bytes "44"]
           zero_pkt).
  - exact wf_zero_pkt.
  - vm_compute. discriminate.
  - vm_compute. discriminate.
  - vm_compute. repeat constructor; discriminate.
  - vm_compute. reflexivity.
  - vm_compute. repeat constructor; discriminate.
  - vm_compute. repeat constructor; intros [H|H]; discriminate.
  - vm_compute. repeat constructor; try discriminate; intros [H|H]; discriminate.
  - vm_compute. discriminate.
Defined.

(** ** The accumulator *)

Lemma wf_set_error_code (pkt : proto_pkt_t) (code : Z) :
  wf_pkt pkt -> wf_pkt (proto_set_response_pkt_error_code pkt code).
Proof.
  intros Hwf. unfold proto_set_response_pkt_error_code.
  set (pkt' := if param_count pkt <=? 0 then set_param_count pkt 1 else pkt).
  assert (Hwf' : wf_pkt pkt').
  { unfold pkt'. destruct Hwf as (W1 & W2 & W3 & W4).
    destruct (param_count pkt <=? 0); [|exact (conj W1 (conj W2 (conj W3 W4)))].
    unfold wf_pkt, set_param_count. cbn. repeat split; try assumption; lia. }
  apply wf_alter_row; [exact Hwf'| |destruct Hwf' as (_ & _ & _ & W4); exact W4].
  intros row. apply length_store_bytes.
Qed.

(** What an error response changes: the response packet and the output. *)
Lemma respond_error_fields (d : device) (code : Z) :
  cib_len (respond_error d code) = cib_len d /\
  char_in_buffer (respond_error d code) = char_in_buffer d /\
  pkt_receive (respond_error d code) = pkt_receive d /\
  wf_pkt (pkt_response (respond_error d code)) /\
  serial_out (respond_error d code) = serial_out d ++ error_report d code.
Proof.
  unfold respond_error, error_report.
  pose proof (init_response_facts (pkt_response d) (pkt_receive d)) as (Hwf & _).
  cbv zeta in Hwf. apply (wf_set_error_code _ code) in Hwf.
  unfold proto_print_response_pkt at 1.
  destruct (if param_count _ >? 0 then _ else _) as [wr crc].
  cbn [cib_len char_in_buffer pkt_receive pkt_response serial_out].
  split; [reflexivity|]. split; [reflexivity|]. split; [reflexivity|]. split.
  - destruct Hwf as (W1 & W2 & W3 & W4). exact (conj W1 (conj W2 (conj W3 W4))).
  - unfold proto_print_response_pkt.
    destruct (if param_count _ >? 0 then _ else _) as [wr' crc'] eqn:E'.
    reflexivity.
Qed.

Lemma decoder_wf (D : bool) (behind : list Z) (buffer : memory) (len : Z) (pkt : proto_pkt_t) :
  wf_pkt pkt -> len <= 65535 ->
  wf_pkt (out (proto_parse_pkt_buffer D behind buffer len pkt)).
Proof.
  intros Hwf Hlen. destruct (Z.leb_spec len 0) as [Hle|Hgt].
  { unfold proto_parse_pkt_buffer. destruct (Z.leb_spec len 0); [exact Hwf|lia]. }
  assert (Hwf0 : forall name, wf_pkt (named pkt name)).
  { intros name. destruct Hwf as (W1 & W2 & W3 & W4). unfold wf_pkt, named. cbn.
    rewrite length_store_bytes. repeat split; try assumption; lia. }
  destruct (parse_paths buffer len (conj Hgt Hlen) pkt Hwf)
    as [[(tr & _ & E) _]|(s & n & _ & _ & _ & _ & _ & _ & _ & H)].
  { rewrite E. exact Hwf. }
  cbv zeta in H.
  destruct H as [(_ & tr & _ & E)|[(_ & _ & tr & _ & E)|(_ & _ & _ & p2 & pkt2 & tr & E & _ & _ & _ & Hwf2 & _)]].
  - rewrite E. apply Hwf0.
  - rewrite E. apply Hwf0.
  - rewrite E.
    destruct (finish_out D behind buffer len s p2 pkt2 tr) as (F1 & F2 & F3 & _).
    cbv zeta in F1, F2, F3.
    destruct Hwf2 as (W1 & W2 & W3 & W4). unfold wf_pkt.
    rewrite F1, F2, F3. exact (conj W1 (conj W2 (conj W3 W4))).
Qed.

(** The loop, started with the buffer at most full, ends with room in the
    buffer and the arrays at their sizes; it returns a byte, leaves a rest
    of what was pending, only adds to the output, and returns nonzero only
    with the buffer cleared. *)
Lemma proc_input_loop_inv (D : bool) (behind pending : list Z) :
  forall d : device,
    0 <= cib_len d <= MAX_INPUT_BUFFER_LEN ->
    length (char_in_buffer d) = Z.to_nat MAX_INPUT_BUFFER_LEN ->
    wf_pkt (pkt_receive d) -> wf_pkt (pkt_response d) ->
    let r := proc_input_loop D behind pending d in
    wf_device (snd (fst r)) /\
    0 <= fst (fst r) < 256 /\
    (exists pre, pending = pre ++ snd r) /\
    (exists wr, serial_out (snd (fst r)) = serial_out d ++ wr) /\
    (fst (fst r) <> 0 -> cib_len (snd (fst r)) = 0).
Proof.
  unfold wf_device, MAX_INPUT_BUFFER_LEN, MAX_PROTO_PACKET_LEN.
  induction pending as [|ich pending IH]; intros d Hc Hb Hrcv Hrsp; cbv zeta.
  - cbn [proc_input_loop fst snd]. unfold overflow_check.
    unfold MAX_INPUT_BUFFER_LEN, MAX_PROTO_PACKET_LEN.
    destruct (Z.geb_spec (cib_len d) 256) as [Hfull|Hroom].
    + destruct (respond_error_fields d ERR_PROTO_CP_CMD_OVERFLOW) as (F1 & F2 & F3 & F4 & F5).
      unfold reset_input. cbn [cib_len char_in_buffer pkt_receive pkt_response serial_out].
      rewrite F3, F5. split.
      { split; [lia|]. split; [rewrite length_replicate; reflexivity|].
        split; [exact Hrcv|exact F4]. }
      split; [lia|]. split; [exists []; reflexivity|]. split; [eauto|reflexivity].
    + split; [split; [lia|split; [exact Hb|split; assumption]]|].
      split; [lia|]. split; [exists []; reflexivity|].
      split; [exists []; rewrite app_nil_r; reflexivity|intros H; contradiction H; reflexivity].
  - cbn [proc_input_loop].
    match goal with
    | |- context [if ?c then mk_device ?a ?b ?e ?f ?g else d] =>
        set (d1 := if c then mk_device a b e f g else d)
    end.
    assert (H1 : 0 <= cib_len d1 <= 256 /\ length (char_in_buffer d1) = Z.to_nat 256 /\
                 pkt_receive d1 = pkt_receive d /\ pkt_response d1 = pkt_response d /\
                 serial_out d1 = serial_out d).
    { unfold d1, MAX_INPUT_BUFFER_LEN, MAX_PROTO_PACKET_LEN.
      destruct (Z.ltb_spec (cib_len d) 256) as [Hlt|Hge]; cbn [andb];
        [|repeat split; try assumption; lia].
      destruct (negb (ich =? PROTO_CR) && negb (ich =? PROTO_NL));
        [|repeat split; try assumption; lia].
      cbn [cib_len char_in_buffer pkt_receive pkt_response serial_out].
      rewrite to_uint16_small by lia. rewrite length_aset.
      repeat split; try assumption; lia. }
    destruct H1 as (Hc1 & Hb1 & Hrcv1 & Hrsp1 & Hout1). clearbody d1.
    destruct (ich =? PROTO_CR).
    + set (res := proto_parse_pkt_buffer _ _ _ _ _).
      assert (Hwfres : wf_pkt (out res)).
      { apply decoder_wf; [rewrite Hrcv1; exact Hrcv|lia]. }
      destruct (Z.geb_spec (ret res) 0) as [Hok|Herr].
      * cbn [fst snd reset_input cib_len char_in_buffer pkt_receive pkt_response serial_out].
        unfold MAX_INPUT_BUFFER_LEN, MAX_PROTO_PACKET_LEN.
        split.
        { split; [lia|]. split; [rewrite length_replicate; reflexivity|].
          split; [exact Hwfres|rewrite Hrsp1; exact Hrsp]. }
        split; [unfold to_uint8; apply Z.mod_pos_bound; lia|].
        split; [exists [ich]; reflexivity|].
        split; [exists []; rewrite app_nil_r; exact Hout1|reflexivity].
      * match goal with
        | |- context [proc_input_loop D behind pending (respond_error ?d2 ?e)] =>
            destruct (respond_error_fields d2 e) as (F1 & F2 & F3 & F4 & F5);
            destruct (IH (respond_error d2 e)) as (I1 & I2 & (pre & I3) & (wr & I4) & I5)
        end.
        { rewrite F1. cbn. lia. }
        { rewrite F2. unfold reset_input. cbn [char_in_buffer].
          unfold MAX_INPUT_BUFFER_LEN, MAX_PROTO_PACKET_LEN. rewrite length_replicate. reflexivity. }
        { rewrite F3. exact Hwfres. }
        { exact F4. }
        split; [exact I1|]. split; [exact I2|].
        split; [exists (ich :: pre); cbn [app]; f_equal; exact I3|].
        split; [|exact I5].
        rewrite I4, F5. cbn [reset_input serial_out]. rewrite Hout1, <- app_assoc. eauto.
    + destruct (IH d1) as (I1 & I2 & (pre & I3) & (wr & I4) & I5); try assumption.
      { rewrite Hrcv1. exact Hrcv. }
      { rewrite Hrsp1. exact Hrsp. }
      split; [exact I1|]. split; [exact I2|].
      split; [exists (ich :: pre); cbn [app]; f_equal; exact I3|].
      split; [|exact I5]. rewrite I4, Hout1. eauto.
Qed.

(** The record is an addition: the loop does what it does without it. *)
Lemma proc_input_loop_traced_fst (D : bool) (behind pending : list Z) :
  forall d : device,
    fst (proc_input_loop_traced D behind pending d) = proc_input_loop D behind pending d.
Proof.
  induction pending as [|ich pending IH]; intros d; [reflexivity|].
  cbn [proc_input_loop_traced proc_input_loop].
  match goal with
  | |- context [if ?c then mk_device ?a ?b ?e ?f ?g else d] =>
      set (d1 := if c then mk_device a b e f g else d)
  end.
  destruct (ich =? PROTO_CR); [|apply IH].
  destruct (ret _ >=? 0); [reflexivity|].
  match goal with
  | |- context [proc_input_loop_traced D behind pending ?d2] =>
      specialize (IH d2); destruct (proc_input_loop_traced D behind pending d2) as [res tr]
  end.
  exact IH.
Qed.

(** X12: what a call of [proc_input] keeps.  Take a call whose decoder
    calls stay inside [char_in_buffer], [cmd] and [params] with every load
    and store.  Called with room in the input buffer and the arrays at
    their sizes, it returns with room in the buffer and the arrays at their
    sizes.  It returns a byte, leaves unread a rest of what was pending,
    only adds to what was written to the serial port, and returns nonzero
    only with the buffer length at zero.  Calls in which the decoder leaves
    an array are left out: there the code overwrites the neighbouring
    globals and the lists of the model do not follow it. *)
Theorem proc_input_keeps_device (D : bool) (behind : list Z) (serial_up : bool)
    (pending : list Z) (d : device) :
  wf_device d ->
  accesses_inside (snd (proc_input_traced D behind serial_up pending d)) ->
  let r := proc_input D behind serial_up pending d in
  fst (proc_input_traced D behind serial_up pending d) = r /\
  wf_device (snd (fst r)) /\
  0 <= fst (fst r) < 256 /\
  (exists pre, pending = pre ++ snd r) /\
  (exists wr, serial_out (snd (fst r)) = serial_out d ++ wr) /\
  (fst (fst r) <> 0 -> cib_len (snd (fst r)) = 0).
Proof.
  intros Hwf Hinside. pose proof Hwf as (Hc & Hb & Hrcv & Hrsp).
  unfold proc_input, proc_input_traced.
  destruct serial_up.
  - split; [apply proc_input_loop_traced_fst|].
    apply proc_input_loop_inv; try assumption. lia.
  - cbn [fst snd]. split; [reflexivity|]. split; [exact Hwf|]. split; [lia|].
    split; [exists []; reflexivity|]. split; [exists []; rewrite app_nil_r; reflexivity|].
    intros H. contradiction H. reflexivity.
Qed.

Lemma wf_boot : wf_device boot.
Proof.
  unfold wf_device, boot. cbn [cib_len char_in_buffer pkt_receive pkt_response].
  split; [vm_compute; split; [discriminate|reflexivity]|].
  split; [reflexivity|]. split; exact wf_zero_pkt.
Defined.

Lemma proc_input_keeps_device_witness :
  let r := proc_input true [] true (bytes "[CSB:44]" ++ [PROTO_CR]) boot in
  fst (proc_input_traced true [] true (bytes "[CSB:44]" ++ [PROTO_CR]) boot) = r /\
  wf_device (snd (fst r)) /\
  0 <= fst (fst r) < 256 /\
  (exists pre, bytes "[CSB:44]" ++ [PROTO_CR] = pre ++ snd r) /\
  (exists wr, serial_out (snd (fst r)) = serial_out boot ++ wr) /\
  (fst (fst r) <> 0 -> cib_len (snd (fst r)) = 0).
Proof.
  apply (proc_input_keeps_device true [] true (bytes "[CSB:44]" ++ [PROTO_CR]) boot).
  - exact wf_boot.
  - vm_compute. repeat constructor.
Defined.

(** Bytes that are neither carriage return nor line feed go into the
    buffer one behind the other, as long as there is room. *)
Lemma proc_input_loop_fill (D : bool) (behind line : list Z) :
  forall (rest : list Z) (d : device),
    Forall (fun c => c <> PROTO_CR /\ c <> PROTO_NL) line ->
    0 <= cib_len d ->
    cib_len d + Z.of_nat (length line) <= MAX_INPUT_BUFFER_LEN ->
    proc_input_loop D behind (line ++ rest) d =
    proc_input_loop D behind rest
      (mk_device (cib_len d + Z.of_nat (length line))
                 (store_bytes (char_in_buffer d) (cib_len d) line)
                 (pkt_receive d) (pkt_response d) (serial_out d)).
Proof.
  unfold MAX_INPUT_BUFFER_LEN, MAX_PROTO_PACKET_LEN.
  induction line as [|c line IH]; intros rest d Hline Hc Hroom.
  - cbn [app length store_bytes]. rewrite Z.add_0_r. destruct d; reflexivity.
  - inversion Hline as [|? ? [Hcr Hnl] Hline']; subst.
    cbn [app proc_input_loop length] in *.
    unfold MAX_INPUT_BUFFER_LEN, MAX_PROTO_PACKET_LEN.
    destruct (Z.ltb_spec (cib_len d) 256); [|lia].
    destruct (Z.eqb_spec c PROTO_CR); [contradiction|].
    destruct (Z.eqb_spec c PROTO_NL); [contradiction|].
    cbn [andb negb]. rewrite to_uint16_small by lia.
    rewrite IH; [|exact Hline'|cbn; lia|cbn; lia].
    cbn [cib_len char_in_buffer pkt_receive pkt_response serial_out store_bytes].
    f_equal. f_equal. lia.
Qed.

(** X13: a line is handed to the decoder.  When the bytes in front of a
    carriage return hold neither carriage return nor line feed and fit
    into the room left in the buffer, the decoder is called on the buffer
    with these bytes stored behind those already there.  When it returns
    an index the call returns that index as a byte, with the buffer
    cleared and the bytes behind the carriage return left unread; when it
    returns an error the call answers with the error and goes on reading. *)
Theorem line_is_handed_to_decoder (D : bool) (behind line rest : list Z) (d : device) :
  Forall (fun c => c <> PROTO_CR /\ c <> PROTO_NL) line ->
  0 <= cib_len d ->
  cib_len d + Z.of_nat (length line) <= MAX_INPUT_BUFFER_LEN ->
  let buf := store_bytes (char_in_buffer d) (cib_len d) line in
  let len := cib_len d + Z.of_nat (length line) in
  let r := proto_parse_pkt_buffer D behind (mem_of buf) len (pkt_receive d) in
  let d' := reset_input (mk_device len buf (out r) (pkt_response d) (serial_out d)) in
  proc_input D behind true (line ++ PROTO_CR :: rest) d =
    if ret r >=? 0 then (to_uint8 (ret r), d', rest)
    else proc_input D behind true rest (respond_error d' (ret r)).
Proof.
  intros Hline Hc Hroom. cbv zeta. unfold proc_input.
  rewrite proc_input_loop_fill by assumption.
  cbn [proc_input_loop]. rewrite Z.eqb_refl.
  cbn [negb andb]. rewrite Bool.andb_false_r.
  cbn [cib_len char_in_buffer pkt_receive pkt_response serial_out].
  reflexivity.
Qed.

Lemma line_is_handed_to_decoder_witness :
  let buf := store_bytes (char_in_buffer boot) (cib_len boot) (bytes "[CPV]") in
  let len := cib_len boot + Z.of_nat (length (bytes "[CPV]")) in
  let r := proto_parse_pkt_buffer true [] (mem_of buf) len (pkt_receive boot) in
  let d' := reset_input (mk_device len buf (out r) (pkt_response boot) (serial_out boot)) in
  proc_input true [] true (bytes "[CPV]" ++ PROTO_CR :: bytes "[CSB:44]") boot =
    if ret r >=? 0 then (to_uint8 (ret r), d', bytes "[CSB:44]")
    else proc_input true [] true (bytes "[CSB:44]") (respond_error d' (ret r)).
Proof.
  apply (line_is_handed_to_decoder true [] (bytes "[CPV]") (bytes "[CSB:44]") boot).
  - vm_compute. repeat constructor; discriminate.
  - vm_compute. discriminate.
  - vm_compute. discriminate.
Defined.

(** X14: input in pieces.  When the bytes a call finds pending hold no
    carriage return and leave room in the buffer, the call and a later
    call on further bytes do together what one call on all the bytes
    does. *)
Theorem input_in_pieces (D : bool) (behind first second : list Z) (d : device) :
  Forall (fun ich => ich <> PROTO_CR) first ->
  0 <= cib_len d ->
  cib_len d + Z.of_nat (length (stored first)) < MAX_INPUT_BUFFER_LEN ->
  proc_input D behind true second (snd (fst (proc_input D behind true first d)))
    = proc_input D behind true (first ++ second) d.
Proof.
  unfold proc_input, MAX_INPUT_BUFFER_LEN, MAX_PROTO_PACKET_LEN.
  revert d. induction first as [|ich first IH]; intros d Hcr Hc Hroom.
  - cbn [proc_input_loop fst snd app]. unfold overflow_check.
    unfold MAX_INPUT_BUFFER_LEN, MAX_PROTO_PACKET_LEN.
    cbn [stored List.filter length] in Hroom.
    destruct (Z.geb_spec (cib_len d) 256); [lia|reflexivity].
  - inversion Hcr as [|? ? Hich Hcr']; subst.
    cbn [app proc_input_loop]. unfold MAX_INPUT_BUFFER_LEN, MAX_PROTO_PACKET_LEN.
    cbn [stored List.filter] in Hroom.
    destruct (Z.eqb_spec ich PROTO_CR) as [?|_]; [contradiction|].
    cbn [negb andb] in *.
    destruct (Z.ltb_spec (cib_len d) 256); [|cbn [length] in Hroom; lia].
    cbn [andb]. destruct (ich =? PROTO_NL); cbn [negb length] in *.
    + apply IH; [exact Hcr'|exact Hc|exact Hroom].
    + apply IH; [exact Hcr'| |];
        cbn [cib_len]; rewrite to_uint16_small by lia; fold (stored first) in Hroom; lia.
Qed.

Lemma input_in_pieces_witness :
  proc_input true [] true (bytes "B:44]" ++ [PROTO_CR])
             (snd (fst (proc_input true [] true (bytes "[CS") boot)))
    = proc_input true [] true (bytes "[CS" ++ bytes "B:44]" ++ [PROTO_CR]) boot.
Proof.
  apply (input_in_pieces true [] (bytes "[CS") (bytes "B:44]" ++ [PROTO_CR]) boot).
  - vm_compute. repeat constructor; discriminate.
  - vm_compute. discriminate.
  - vm_compute. reflexivity.
Defined.

(** X15: line feeds leave no trace.  With the line feeds taken out of
    what is pending the loop returns the same value and leaves the same
    device; what it leaves unread is the former rest without its line
    feeds. *)
Theorem line_feeds_leave_no_trace (D : bool) (behind pending : list Z) (d : device) :
  proc_input_loop D behind (no_line_feed pending) d =
    (fst (fst (proc_input_loop D behind pending d)),
     snd (fst (proc_input_loop D behind pending d)),
     no_line_feed (snd (proc_input_loop D behind pending d))).
Proof.
  revert d. induction pending as [|ich pending IH]; intros d.
  - reflexivity.
  - cbn [no_line_feed List.filter]. fold (no_line_feed pending).
    destruct (Z.eqb_spec ich PROTO_NL) as [->|Hnl]; cbn [negb].
    + cbn [proc_input_loop]. change (PROTO_NL =? PROTO_NL) with true.
      change (PROTO_NL =? PROTO_CR) with false.
      cbn [negb andb]. rewrite Bool.andb_false_r. apply IH.
    + cbn [proc_input_loop].
      match goal with
    | |- context [if ?c then mk_device ?a ?b ?e ?f ?g else d] =>
        set (d1 := if c then mk_device a b e f g else d)
    end.
      destruct (ich =? PROTO_CR).
      * destruct (ret _ >=? 0); [reflexivity|apply IH].
      * apply IH.
Qed.

(** ** Error responses *)

Lemma digits_chars (base : Z) (fuel : nat) :
  forall (n : Z) (acc : list Z),
    1 < base <= 16 -> 0 <= n ->
    Forall (fun c => 48 <= c <= 57 \/ 65 <= c <= 70) acc ->
    Forall (fun c => 48 <= c <= 57 \/ 65 <= c <= 70) (digits fuel base n acc).
Proof.
  induction fuel as [|fuel IH]; intros n acc Hb Hn Hacc; cbn [digits].
  all: assert (Hc : 0 <= n mod base < base) by (apply Z.mod_pos_bound; lia).
  all: assert (Hacc' : Forall (fun c => 48 <= c <= 57 \/ 65 <= c <= 70)
                         ((if n mod base <? 10 then n mod base + 48 else n mod base + 55) :: acc))
         by (constructor; [destruct (Z.ltb_spec (n mod base) 10); lia|exact Hacc]).
  - destruct (n / base =? 0); exact Hacc'.
  - destruct (n / base =? 0); [exact Hacc'|].
    apply IH; [exact Hb|apply Z.div_pos; lia|exact Hacc'].
Qed.

Lemma digits_length (base : Z) (fuel : nat) :
  forall (n : Z) (acc : list Z),
    (length (digits fuel base n acc) <= length acc + fuel + 1)%nat.
Proof.
  induction fuel as [|fuel IH]; intros n acc; cbn [digits].
  - destruct (n / base =? 0); cbn [length]; lia.
  - destruct (n / base =? 0); [cbn [length]; lia|].
    etransitivity; [apply IH|]. cbn [length]. lia.
Qed.

Lemma decimal_digits_chars (l : list Z) :
  forall acc v, decimal_digits l acc = Some v -> Forall (fun c => 48 <= c <= 57) l.
Proof.
  induction l as [|c l IH]; intros acc v H; [constructor|].
  cbn [decimal_digits] in H.
  destruct (Z.leb_spec 48 c); [|discriminate].
  destruct (Z.leb_spec c 57); [|discriminate].
  cbn [andb] in H. constructor; [lia|]. exact (IH _ _ H).
Qed.

(** A decimal text is made of a minus sign and digits. *)
Lemma decimal_chars (l : list Z) (v : Z) :
  decimal l = Some v -> Forall (fun c => c = 45 \/ 48 <= c <= 57) l.
Proof.
  destruct l as [|c l]; [discriminate|]. cbn [decimal].
  destruct (Z.eqb_spec c 45) as [->|Hc].
  - destruct l as [|c2 l]; [discriminate|].
    destruct (decimal_digits (c2 :: l) 0) as [w|] eqn:E; [|discriminate].
    intros _. constructor; [left; reflexivity|].
    eapply Forall_impl; [exact (decimal_digits_chars _ _ _ E)|]. cbn. intros; right; lia.
  - intros H. eapply Forall_impl; [exact (decimal_digits_chars _ _ _ H)|].
    cbn. intros; right; lia.
Qed.

Lemma store_bytes_line (line a : list Z) :
  (length line <= length a)%nat ->
  store_bytes a 0 line = line ++ drop (length line) a.
Proof.
  revert a. induction line as [|c line IH]; intros a Hlen.
  - reflexivity.
  - destruct a as [|x a]; [cbn in Hlen; lia|].
    cbn [app store_bytes length].
    change (aset (x :: a) 0 c) with (c :: a).
    rewrite (store_bytes_cons_succ line c a 0) by lia.
    rewrite IH by (cbn in Hlen; lia). reflexivity.
Qed.

(** The packet of an error response: the first nine bytes of the
    request's name and the decimal text of the code. *)
Lemma error_packet (rsp rcv : proto_pkt_t) (code : Z) :
  -32768 <= code <= 32767 ->
  let p := proto_set_response_pkt_error_code (proto_init_response_pkt rsp rcv) code in
  wf_pkt p /\
  c_str (cmd p) = take 9 (c_str (cmd rcv)) /\
  param_count p = 1 /\
  encoded_params p = [print_dec code].
Proof.
  intros Hcode p.
  destruct (init_response_facts rsp rcv) as (I1 & I2 & I3 & _).
  destruct (set_error_code_facts (proto_init_response_pkt rsp rcv) code I1 Hcode)
    as (S1 & S2 & S3 & S4 & _).
  cbv zeta in *. fold p in S1, S2, S3, S4.
  rewrite I3 in S3. change (Z.max 1 1) with 1 in S3.
  split; [exact S1|]. split; [rewrite S2; exact I2|]. split; [exact S3|].
  unfold encoded_params. rewrite S3. change (Z.to_nat 1) with 1%nat. cbn [zrange map].
  rewrite S4. reflexivity.
Qed.

Lemma error_report_bytes (d : device) (code : Z) :
  -32768 <= code <= 32767 ->
  error_report d code
    = serialize_spec true (take 9 (c_str (cmd (pkt_receive d)))) [print_dec code].
Proof.
  intros Hcode. unfold error_report.
  destruct (error_packet (pkt_response d) (pkt_receive d) code Hcode) as (_ & E2 & _ & E4).
  cbv zeta in *.
  destruct (proto_print_response_pkt_spec
              (proto_set_response_pkt_error_code
                 (proto_init_response_pkt (pkt_response d) (pkt_receive d)) code)) as [F _].
  rewrite F, E2, E4. reflexivity.
Qed.

(** X16: the answer to an error.  For any [int16_t] code the three calls
    that answer an error write one frame: the start marker, the first
    nine bytes of the name in the receive packet, a separator, the code in
    decimal, the end marker, the checksum of these bytes in hexadecimal
    and a carriage return.  The checksum is left in the response packet;
    the input buffer and the receive packet stay as they were. *)
Theorem error_answer_frame (d : device) (code : Z) :
  -32768 <= code <= 32767 ->
  let name := take 9 (c_str (cmd (pkt_receive d))) in
  let body := [PROTO_STX] ++ name ++ [PROTO_PSC] ++ print_dec code ++ [PROTO_ETX] in
  let d' := respond_error d code in
  serial_out d' = serial_out d ++ body ++ print_HEX (fold_left crc16 body 0) ++ [PROTO_CR] /\
  decimal (print_dec code) = Some code /\
  pkt_crc16 (pkt_response d') = fold_left crc16 body 0 /\
  c_str (cmd (pkt_response d')) = name /\
  pkt_receive d' = pkt_receive d /\
  cib_len d' = cib_len d /\ char_in_buffer d' = char_in_buffer d.
Proof.
  intros Hcode name body d'.
  destruct (respond_error_fields d code) as (F1 & F2 & F3 & _ & F5).
  destruct (print_dec_facts code Hcode) as (_ & _ & Hdec).
  destruct (error_packet (pkt_response d) (pkt_receive d) code Hcode) as (_ & E2 & _ & E4).
  cbv zeta in E2, E4.
  assert (Hbody : frame_body name [print_dec code] = body).
  { unfold frame_body, body. cbn [map concat app]. rewrite app_nil_r. reflexivity. }
  split.
  { unfold d'. rewrite F5, (error_report_bytes d code Hcode). fold name.
    unfold serialize_spec. rewrite Hbody. reflexivity. }
  split; [exact Hdec|].
  assert (Hrsp : pkt_response d' =
                 snd (proto_print_response_pkt
                        (proto_set_response_pkt_error_code
                           (proto_init_response_pkt (pkt_response d) (pkt_receive d)) code))).
  { unfold d', respond_error. destruct (proto_print_response_pkt _) as [wr rsp]. reflexivity. }
  destruct (proto_print_response_pkt_spec
              (proto_set_response_pkt_error_code
                 (proto_init_response_pkt (pkt_response d) (pkt_receive d)) code)) as [_ G].
  split; [rewrite Hrsp, G, E2, E4; fold name; rewrite Hbody; reflexivity|].
  split; [rewrite Hrsp; unfold proto_print_response_pkt;
          destruct (if _ >? 0 then _ else _); cbn [snd set_crc16 cmd]; exact E2|].
  split; [exact F3|]. split; [exact F1|exact F2].
Qed.

Lemma error_answer_frame_witness :
  let name := take 9 (c_str (cmd (pkt_receive boot))) in
  let body := [PROTO_STX] ++ name ++ [PROTO_PSC] ++ print_dec ERR_PROTO_CP_MISSING_STX
              ++ [PROTO_ETX] in
  let d' := respond_error boot ERR_PROTO_CP_MISSING_STX in
  serial_out d' = serial_out boot ++ body ++ print_HEX (fold_left crc16 body 0) ++ [PROTO_CR] /\
  decimal (print_dec ERR_PROTO_CP_MISSING_STX) = Some ERR_PROTO_CP_MISSING_STX /\
  pkt_crc16 (pkt_response d') = fold_left crc16 body 0 /\
  c_str (cmd (pkt_response d')) = name /\
  pkt_receive d' = pkt_receive boot /\
  cib_len d' = cib_len boot /\ char_in_buffer d' = char_in_buffer boot.
Proof.
  apply (error_answer_frame boot ERR_PROTO_CP_MISSING_STX).
  vm_compute. split; discriminate.
Defined.

(** X17: an error answer read by the firmware itself.  Take the frame one
    device writes for an error, with a name free of separators, end
    markers, carriage returns and line feeds, and feed it to a device that
    runs the build without checksum check, has an empty input buffer and a
    receive packet without parameters.  [proc_input] returns the length of
    the frame up to its end marker, leaves unread what follows the
    carriage return, writes nothing, and the receive packet holds the name
    and, as its only parameter, the decimal text of the code. *)
Theorem error_answer_is_received (behind rest : list Z) (d e : device) (code : Z) :
  -32768 <= code <= 32767 ->
  let name := take 9 (c_str (cmd (pkt_receive d))) in
  Forall (fun c => ~ delimiter c /\ c <> PROTO_CR /\ c <> PROTO_NL) name ->
  cib_len e = 0 -> length (char_in_buffer e) = Z.to_nat MAX_INPUT_BUFFER_LEN ->
  wf_pkt (pkt_receive e) -> param_count (pkt_receive e) = 0 ->
  let r := proc_input true behind true (error_report d code ++ rest) e in
  let e' := snd (fst r) in
  fst (fst r) = Z.of_nat (length name) + Z.of_nat (length (print_dec code)) + 3 /\
  snd r = rest /\
  c_str (cmd (pkt_receive e')) = name /\
  param_count (pkt_receive e') = 1 /\
  decimal (param (pkt_receive e') 0) = Some code /\
  serial_out e' = serial_out e /\ cib_len e' = 0.
Proof.
  intros Hcode name Hname Hc Hb Hwf Hq0.
  destruct (print_dec_facts code Hcode) as (Hdlen & Hdnz & Hdec).
  pose proof (decimal_chars _ _ Hdec) as Hdch.
  set (v := print_dec code) in *.
  set (body := frame_body name [v]).
  set (hex := print_HEX (fold_left crc16 body 0)).
  assert (Hnlen : (length name <= 9)%nat) by (unfold name; rewrite length_take; lia).
  assert (Hnnz : Forall (fun c => c <> 0) name)
    by (unfold name; apply Forall_take, c_str_nonzero).
  assert (Hnplain : plain name).
  { unfold plain. eapply Forall_impl; [exact Hname|]. cbn. tauto. }
  assert (Hvfits : fits v).
  { split; [unfold MAX_PROTO_PARAM_LEN; lia|]. split; [exact Hdnz|].
    unfold plain. eapply Forall_impl; [exact Hdch|]. cbn.
    unfold delimiter, PROTO_PSC, PROTO_ETX. intros c Hcc [?|?]; lia. }
  assert (Hbody : body = PROTO_STX :: name ++ PROTO_PSC :: v ++ [PROTO_ETX]).
  { unfold body, frame_body. cbn [map concat app]. rewrite app_nil_r. reflexivity. }
  assert (Hblen : Z.of_nat (length body)
                  = Z.of_nat (length name) + Z.of_nat (length v) + 3).
  { rewrite Hbody. cbn [length]. rewrite length_app. cbn [length]. rewrite length_app.
    cbn [length]. lia. }
  assert (Hhexch : Forall (fun c => 48 <= c <= 57 \/ 65 <= c <= 70) hex).
  { unfold hex, print_HEX. apply digits_chars; [lia| |constructor].
    unfold to_uint16. apply Z.mod_pos_bound. lia. }
  assert (Hhexlen : (length hex <= 5)%nat).
  { unfold hex, print_HEX. etransitivity; [apply digits_length|]. cbn [length]. lia. }
  set (line := body ++ hex).
  assert (Hquiet : Forall (fun c => c <> PROTO_CR /\ c <> PROTO_NL) line).
  { unfold line. apply Forall_app. split.
    - rewrite Hbody. constructor; [split; discriminate|].
      apply Forall_app. split.
      + eapply Forall_impl; [exact Hname|]. cbn. tauto.
      + constructor; [split; discriminate|]. apply Forall_app. split.
        * eapply Forall_impl; [exact Hdch|]. cbn.
          unfold PROTO_CR, PROTO_NL. intros c Hcc. lia.
        * constructor; [split; discriminate|constructor].
    - eapply Forall_impl; [exact Hhexch|]. cbn. unfold PROTO_CR, PROTO_NL. intros c Hcc. lia. }
  assert (Hllen : Z.of_nat (length line) = Z.of_nat (length body) + Z.of_nat (length hex))
    by (unfold line; rewrite length_app; lia).
  assert (Hreport : error_report d code ++ rest = line ++ PROTO_CR :: rest).
  { rewrite (error_report_bytes d code Hcode). fold name v.
    unfold serialize_spec. fold body hex. unfold line.
    rewrite <- !app_assoc. reflexivity. }
  unfold MAX_INPUT_BUFFER_LEN, MAX_PROTO_PACKET_LEN in *.
  cbv zeta. rewrite Hreport. unfold proc_input.
  rewrite proc_input_loop_fill;
    [|exact Hquiet|lia|unfold MAX_INPUT_BUFFER_LEN, MAX_PROTO_PACKET_LEN; lia].
  cbn [proc_input_loop]. rewrite Z.eqb_refl.
  cbn [negb andb]. rewrite Bool.andb_false_r. cbn [andb].
  cbn [cib_len char_in_buffer pkt_receive pkt_response serial_out].
  rewrite Hc, Z.add_0_l.
  rewrite store_bytes_line by lia.
  destruct (decode_body behind (mem_of (line ++ drop (length line) (char_in_buffer e)))
              (Z.of_nat (length line)) 0 name [v] (pkt_receive e))
    as (R1 & R2 & R3).
  { exact Hwf. }
  { lia. }
  { rewrite Hq0. cbn. unfold MAX_PROTO_PARAM_COUNT. lia. }
  { lia. }
  { intros j Hj. lia. }
  { unfold line at 1. rewrite <- app_assoc. exact (holds_mem_of body [] _). }
  { fold body. unfold INT16_MAX. lia. }
  { unfold MAX_PROTO_CMD. lia. }
  { exact Hnnz. }
  { exact Hnplain. }
  { constructor; [exact Hvfits|constructor]. }
  cbv zeta in R1, R2, R3. fold body in R1.
  rewrite Z.add_0_l in R1.
  match goal with
  | |- context [ret ?x >=? 0] => set (res := x) in *
  end.
  destruct (Z.geb_spec (ret res) 0) as [_|Hneg]; [|lia].
  cbn [fst snd reset_input pkt_receive serial_out cib_len].
  split; [rewrite R1, Hblen; unfold to_uint8; apply Z.mod_small; lia|].
  split; [reflexivity|]. split; [exact R2|].
  rewrite R3.
  assert (Hwf1 : wf_pkt (named (pkt_receive e) name)).
  { destruct Hwf as (W1 & W2 & W3 & W4). unfold wf_pkt, named. cbn.
    rewrite length_store_bytes. repeat split; try assumption; lia. }
  destruct (fill_params_fields [v] (named (pkt_receive e) name)) as (_ & _ & Fcount).
  split; [rewrite Fcount; cbn [named param_count length]; lia|].
  split; [|split; reflexivity].
  rewrite param_fill_params;
    [|exact Hwf1|cbn [named param_count]; lia
     |cbn [named param_count length]; unfold MAX_PROTO_PARAM_COUNT; lia
     |constructor; [exact Hvfits|constructor]|lia].
  cbn [named param_count length]. rewrite Hq0. cbn. exact Hdec.
Qed.

Lemma error_answer_is_received_witness :
  let name := take 9 (c_str (cmd (pkt_receive boot))) in
  let r := proc_input true [] true (error_report boot ERR_PROTO_CP_MISSING_STX ++ bytes "[CPV]")
             boot in
  let e' := snd (fst r) in
  fst (fst r) = Z.of_nat (length name)
                + Z.of_nat (length (print_dec ERR_PROTO_CP_MISSING_STX)) + 3 /\
  snd r = bytes "[CPV]" /\
  c_str (cmd (pkt_receive e')) = name /\
  param_count (pkt_receive e') = 1 /\
  decimal (param (pkt_receive e') 0) = Some ERR_PROTO_CP_MISSING_STX /\
  serial_out e' = serial_out boot /\ cib_len e' = 0.
Proof.
  apply (error_answer_is_received [] (bytes "[CPV]") boot boot ERR_PROTO_CP_MISSING_STX).
  - vm_compute. split; discriminate.
  - vm_compute. constructor.
  - reflexivity.
  - reflexivity.
  - exact wf_zero_pkt.
  - reflexivity.
Defined.

(** ** The command handlers *)

Lemma print_response_fields (d : device) :
  cib_len (print_response d) = cib_len d /\
  char_in_buffer (print_response d) = char_in_buffer d /\
  pkt_receive (print_response d) = pkt_receive d /\
  (wf_pkt (pkt_response d) -> wf_pkt (pkt_response (print_response d))) /\
  serial_out (print_response d) =
    serial_out d ++ serialize_spec true (c_str (cmd (pkt_response d)))
                                   (encoded_params (pkt_response d)).
Proof.
  unfold print_response.
  destruct (proto_print_response_pkt_spec (pkt_response d)) as [F _].
  assert (G : snd (proto_print_response_pkt (pkt_response d))
              = set_crc16 (pkt_response d)
                          (pkt_crc16 (snd (proto_print_response_pkt (pkt_response d))))).
  { unfold proto_print_response_pkt. destruct (if _ >? 0 then _ else _). reflexivity. }
  destruct (proto_print_response_pkt (pkt_response d)) as [wr rsp].
  cbn [fst snd] in F, G. cbn [cib_len char_in_buffer pkt_receive pkt_response serial_out].
  split; [reflexivity|]. split; [reflexivity|]. split; [reflexivity|]. split.
  - intros (W1 & W2 & W3 & W4). rewrite G. exact (conj W1 (conj W2 (conj W3 W4))).
  - rewrite F. reflexivity.
Qed.

(** A handler that answers success. *)
Lemma answer_success (d : device) :
  answered d (print_response (init_response d)) [bytes "0"] /\
  pkt_receive (print_response (init_response d)) = pkt_receive d.
Proof.
  destruct (print_response_fields (init_response d)) as (F1 & F2 & F3 & F4 & F5).
  destruct (init_response_facts (pkt_response d) (pkt_receive d)) as (I1 & I2 & I3 & I4 & _).
  cbv zeta in I1, I2, I3, I4.
  split; [|exact F3]. split; [exact F1|]. split; [exact F2|]. split; [exact (F4 I1)|].
  rewrite F5. cbn [init_response pkt_response serial_out pkt_receive].
  rewrite I2. unfold encoded_params. rewrite I3.
  change (Z.to_nat 1) with 1%nat. cbn [zrange map]. rewrite I4. reflexivity.
Qed.

(** A handler that answers an error code. *)
Lemma answer_error (d : device) (code : Z) :
  -32768 <= code <= 32767 ->
  answered d (print_response (set_response_error (init_response d) code)) [print_dec code] /\
  pkt_receive (print_response (set_response_error (init_response d) code)) = pkt_receive d.
Proof.
  intros Hcode.
  destruct (print_response_fields (set_response_error (init_response d) code))
    as (F1 & F2 & F3 & F4 & F5).
  destruct (error_packet (pkt_response d) (pkt_receive d) code Hcode) as (E1 & E2 & _ & E4).
  cbv zeta in E1, E2, E4.
  split; [|exact F3]. split; [exact F1|]. split; [exact F2|]. split; [exact (F4 E1)|].
  rewrite F5. cbn [set_response_error init_response pkt_response serial_out pkt_receive].
  rewrite E2, E4. reflexivity.
Qed.

(** The handler that answers the version. *)
Lemma answer_version (d : device) :
  answered d (print_response (append_response (init_response d) VERSION_CODE))
           [bytes "0"; bytes "LEDSC_TEENSY_001"] /\
  pkt_receive (print_response (append_response (init_response d) VERSION_CODE))
    = pkt_receive d.
Proof.
  destruct (print_response_fields (append_response (init_response d) VERSION_CODE))
    as (F1 & F2 & F3 & F4 & F5).
  destruct (init_response_facts (pkt_response d) (pkt_receive d)) as (I1 & I2 & I3 & I4 & _).
  cbv zeta in I1, I2, I3, I4.
  destruct (append_param_fits (proto_init_response_pkt (pkt_response d) (pkt_receive d))
              VERSION_CODE I1) as (_ & A2 & A3 & A4 & A5 & A6).
  { rewrite I3. unfold MAX_PROTO_PARAM_COUNT. lia. }
  { vm_compute. reflexivity. }
  cbv zeta in A2, A3, A4, A5, A6. rewrite I3 in A4, A5, A6.
  split; [|exact F3]. split; [exact F1|]. split; [exact F2|]. split; [exact (F4 A2)|].
  rewrite F5. cbn [append_response init_response pkt_response serial_out pkt_receive].
  rewrite A3, I2. unfold encoded_params. rewrite A4.
  change (Z.to_nat (1 + 1)) with 2%nat. cbn [zrange map].
  change (0 + 1) with 1. rewrite A5, (A6 0) by lia. rewrite I4. reflexivity.
Qed.

Lemma strcmp_is_0_true (a b : list Z) : strcmp_is_0 a b = true -> c_str a = c_str b.
Proof. unfold strcmp_is_0. intros H. apply bool_decide_eq_true in H. exact H. Qed.

Lemma strcmp_is_0_false (a b : list Z) : strcmp_is_0 a b = false -> c_str a <> c_str b.
Proof. unfold strcmp_is_0. intros H. apply bool_decide_eq_false in H. exact H. Qed.

(** [proc_cmd], command by command: the answer and the settings. *)
Lemma proc_cmd_cases (atoi : list Z -> Z) (behind : list Z) (st : firmware) :
  let rcv := pkt_receive (io st) in
  let name := c_str (cmd rcv) in
  let st' := proc_cmd atoi behind st in
  let v := fst (strtol16 (params_0 behind rcv)) in
  pkt_receive (io st') = zero_pkt /\
  exists ps,
    answered (io st) (io st') ps /\
    ((name = bytes "CPV" /\ ps = [bytes "0"; bytes "LEDSC_TEENSY_001"] /\
      settings_of st' = settings_of st) \/
     ((name = bytes "CFR" \/ name = bytes "CEB") /\
      ps = [print_dec ERR_PROTO_CP_CMD_NOT_IMP] /\ settings_of st' = settings_of st) \/
     (name = bytes "CSD" /\ ps = [bytes "0"] /\
      settings_of st' =
        (color st, brightness st, FastLED_brightness st, active_effect st,
         if param_count rcv >? 0 then negb (atoi (params_0 behind rcv) =? 0)
         else debugging st)) \/
     ((name = bytes "CSE" \/ name = bytes "CSC" \/ name = bytes "CSB") /\
      param_count rcv <= 0 /\
      ps = [print_dec ERR_PROTO_CP_MISSING_PARAMS] /\ settings_of st' = settings_of st) \/
     (name = bytes "CSE" /\ 0 < param_count rcv /\ ps = [bytes "0"] /\
      settings_of st' =
        (color st, brightness st, FastLED_brightness st,
         (if (v >=? 0) && (v <? MAX_EFFECT) then v else active_effect st), debugging st)) \/
     (name = bytes "CSC" /\ 0 < param_count rcv /\ ps = [bytes "0"] /\
      settings_of st' =
        (setColorCode (to_uint32 v), brightness st, FastLED_brightness st, active_effect st,
         debugging st)) \/
     (name = bytes "CSB" /\ 0 < param_count rcv /\ ps = [bytes "0"] /\
      settings_of st' =
        (color st, to_uint8 v, to_uint8 v, active_effect st, debugging st)) \/
     (~ In name [bytes "CPV"; bytes "CFR"; bytes "CEB"; bytes "CSD"; bytes "CSE"; bytes "CSC";
                 bytes "CSB"] /\
      ps = [print_dec ERR_PROTO_CP_CMD_UNKNOWN] /\ settings_of st' = settings_of st)).
Proof.
  intros rcv name st' v.
  split; [reflexivity|].
  assert (Hwrap : forall (stH : firmware) ps X,
             answered (io st) (io stH) ps ->
             answered (io st)
               (io (with_io stH (mk_device (cib_len (io stH)) (char_in_buffer (io stH)) X
                                           (pkt_response (io stH)) (serial_out (io stH))))) ps).
  { intros stH ps X H. exact H. }
  assert (Herr : forall code, -32768 <= code <= 32767 ->
             answered (io st) (io (proc_print_error st code)) [print_dec code]).
  { intros code Hcode. exact (proj1 (answer_error (io st) code Hcode)). }
  assert (Hmiss : answered (io st)
                    (print_response (set_response_error (init_response (io st))
                                                        ERR_PROTO_CP_MISSING_PARAMS))
                    [print_dec ERR_PROTO_CP_MISSING_PARAMS]).
  { apply answer_error. unfold ERR_PROTO_CP_MISSING_PARAMS. lia. }
  pose proof (proj1 (answer_success (io st))) as Hok.
  pose proof (proj1 (answer_version (io st))) as Hver.
  subst st'. unfold proc_cmd. fold rcv.
  destruct (strcmp_is_0 (cmd rcv) CMD_PRINT_VERSION) eqn:E1.
  { apply strcmp_is_0_true in E1. eexists. split; [apply Hwrap; exact Hver|].
    left. split; [exact E1|]. split; reflexivity. }
  apply strcmp_is_0_false in E1.
  destruct (strcmp_is_0 (cmd rcv) CMD_FULL_RESET) eqn:E2.
  { apply strcmp_is_0_true in E2. eexists. split.
    - apply Hwrap, Herr. unfold ERR_PROTO_CP_CMD_NOT_IMP. lia.
    - right; left. split; [left; exact E2|]. split; reflexivity. }
  apply strcmp_is_0_false in E2.
  destruct (strcmp_is_0 (cmd rcv) CMD_ENTER_BOOTLOADER) eqn:E3.
  { apply strcmp_is_0_true in E3. eexists. split.
    - apply Hwrap, Herr. unfold ERR_PROTO_CP_CMD_NOT_IMP. lia.
    - right; left. split; [right; exact E3|]. split; reflexivity. }
  apply strcmp_is_0_false in E3.
  destruct (strcmp_is_0 (cmd rcv) CMD_SET_DEBUGGING) eqn:E4.
  { apply strcmp_is_0_true in E4. eexists. split; [apply Hwrap; exact Hok|].
    do 2 right; left. split; [exact E4|]. split; reflexivity. }
  apply strcmp_is_0_false in E4.
  destruct (strcmp_is_0 (cmd rcv) CMD_SET_EFFECT) eqn:E5.
  { apply strcmp_is_0_true in E5. unfold proc_set_active_effect. fold rcv.
    destruct (Z.leb_spec (param_count rcv) 0) as [Hc|Hc].
    - eexists. split; [apply Hwrap; exact Hmiss|].
      do 3 right; left. split; [left; exact E5|]. split; [exact Hc|]. split; reflexivity.
    - destruct (Z.gtb_spec (param_count rcv) 0) as [_|?]; [|lia].
      eexists. split; [apply Hwrap; exact Hok|].
      do 4 right; left. split; [exact E5|]. split; [exact Hc|]. split; reflexivity. }
  apply strcmp_is_0_false in E5.
  destruct (strcmp_is_0 (cmd rcv) CMD_SET_COLOR) eqn:E6.
  { apply strcmp_is_0_true in E6. unfold proc_set_color. fold rcv.
    destruct (Z.leb_spec (param_count rcv) 0) as [Hc|Hc].
    - eexists. split; [apply Hwrap; exact Hmiss|].
      do 3 right; left. split; [right; left; exact E6|]. split; [exact Hc|]. split; reflexivity.
    - destruct (Z.gtb_spec (param_count rcv) 0) as [_|?]; [|lia].
      eexists. split; [apply Hwrap; exact Hok|].
      do 5 right; left. split; [exact E6|]. split; [exact Hc|]. split; reflexivity. }
  apply strcmp_is_0_false in E6.
  destruct (strcmp_is_0 (cmd rcv) CMD_SET_BRIGHTNESS) eqn:E7.
  { apply strcmp_is_0_true in E7. unfold proc_set_brightness. fold rcv.
    destruct (Z.leb_spec (param_count rcv) 0) as [Hc|Hc].
    - eexists. split; [apply Hwrap; exact Hmiss|].
      do 3 right; left. split; [right; right; exact E7|]. split; [exact Hc|]. split; reflexivity.
    - destruct (Z.gtb_spec (param_count rcv) 0) as [_|?]; [|lia].
      eexists. split; [apply Hwrap; exact Hok|].
      do 6 right; left. split; [exact E7|]. split; [exact Hc|]. split; reflexivity. }
  apply strcmp_is_0_false in E7.
  eexists. split.
  - apply Hwrap, Herr. unfold ERR_PROTO_CP_CMD_UNKNOWN. lia.
  - do 7 right. split; [|split; reflexivity].
    cbn [In]. intros [H|[H|[H|[H|[H|[H|[H|[]]]]]]]]; symmetry in H;
      [apply E1|apply E2|apply E3|apply E4|apply E5|apply E6|apply E7]; exact H.
Qed.

(** The answer of [proc_cmd]: one frame with a status and, for the
    version request, the version text. *)
Lemma proc_cmd_reply (atoi : list Z -> Z) (behind : list Z) (st : firmware) :
  exists code extra,
    In code [ERR_PROTO_SUCCESS; ERR_PROTO_CP_CMD_NOT_IMP; ERR_PROTO_CP_CMD_UNKNOWN;
             ERR_PROTO_CP_MISSING_PARAMS] /\
    In extra [[]; [bytes "LEDSC_TEENSY_001"]] /\
    serial_out (io (proc_cmd atoi behind st)) =
      serial_out (io st)
      ++ serialize_spec true (take 9 (c_str (cmd (pkt_receive (io st)))))
                        (print_dec code :: extra).
Proof.
  destruct (proc_cmd_cases atoi behind st) as (_ & ps & (_ & _ & _ & A4) & Hcases).
  cbv zeta in *. rewrite A4.
  destruct Hcases as [(_ & -> & _)|[(_ & -> & _)|[(_ & -> & _)|[(_ & _ & -> & _)|
                     [(_ & _ & -> & _)|[(_ & _ & -> & _)|[(_ & _ & -> & _)|(_ & -> & _)]]]]]]].
  - exists ERR_PROTO_SUCCESS, [bytes "LEDSC_TEENSY_001"]. cbn [In]. auto 10.
  - exists ERR_PROTO_CP_CMD_NOT_IMP, []. cbn [In]. auto 10.
  - exists ERR_PROTO_SUCCESS, []. cbn [In]. auto 10.
  - exists ERR_PROTO_CP_MISSING_PARAMS, []. cbn [In]. auto 10.
  - exists ERR_PROTO_SUCCESS, []. cbn [In]. auto 10.
  - exists ERR_PROTO_SUCCESS, []. cbn [In]. auto 10.
  - exists ERR_PROTO_SUCCESS, []. cbn [In]. auto 10.
  - exists ERR_PROTO_CP_CMD_UNKNOWN, []. cbn [In]. auto 10.
Qed.

(** X18: one answer for every command.  Whatever the receive packet
    holds, [proc_cmd] writes exactly one frame: the first nine bytes of
    the name, the status 0, -106, -107 or -108, and for the version
    request the version text, with checksum and carriage return.  It
    leaves the receive packet cleared, the input buffer as it was and the
    response packet well formed. *)
Theorem proc_cmd_answers_once (atoi : list Z -> Z) (behind : list Z) (st : firmware) :
  let st' := proc_cmd atoi behind st in
  pkt_receive (io st') = zero_pkt /\
  cib_len (io st') = cib_len (io st) /\
  char_in_buffer (io st') = char_in_buffer (io st) /\
  wf_pkt (pkt_response (io st')) /\
  exists code extra,
    In code [ERR_PROTO_SUCCESS; ERR_PROTO_CP_CMD_NOT_IMP; ERR_PROTO_CP_CMD_UNKNOWN;
             ERR_PROTO_CP_MISSING_PARAMS] /\
    In extra [[]; [bytes "LEDSC_TEENSY_001"]] /\
    serial_out (io st') =
      serial_out (io st)
      ++ serialize_spec true (take 9 (c_str (cmd (pkt_receive (io st)))))
                        (print_dec code :: extra).
Proof.
  destruct (proc_cmd_cases atoi behind st) as (Hclr & ps & (A1 & A2 & A3 & _) & _).
  destruct (proc_cmd_reply atoi behind st) as (code & extra & H1 & H2 & H3).
  cbv zeta in *. split; [exact Hclr|]. split; [exact A1|]. split; [exact A2|].
  split; [exact A3|]. exists code, extra. split; [exact H1|]. split; [exact H2|exact H3].
Qed.

(** X19: commands that are refused.  A name that is none of CPV, CSD, CSE,
    CSC and CSB changes no setting; the answer carries the status -106 for
    CFR and CEB and -107 for every other name. *)
Theorem refused_commands (atoi : list Z -> Z) (behind : list Z) (st : firmware) :
  let name := c_str (cmd (pkt_receive (io st))) in
  ~ In name [bytes "CPV"; bytes "CSD"; bytes "CSE"; bytes "CSC"; bytes "CSB"] ->
  let st' := proc_cmd atoi behind st in
  let code := if bool_decide (In name [bytes "CFR"; bytes "CEB"])
              then ERR_PROTO_CP_CMD_NOT_IMP else ERR_PROTO_CP_CMD_UNKNOWN in
  settings_of st' = settings_of st /\
  serial_out (io st') =
    serial_out (io st) ++ serialize_spec true (take 9 name) [print_dec code].
Proof.
  intros name Hname st' code.
  destruct (proc_cmd_cases atoi behind st) as (_ & ps & (_ & _ & _ & A4) & Hcases).
  cbv zeta in *. fold name in Hcases, A4. fold st' in Hcases, A4.
  cbn [In] in Hname.
  destruct Hcases as [(E & _)|[(E & -> & S)|[(E & _)|[(E & _)|
                     [(E & _)|[(E & _)|[(E & _)|(E & -> & S)]]]]]]].
  - contradiction Hname. auto.
  - split; [exact S|]. rewrite A4. unfold code.
    rewrite bool_decide_eq_true_2; [reflexivity|].
    cbn [In]. destruct E; auto.
  - contradiction Hname. auto.
  - contradiction Hname. destruct E as [E|[E|E]]; auto 10.
  - contradiction Hname. auto.
  - contradiction Hname. auto 10.
  - contradiction Hname. auto 10.
  - split; [exact S|]. rewrite A4. unfold code.
    rewrite bool_decide_eq_false_2; [reflexivity|].
    intros H. apply E. cbn [In] in *. destruct H as [H|[H|[]]]; auto.
Qed.

Lemma refused_commands_witness :
  let st := with_io setup (mk_device 0 (char_in_buffer boot)
                                     (named zero_pkt (bytes "CFR")) zero_pkt []) in
  let name := c_str (cmd (pkt_receive (io st))) in
  let st' := proc_cmd (fun _ => 0) [] st in
  let code := if bool_decide (In name [bytes "CFR"; bytes "CEB"])
              then ERR_PROTO_CP_CMD_NOT_IMP else ERR_PROTO_CP_CMD_UNKNOWN in
  settings_of st' = settings_of st /\
  serial_out (io st') =
    serial_out (io st) ++ serialize_spec true (take 9 name) [print_dec code].
Proof.
  apply (refused_commands (fun _ => 0) []
           (with_io setup (mk_device 0 (char_in_buffer boot)
                                     (named zero_pkt (bytes "CFR")) zero_pkt []))).
  vm_compute. intros [H|[H|[H|[H|[H|[]]]]]]; discriminate.
Defined.

(** X20: a setter without parameter.  When the receive packet counts no
    parameter, the commands CSE, CSC and CSB change no setting and answer
    with the status -108. *)
Theorem setter_without_parameter (atoi : list Z -> Z) (behind : list Z) (st : firmware) :
  let name := c_str (cmd (pkt_receive (io st))) in
  In name [bytes "CSE"; bytes "CSC"; bytes "CSB"] ->
  param_count (pkt_receive (io st)) <= 0 ->
  let st' := proc_cmd atoi behind st in
  settings_of st' = settings_of st /\
  serial_out (io st') =
    serial_out (io st)
    ++ serialize_spec true (take 9 name) [print_dec ERR_PROTO_CP_MISSING_PARAMS].
Proof.
  intros name Hname Hcount st'.
  destruct (proc_cmd_cases atoi behind st) as (_ & ps & (_ & _ & _ & A4) & Hcases).
  cbv zeta in *. fold name in Hcases, A4. fold st' in Hcases, A4.
  cbn [In] in Hname.
  assert (Hne : forall other, In other [bytes "CPV"; bytes "CFR"; bytes "CEB"; bytes "CSD"] ->
                              name <> other).
  { intros other Ho E. rewrite E in Hname. cbn [In] in Ho.
    destruct Ho as [<-|[<-|[<-|[<-|[]]]]]; destruct Hname as [H|[H|[H|[]]]]; discriminate. }
  destruct Hcases as [(E & _)|[(E & _)|[(E & _)|[(_ & _ & -> & S)|
                     [(_ & Hc & _)|[(_ & Hc & _)|[(_ & Hc & _)|(E & _)]]]]]]].
  - exfalso. apply (Hne (bytes "CPV")); [cbn [In]; auto|exact E].
  - exfalso. destruct E as [E|E];
      [apply (Hne (bytes "CFR"))|apply (Hne (bytes "CEB"))]; try exact E; cbn [In]; auto.
  - exfalso. apply (Hne (bytes "CSD")); [cbn [In]; auto|exact E].
  - split; [exact S|exact A4].
  - lia.
  - lia.
  - lia.
  - exfalso. apply E. cbn [In]. destruct Hname as [H|[H|[H|[]]]]; auto 10.
Qed.

Lemma setter_without_parameter_witness :
  let st := with_io setup (mk_device 0 (char_in_buffer boot)
                                     (named zero_pkt (bytes "CSB")) zero_pkt []) in
  let name := c_str (cmd (pkt_receive (io st))) in
  let st' := proc_cmd (fun _ => 0) [] st in
  settings_of st' = settings_of st /\
  serial_out (io st') =
    serial_out (io st)
    ++ serialize_spec true (take 9 name) [print_dec ERR_PROTO_CP_MISSING_PARAMS].
Proof.
  apply (setter_without_parameter (fun _ => 0) []
           (with_io setup (mk_device 0 (char_in_buffer boot)
                                     (named zero_pkt (bytes "CSB")) zero_pkt []))).
  - vm_compute. auto.
  - vm_compute. discriminate.
Defined.

Lemma land_255_range (x : Z) : 0 <= Z.land x 255 < 256.
Proof.
  change 255 with (Z.ones 8). rewrite Z.land_ones by lia. apply Z.mod_pos_bound. lia.
Qed.

(** X21: the settings stay inside their types.  When the colour
    channels and the brightness are bytes, FastLED has been given the
    brightness, the effect is one of the enumeration and the device is
    between two calls of [proc_input], then all of this holds again
    behind [proc_cmd], whatever command and parameters the receive packet
    holds. *)
Theorem settings_stay_in_range (atoi : list Z -> Z) (behind : list Z) (st : firmware) :
  settings_in_range st -> wf_device (io st) ->
  settings_in_range (proc_cmd atoi behind st) /\ wf_device (io (proc_cmd atoi behind st)).
Proof.
  intros Hs (Hc & Hb & Hrcv & Hrsp).
  destruct (proc_cmd_cases atoi behind st) as (Hclr & ps & (A1 & A2 & A3 & _) & Hcases).
  cbv zeta in *.
  split.
  2:{ unfold wf_device. rewrite A1, A2, Hclr.
      split; [exact Hc|]. split; [exact Hb|]. split; [exact wf_zero_pkt|exact A3]. }
  set (st' := proc_cmd atoi behind st) in *. clearbody st'.
  assert (Hsame : settings_of st' = settings_of st -> settings_in_range st').
  { unfold settings_of, settings_in_range in *. intros E. injection E as -> -> -> -> _.
    exact Hs. }
  unfold settings_in_range in Hs. destruct (color st) as [[r g] b] eqn:Ecol.
  destruct Hs as (Hr & Hg & Hbl & Hbr & Hfl & Heff).
  destruct Hcases as [(_ & _ & S)|[(_ & _ & S)|[(_ & _ & S)|[(_ & _ & _ & S)|
                     [(_ & _ & _ & S)|[(_ & _ & _ & S)|[(_ & _ & _ & S)|(_ & _ & S)]]]]]]].
  - apply Hsame. exact S.
  - apply Hsame. exact S.
  - unfold settings_of, settings_in_range in *. injection S as -> -> -> -> _.
    exact (conj Hr (conj Hg (conj Hbl (conj Hbr (conj Hfl Heff))))).
  - apply Hsame. exact S.
  - unfold settings_of, settings_in_range in *. injection S as -> -> -> -> _.
    split; [exact Hr|]. split; [exact Hg|]. split; [exact Hbl|]. split; [exact Hbr|].
    split; [exact Hfl|].
    destruct (Z.geb_spec (fst (strtol16 (params_0 behind (pkt_receive (io st))))) 0);
      cbn [andb]; [|exact Heff].
    destruct (Z.ltb_spec (fst (strtol16 (params_0 behind (pkt_receive (io st))))) MAX_EFFECT);
      [lia|exact Heff].
  - unfold settings_of, settings_in_range in *. injection S as -> -> -> -> _.
    unfold setColorCode.
    split; [apply land_255_range|]. split; [apply land_255_range|].
    split; [apply land_255_range|]. split; [exact Hbr|]. split; [exact Hfl|exact Heff].
  - unfold settings_of, settings_in_range in *. injection S as -> -> -> -> _.
    split; [exact Hr|]. split; [exact Hg|]. split; [exact Hbl|].
    split; [unfold to_uint8; apply Z.mod_pos_bound; lia|]. split; [reflexivity|exact Heff].
  - apply Hsame. exact S.
Qed.

Lemma settings_stay_in_range_witness :
  settings_in_range (proc_cmd (fun _ => 0) [] setup) /\
  wf_device (io (proc_cmd (fun _ => 0) [] setup)).
Proof.
  apply (settings_stay_in_range (fun _ => 0) [] setup).
  - vm_compute. repeat split; discriminate.
  - split; [vm_compute; split; [discriminate|reflexivity]|].
    split; [reflexivity|]. split; exact wf_zero_pkt.
Defined.

(** ** From the line to the answer *)

Lemma hex_text_ok_all : forallb hex_text_ok (zrange 0 (Z.to_nat 65536)) = true.
Proof. vm_compute. reflexivity. Qed.

Lemma strtol_digits_count (s : list Z) :
  forall acc n, forallb is_hex s = true ->
                snd (strtol_digits s acc n) = n + Z.of_nat (length s).
Proof.
  induction s as [|c s IH]; intros acc n H; cbn [strtol_digits length].
  - cbn. lia.
  - cbn [forallb] in H. apply andb_prop in H as [Hc Hs]. unfold is_hex in Hc.
    destruct (hex_digit c); [|discriminate]. rewrite IH by exact Hs. lia.
Qed.

(** [strtol] on a text of hexadecimal digits that ends in a NUL. *)
Lemma strtol16_hex_text (s rest : list Z) :
  s <> [] -> forallb is_hex s = true ->
  fst (strtol16 (s ++ 0 :: rest))
    = Z.max LONG_MIN (Z.min LONG_MAX (fst (strtol_digits s 0 0))).
Proof.
  intros Hne Hhex. destruct s as [|c s]; [contradiction|].
  cbn [forallb] in Hhex. apply andb_prop in Hhex as [Hc Hs].
  destruct (is_hex_plain c Hc) as (Hsp & Hm & Hp).
  assert (Hdig : strtol_digits ((c :: s) ++ 0 :: rest) 0 0 = strtol_digits (c :: s) 0 0).
  { apply strtol_digits_app. intros _. reflexivity. }
  assert (Hcnt : snd (strtol_digits (c :: s) 0 0) = 0 + Z.of_nat (length (c :: s))).
  { apply strtol_digits_count. cbn [forallb]. rewrite Hc, Hs. reflexivity. }
  assert (Hfin : forall px,
    fst (let '(v, n) := strtol_digits ((c :: s) ++ 0 :: rest) 0 0 in
         if n =? 0 then (0, 0)
         else (Z.max LONG_MIN (Z.min LONG_MAX (if false then - v else v)), 0 + 0 + px + n))
    = Z.max LONG_MIN (Z.min LONG_MAX (fst (strtol_digits (c :: s) 0 0)))).
  { intros px. rewrite Hdig. destruct (strtol_digits (c :: s) 0 0) as [v n].
    cbn [fst snd] in *. cbn [length] in Hcnt.
    destruct (Z.eqb_spec n 0); [lia|reflexivity]. }
  unfold strtol16. cbn [app skip_space]. rewrite Hsp, Hm, Hp.
  destruct s as [|x s].
  - cbn [app]. destruct rest as [|h rest].
    + exact (Hfin 0).
    + change (0 =? 120) with false. change (0 =? 88) with false.
      cbn [orb]. rewrite Bool.andb_false_r. cbn [andb]. exact (Hfin 0).
  - cbn [forallb] in Hs. apply andb_prop in Hs as [Hx Hs].
    assert (Hx' : (x =? 120) || (x =? 88) = false).
    { unfold is_hex, hex_digit in Hx.
      destruct (Z.eqb_spec x 120) as [->|]; [discriminate|].
      destruct (Z.eqb_spec x 88) as [->|]; [discriminate|]. reflexivity. }
    cbn [app]. destruct (s ++ 0 :: rest) as [|h t] eqn:E.
    + destruct s; discriminate.
    + rewrite Hx', Bool.andb_false_r. cbn [andb].
      rewrite <- E. exact (Hfin 0).
Qed.

Lemma print_HEX_reads_back (n : Z) (rest : list Z) :
  0 <= n < 65536 ->
  fst (strtol16 (print_HEX n ++ 0 :: rest)) = n /\
  1 <= Z.of_nat (length (print_HEX n)) <= 4 /\
  Forall (fun c => 48 <= c <= 57 \/ 65 <= c <= 70) (print_HEX n).
Proof.
  intros Hn. pose proof hex_text_ok_all as H. rewrite forallb_forall in H.
  specialize (H n (in_zrange (Z.to_nat 65536) 0 n ltac:(lia))).
  unfold hex_text_ok in H. repeat (apply andb_prop in H as [H ?]).
  assert (Hne : print_HEX n <> []).
  { intros E. rewrite E in H. discriminate. }
  split; [|split].
  - rewrite strtol16_hex_text by assumption.
    apply Z.eqb_eq in H1. rewrite H1.
    unfold LONG_MIN, LONG_MAX. lia.
  - apply Z.leb_le in H0. destruct (print_HEX n); [contradiction|]. cbn [length] in *. lia.
  - unfold print_HEX. apply digits_chars; [lia| |constructor].
    unfold to_uint16. apply Z.mod_pos_bound. lia.
Qed.

(** A line with a frame, read from an empty buffer by the build without
    checksum check: the call returns the index behind the end marker and
    hands over the packet with the name and the parameters. *)
Lemma serve_input (behind noise name trailer rest : list Z) (ps : list (list Z))
    (d : device) :
  cib_len d = 0 -> length (char_in_buffer d) = Z.to_nat MAX_INPUT_BUFFER_LEN ->
  wf_pkt (pkt_receive d) -> 0 <= param_count (pkt_receive d) ->
  param_count (pkt_receive d) + Z.of_nat (length ps) <= MAX_PROTO_PARAM_COUNT ->
  Forall (fun c => c <> PROTO_STX) noise ->
  Z.of_nat (length name) < MAX_PROTO_CMD -> Forall (fun c => c <> 0) name -> plain name ->
  Forall fits ps ->
  Forall (fun c => c <> PROTO_CR /\ c <> PROTO_NL) (noise ++ frame_body name ps ++ trailer) ->
  Z.of_nat (length (noise ++ frame_body name ps ++ trailer)) < MAX_INPUT_BUFFER_LEN ->
  proc_input true behind true ((noise ++ frame_body name ps ++ trailer) ++ PROTO_CR :: rest) d
    = (Z.of_nat (length noise) + Z.of_nat (length (frame_body name ps)),
       mk_device 0 (replicate (Z.to_nat MAX_INPUT_BUFFER_LEN) 0)
                 (fill_params (named (pkt_receive d) name) ps)
                 (pkt_response d) (serial_out d),
       rest).
Proof.
  intros Hc Hb Hwf Hq0 Hcount Hnoise Hname Hnz Hplain Hfits Hquiet Hlen.
  set (line := noise ++ frame_body name ps ++ trailer) in *.
  unfold MAX_INPUT_BUFFER_LEN, MAX_PROTO_PACKET_LEN in *.
  unfold proc_input.
  rewrite proc_input_loop_fill;
    [|exact Hquiet|lia|unfold MAX_INPUT_BUFFER_LEN, MAX_PROTO_PACKET_LEN; lia].
  cbn [proc_input_loop]. rewrite Z.eqb_refl.
  cbn [negb andb]. rewrite Bool.andb_false_r. cbn [andb].
  cbn [cib_len char_in_buffer pkt_receive pkt_response serial_out].
  rewrite Hc, Z.add_0_l.
  rewrite store_bytes_line by lia.
  destruct (decode_body behind (mem_of (line ++ drop (length line) (char_in_buffer d)))
              (Z.of_nat (length line)) (Z.of_nat (length noise)) name ps (pkt_receive d))
    as (R1 & R2 & R3); try assumption.
  { lia. }
  { intros j Hj. unfold line, mem_of.
    destruct (Z.ltb_spec j 0); [lia|].
    rewrite <- app_assoc, lookup_app_l by lia.
    destruct (noise !! Z.to_nat j) as [c|] eqn:E.
    - cbn. rewrite Forall_forall in Hnoise. apply Hnoise.
      apply list_elem_of_lookup. eauto.
    - apply lookup_ge_None in E. lia. }
  { unfold line. rewrite <- !app_assoc. apply holds_mem_of. }
  { unfold INT16_MAX. split; [|lia]. unfold line. rewrite !length_app. lia. }
  cbv zeta in R1, R2, R3.
  match goal with
  | |- context [ret ?x >=? 0] => set (res := x) in *
  end.
  destruct (Z.geb_spec (ret res) 0) as [_|Hneg]; [|lia].
  unfold reset_input. cbn [cib_len char_in_buffer pkt_receive pkt_response serial_out].
  unfold MAX_INPUT_BUFFER_LEN, MAX_PROTO_PACKET_LEN.
  rewrite R1, R3. f_equal. f_equal.
  unfold to_uint8. apply Z.mod_small.
  unfold line in Hlen. rewrite !length_app in Hlen. lia.
Qed.

(** X22: a command line is served.  Let the input buffer be empty and
    the receive packet cleared, as after reset and after every command.
    For a line that holds a frame with a name of at most nine bytes and at
    most four parameters of at most 49 bytes, behind bytes without start
    marker, in fewer than 256 bytes in all, [proc_input] returns a
    positive index in the build without checksum check, so that [loop]
    calls [proc_cmd]; together they write one frame that carries the name
    of the command and a status, and leave the input buffer empty and the
    receive packet cleared for the next line. *)
Theorem command_line_is_served (atoi : list Z -> Z)
    (behind behind_params noise name trailer rest : list Z) (ps : list (list Z))
    (st : firmware) :
  cib_len (io st) = 0 ->
  length (char_in_buffer (io st)) = Z.to_nat MAX_INPUT_BUFFER_LEN ->
  pkt_receive (io st) = zero_pkt ->
  Forall (fun c => c <> PROTO_STX) noise ->
  Z.of_nat (length name) < MAX_PROTO_CMD -> Forall (fun c => c <> 0) name -> plain name ->
  Forall fits ps -> Z.of_nat (length ps) <= MAX_PROTO_PARAM_COUNT ->
  let line := noise ++ frame_body name ps ++ trailer in
  Forall (fun c => c <> PROTO_CR /\ c <> PROTO_NL) line ->
  Z.of_nat (length line) < MAX_INPUT_BUFFER_LEN ->
  let r := proc_input true behind true (line ++ PROTO_CR :: rest) (io st) in
  let st' := proc_cmd atoi behind_params (with_io st (snd (fst r))) in
  0 < fst (fst r) /\ snd r = rest /\
  (exists code extra,
     In code [ERR_PROTO_SUCCESS; ERR_PROTO_CP_CMD_NOT_IMP; ERR_PROTO_CP_CMD_UNKNOWN;
              ERR_PROTO_CP_MISSING_PARAMS] /\
     In extra [[]; [bytes "LEDSC_TEENSY_001"]] /\
     serial_out (io st') =
       serial_out (io st) ++ serialize_spec true name (print_dec code :: extra)) /\
  cib_len (io st') = 0 /\
  char_in_buffer (io st') = replicate (Z.to_nat MAX_INPUT_BUFFER_LEN) 0 /\
  pkt_receive (io st') = zero_pkt.
Proof.
  intros Hc Hb Hrcv Hnoise Hname Hnz Hplain Hfits Hcount line Hquiet Hlen.
  subst line. cbv zeta.
  rewrite (serve_input behind noise name trailer rest ps (io st)); try assumption.
  2:{ rewrite Hrcv. exact wf_zero_pkt. }
  2:{ rewrite Hrcv. cbn. lia. }
  2:{ rewrite Hrcv. cbn [zero_pkt proto_clear_pkt param_count]. lia. }
  cbn [fst snd].
  set (d1 := mk_device _ _ _ _ _).
  destruct (proc_cmd_cases atoi behind_params (with_io st d1))
    as (Hclr & _ & (A1 & A2 & _) & _).
  destruct (proc_cmd_reply atoi behind_params (with_io st d1))
    as (code & extra & H1 & H2 & H3).
  cbv zeta in *. cbn [with_io io] in *.
  assert (Hcmd : c_str (cmd (pkt_receive d1)) = name).
  { unfold d1. cbn [pkt_receive].
    destruct (fill_params_fields ps (named (pkt_receive (io st)) name)) as (-> & _).
    unfold named. cbn [cmd]. apply c_str_store; [|exact Hnz].
    rewrite Hrcv. cbn [zero_pkt proto_clear_pkt cmd]. rewrite length_replicate.
    unfold MAX_PROTO_CMD in *. lia. }
  split.
  { unfold frame_body. cbn [app length]. lia. }
  split; [reflexivity|]. split.
  { exists code, extra. split; [exact H1|]. split; [exact H2|].
    rewrite H3, Hcmd. unfold d1. cbn [serial_out].
    rewrite take_ge by (unfold MAX_PROTO_CMD in Hname; lia). reflexivity. }
  split; [rewrite A1; reflexivity|]. split; [rewrite A2; reflexivity|exact Hclr].
Qed.

Lemma command_line_is_served_witness :
  let line := bytes "ab" ++ frame_body (bytes "CPV") [] ++ bytes "1F2E" in
  let r := proc_input true [] true (line ++ PROTO_CR :: bytes "[CSB:44]") (io setup) in
  let st' := proc_cmd (fun _ => 0) [] (with_io setup (snd (fst r))) in
  0 < fst (fst r) /\ snd r = bytes "[CSB:44]" /\
  (exists code extra,
     In code [ERR_PROTO_SUCCESS; ERR_PROTO_CP_CMD_NOT_IMP; ERR_PROTO_CP_CMD_UNKNOWN;
              ERR_PROTO_CP_MISSING_PARAMS] /\
     In extra [[]; [bytes "LEDSC_TEENSY_001"]] /\
     serial_out (io st') =
       serial_out (io setup)
       ++ serialize_spec true (bytes "CPV") (print_dec code :: extra)) /\
  cib_len (io st') = 0 /\
  char_in_buffer (io st') = replicate (Z.to_nat MAX_INPUT_BUFFER_LEN) 0 /\
  pkt_receive (io st') = zero_pkt.
Proof.
  apply (command_line_is_served (fun _ => 0) [] [] (bytes "ab") (bytes "CPV") (bytes "1F2E")
           (bytes "[CSB:44]") [] setup).
  - reflexivity.
  - reflexivity.
  - reflexivity.
  - vm_compute. repeat constructor; discriminate.
  - vm_compute. reflexivity.
  - vm_compute. repeat constructor; discriminate.
  - vm_compute. repeat constructor; intros [H|H]; discriminate.
  - constructor.
  - vm_compute. discriminate.
  - vm_compute. repeat constructor; discriminate.
  - vm_compute. reflexivity.
Defined.

(** The memory [strtol] reads for the first parameter of a decoded frame:
    the parameter, its terminator, and the rest. *)
Lemma params_0_put (behind v : list Z) (q : proto_pkt_t) :
  wf_pkt q -> param_count q = 0 -> Z.of_nat (length v) < MAX_PROTO_PARAM_LEN ->
  exists rest, params_0 behind (put_param q v) = v ++ 0 :: rest.
Proof.
  intros (W1 & W2 & W3 & W4) Hq0 Hv. unfold params_0, put_param. cbn [params].
  rewrite Hq0. change (Z.to_nat 0) with 0%nat.
  destruct (params q) as [|row rows]; [cbn in W2; unfold MAX_PROTO_PARAM_COUNT in W2; lia|].
  cbn [alter list_alter concat].
  inversion W3 as [|? ? Hrow _]; subst.
  rewrite store_bytes_string by (rewrite Hrow; unfold MAX_PROTO_PARAM_LEN in *; lia).
  rewrite <- !app_assoc. cbn [app]. eauto.
Qed.

(** A line with a one-parameter frame whose parameter is a number in
    hexadecimal, read from an empty buffer into a cleared packet. *)
Lemma hex_line_received (behind behind_params name trailer rest : list Z) (n : Z) (d : device) :
  cib_len d = 0 -> length (char_in_buffer d) = Z.to_nat MAX_INPUT_BUFFER_LEN ->
  pkt_receive d = zero_pkt ->
  Z.of_nat (length name) < MAX_PROTO_CMD -> Forall (fun c => c <> 0) name -> plain name ->
  0 <= n < 65536 ->
  Forall (fun c => c <> PROTO_CR /\ c <> PROTO_NL)
         (frame_body name [print_HEX n] ++ trailer) ->
  Z.of_nat (length (frame_body name [print_HEX n] ++ trailer)) < MAX_INPUT_BUFFER_LEN ->
  exists d1,
    proc_input true behind true ((frame_body name [print_HEX n] ++ trailer) ++ PROTO_CR :: rest) d
      = (Z.of_nat (length (frame_body name [print_HEX n])), d1, rest) /\
    c_str (cmd (pkt_receive d1)) = name /\
    param_count (pkt_receive d1) = 1 /\
    fst (strtol16 (params_0 behind_params (pkt_receive d1))) = n /\
    serial_out d1 = serial_out d.
Proof.
  intros Hc Hb Hrcv Hname Hnz Hplain Hn Hquiet Hlen.
  destruct (print_HEX_reads_back n [] Hn) as (_ & Hl & Hch).
  assert (Hfits : Forall fits [print_HEX n]).
  { constructor; [|constructor]. split; [unfold MAX_PROTO_PARAM_LEN; lia|]. split.
    - eapply Forall_impl; [exact Hch|]. cbn. intros; lia.
    - unfold plain. eapply Forall_impl; [exact Hch|]. cbn.
      unfold delimiter, PROTO_PSC, PROTO_ETX. intros c Hcc [?|?]; lia. }
  pose proof (serve_input behind [] name trailer rest [print_HEX n] d) as E.
  cbn [app length] in E. rewrite Z.add_0_l in E.
  eexists. split.
  { apply E; try assumption.
    - rewrite Hrcv. exact wf_zero_pkt.
    - rewrite Hrcv. cbn. lia.
    - rewrite Hrcv. cbn. unfold MAX_PROTO_PARAM_COUNT. lia.
    - constructor. }
  cbn [pkt_receive serial_out fill_params fold_left]. rewrite Hrcv.
  assert (Hwf1 : wf_pkt (named zero_pkt name)).
  { pose proof wf_zero_pkt as (W1 & W2 & W3 & W4). unfold wf_pkt, named. cbn [cmd params param_count].
    rewrite length_store_bytes. exact (conj W1 (conj W2 (conj W3 W4))). }
  split.
  { unfold put_param, named. cbn [cmd]. apply c_str_store; [|exact Hnz].
    cbn [zero_pkt proto_clear_pkt cmd]. rewrite length_replicate.
    unfold MAX_PROTO_CMD in *. lia. }
  split; [reflexivity|]. split; [|reflexivity].
  destruct (params_0_put behind_params (print_HEX n) (named zero_pkt name) Hwf1)
    as [tail Etail]; [reflexivity|unfold MAX_PROTO_PARAM_LEN; lia|].
  rewrite Etail. exact (proj1 (print_HEX_reads_back n tail Hn)).
Qed.

(** X23: setting the brightness.  From an empty input buffer and a
    cleared receive packet, the line "[CSB:" followed by a number below
    65536 in hexadecimal and "]" sets the brightness, and what FastLED is
    given, to the low eight bits of the number, leaves the other settings
    and answers with the status 0: a value above 255 is not refused. *)
Theorem brightness_command (atoi : list Z -> Z) (behind behind_params trailer rest : list Z)
    (n : Z) (st : firmware) :
  cib_len (io st) = 0 ->
  length (char_in_buffer (io st)) = Z.to_nat MAX_INPUT_BUFFER_LEN ->
  pkt_receive (io st) = zero_pkt ->
  0 <= n < 65536 ->
  let line := frame_body (bytes "CSB") [print_HEX n] ++ trailer in
  Forall (fun c => c <> PROTO_CR /\ c <> PROTO_NL) line ->
  Z.of_nat (length line) < MAX_INPUT_BUFFER_LEN ->
  let r := proc_input true behind true (line ++ PROTO_CR :: rest) (io st) in
  let st' := proc_cmd atoi behind_params (with_io st (snd (fst r))) in
  0 < fst (fst r) /\
  settings_of st' =
    (color st, n mod 256, n mod 256, active_effect st, debugging st) /\
  serial_out (io st') =
    serial_out (io st) ++ serialize_spec true (bytes "CSB") [bytes "0"].
Proof.
  intros Hc Hb Hrcv Hn line Hquiet Hlen. subst line. cbv zeta.
  destruct (hex_line_received behind behind_params (bytes "CSB") trailer rest n (io st))
    as (d1 & E & Hcmd & Hcount & Hval & Hout); try assumption.
  { vm_compute. reflexivity. }
  { repeat constructor; discriminate. }
  { repeat constructor; intros [H|H]; discriminate. }
  rewrite E. cbn [fst snd].
  split; [unfold frame_body; cbn [app length]; lia|].
  destruct (proc_cmd_cases atoi behind_params (with_io st d1))
    as (_ & ps & (_ & _ & _ & A4) & Hcases).
  cbv zeta in *. cbn [with_io io] in *.
  rewrite Hcmd, Hcount, Hval, Hout in *.
  destruct Hcases as [(X & _)|[(X & _)|[(X & _)|[(_ & X & _)|
                     [(X & _)|[(X & _)|[(_ & _ & -> & S)|(X & _)]]]]]]].
  - discriminate X.
  - destruct X as [X|X]; discriminate X.
  - discriminate X.
  - lia.
  - discriminate X.
  - discriminate X.
  - split; [exact S|exact A4].
  - contradiction X. cbn [In]. auto 10.
Qed.

Lemma brightness_command_witness :
  let line := frame_body (bytes "CSB") [print_HEX 0x1FF] ++ bytes "8A3C" in
  let r := proc_input true [] true (line ++ PROTO_CR :: []) (io setup) in
  let st' := proc_cmd (fun _ => 0) [] (with_io setup (snd (fst r))) in
  0 < fst (fst r) /\
  settings_of st' =
    (color setup, 0x1FF mod 256, 0x1FF mod 256, active_effect setup, debugging setup) /\
  serial_out (io st') =
    serial_out (io setup) ++ serialize_spec true (bytes "CSB") [bytes "0"].
Proof.
  apply (brightness_command (fun _ => 0) [] [] (bytes "8A3C") [] 0x1FF setup).
  - reflexivity.
  - reflexivity.
  - reflexivity.
  - lia.
  - vm_compute. repeat constructor; discriminate.
  - vm_compute. reflexivity.
Defined.

(** X24: setting the effect.  From an empty input buffer and a cleared
    receive packet, the line "[CSE:" followed by a number below 65536 in
    hexadecimal and "]" makes the number the active effect when it is
    below the number of effects and leaves the active effect otherwise;
    in both cases the other settings stay and the answer carries the
    status 0. *)
Theorem effect_command (atoi : list Z -> Z) (behind behind_params trailer rest : list Z)
    (n : Z) (st : firmware) :
  cib_len (io st) = 0 ->
  length (char_in_buffer (io st)) = Z.to_nat MAX_INPUT_BUFFER_LEN ->
  pkt_receive (io st) = zero_pkt ->
  0 <= n < 65536 ->
  let line := frame_body (bytes "CSE") [print_HEX n] ++ trailer in
  Forall (fun c => c <> PROTO_CR /\ c <> PROTO_NL) line ->
  Z.of_nat (length line) < MAX_INPUT_BUFFER_LEN ->
  let r := proc_input true behind true (line ++ PROTO_CR :: rest) (io st) in
  let st' := proc_cmd atoi behind_params (with_io st (snd (fst r))) in
  0 < fst (fst r) /\
  settings_of st' =
    (color st, brightness st, FastLED_brightness st,
     (if n <? MAX_EFFECT then n else active_effect st), debugging st) /\
  serial_out (io st') =
    serial_out (io st) ++ serialize_spec true (bytes "CSE") [bytes "0"].
Proof.
  intros Hc Hb Hrcv Hn line Hquiet Hlen. subst line. cbv zeta.
  destruct (hex_line_received behind behind_params (bytes "CSE") trailer rest n (io st))
    as (d1 & E & Hcmd & Hcount & Hval & Hout); try assumption.
  { vm_compute. reflexivity. }
  { repeat constructor; discriminate. }
  { repeat constructor; intros [H|H]; discriminate. }
  rewrite E. cbn [fst snd].
  split; [unfold frame_body; cbn [app length]; lia|].
  destruct (proc_cmd_cases atoi behind_params (with_io st d1))
    as (_ & ps & (_ & _ & _ & A4) & Hcases).
  cbv zeta in *. cbn [with_io io] in *.
  rewrite Hcmd, Hcount, Hval, Hout in *.
  destruct Hcases as [(X & _)|[(X & _)|[(X & _)|[(_ & X & _)|
                     [(_ & _ & -> & S)|[(X & _)|[(X & _)|(X & _)]]]]]]].
  - discriminate X.
  - destruct X as [X|X]; discriminate X.
  - discriminate X.
  - lia.
  - split; [|exact A4]. rewrite S.
    destruct (Z.geb_spec n 0); [|lia]. reflexivity.
  - discriminate X.
  - discriminate X.
  - contradiction X. cbn [In]. auto 10.
Qed.

Lemma effect_command_witness :
  let line := frame_body (bytes "CSE") [print_HEX 0xA] ++ [] in
  let r := proc_input true [] true (line ++ PROTO_CR :: []) (io setup) in
  let st' := proc_cmd (fun _ => 0) [] (with_io setup (snd (fst r))) in
  0 < fst (fst r) /\
  settings_of st' =
    (color setup, brightness setup, FastLED_brightness setup,
     (if 0xA <? MAX_EFFECT then 0xA else active_effect setup), debugging setup) /\
  serial_out (io st') =
    serial_out (io setup) ++ serialize_spec true (bytes "CSE") [bytes "0"].
Proof.
  apply (effect_command (fun _ => 0) [] [] [] [] 0xA setup).
  - reflexivity.
  - reflexivity.
  - reflexivity.
  - lia.
  - vm_compute. repeat constructor; discriminate.
  - vm_compute. reflexivity.
Defined.

(** ** The version request and the pulse *)

(** X25: the version request.  For the command CPV, whatever the
    parameters, [proc_cmd] writes the frame "[CPV:0:LEDSC_TEENSY_001]"
    with the checksum E94A and a carriage return, and changes no
    setting. *)
Theorem version_request (atoi : list Z -> Z) (behind : list Z) (st : firmware) :
  c_str (cmd (pkt_receive (io st))) = bytes "CPV" ->
  let st' := proc_cmd atoi behind st in
  serial_out (io st') =
    serial_out (io st) ++ bytes "[CPV:0:LEDSC_TEENSY_001]E94A" ++ [PROTO_CR] /\
  settings_of st' = settings_of st.
Proof.
  intros Hname st'.
  destruct (proc_cmd_cases atoi behind st) as (_ & ps & (_ & _ & _ & A4) & Hcases).
  cbv zeta in *. fold st' in Hcases, A4. rewrite Hname in *.
  destruct Hcases as [(_ & -> & S)|[(X & _)|[(X & _)|[(X & _)|
                     [(X & _)|[(X & _)|[(X & _)|(X & _)]]]]]]].
  - split; [|exact S]. rewrite A4. reflexivity.
  - destruct X as [X|X]; discriminate X.
  - discriminate X.
  - destruct X as [X|[X|X]]; discriminate X.
  - discriminate X.
  - discriminate X.
  - discriminate X.
  - contradiction X. cbn [In]. auto.
Qed.

Lemma version_request_witness :
  let st := with_io setup (mk_device 0 (char_in_buffer boot)
                                     (named zero_pkt (bytes "CPV")) zero_pkt []) in
  let st' := proc_cmd (fun _ => 0) [] st in
  serial_out (io st') =
    serial_out (io st) ++ bytes "[CPV:0:LEDSC_TEENSY_001]E94A" ++ [PROTO_CR] /\
  settings_of st' = settings_of st.
Proof.
  apply (version_request (fun _ => 0) []
           (with_io setup (mk_device 0 (char_in_buffer boot)
                                     (named zero_pkt (bytes "CPV")) zero_pkt []))).
  reflexivity.
Defined.

(** X26: the pulse stays in its band.  Whatever byte the brightness
    holds, after one step of the pulse it lies between 50 and 175 and
    FastLED has been given it; at the lower bound the step that follows
    goes up, at the upper bound it goes down, and a step of -10, -1 or 1
    stays one of these.  Nothing else changes. *)
Theorem pulse_stays_in_band (st : firmware) :
  0 <= brightness st < 256 ->
  In (brightnessDelta st) [-10; -1; 1] ->
  let st' := pulse st in
  min_pulse_brightness <= brightness st' <= max_pulse_brightness /\
  FastLED_brightness st' = brightness st' /\
  In (brightnessDelta st') [-10; -1; 1] /\
  (brightness st' = min_pulse_brightness -> brightnessDelta st' = 1) /\
  (brightness st' = max_pulse_brightness -> brightnessDelta st' = -1) /\
  (min_pulse_brightness < brightness st + brightnessDelta st < max_pulse_brightness ->
   brightness st' = brightness st + brightnessDelta st /\
   brightnessDelta st' = brightnessDelta st) /\
  io st' = io st /\ color st' = color st /\ active_effect st' = active_effect st /\
  debugging st' = debugging st.
Proof.
  intros Hb Hd st'. subst st'. unfold pulse, min_pulse_brightness, max_pulse_brightness.
  assert (Hr : 0 <= to_uint8 (brightness st + brightnessDelta st) < 256)
    by (unfold to_uint8; apply Z.mod_pos_bound; lia).
  assert (Hsmall : 50 < brightness st + brightnessDelta st < 175 ->
                   to_uint8 (brightness st + brightnessDelta st)
                   = brightness st + brightnessDelta st)
    by (intros H; unfold to_uint8; apply Z.mod_small; lia).
  destruct (Z.leb_spec (to_uint8 (brightness st + brightnessDelta st)) 50) as [Hlo|Hlo].
  - cbn [brightness FastLED_brightness brightnessDelta io color active_effect debugging In].
    split; [lia|]. split; [reflexivity|]. split; [auto|]. split; [reflexivity|].
    split; [lia|]. split; [intros H; rewrite (Hsmall H) in Hlo; lia|].
    repeat split; reflexivity.
  - destruct (Z.geb_spec (to_uint8 (brightness st + brightnessDelta st)) 175) as [Hhi|Hhi].
    + cbn [brightness FastLED_brightness brightnessDelta io color active_effect debugging In].
      split; [lia|]. split; [reflexivity|]. split; [auto|]. split; [lia|].
      split; [reflexivity|]. split; [intros H; rewrite (Hsmall H) in Hhi; lia|].
      repeat split; reflexivity.
    + cbn [brightness FastLED_brightness brightnessDelta io color active_effect debugging].
      split; [lia|]. split; [reflexivity|]. split; [exact Hd|]. split; [lia|].
      split; [lia|]. split; [intros H; split; [exact (Hsmall H)|reflexivity]|].
      repeat split; reflexivity.
Qed.

Lemma pulse_stays_in_band_witness :
  let st' := pulse setup in
  min_pulse_brightness <= brightness st' <= max_pulse_brightness /\
  FastLED_brightness st' = brightness st' /\
  In (brightnessDelta st') [-10; -1; 1] /\
  (brightness st' = min_pulse_brightness -> brightnessDelta st' = 1) /\
  (brightness st' = max_pulse_brightness -> brightnessDelta st' = -1) /\
  (min_pulse_brightness < brightness setup + brightnessDelta setup < max_pulse_brightness ->
   brightness st' = brightness setup + brightnessDelta setup /\
   brightnessDelta st' = brightnessDelta setup) /\
  io st' = io setup /\ color st' = color setup /\ active_effect st' = active_effect setup /\
  debugging st' = debugging setup.
Proof.
  apply (pulse_stays_in_band setup).
  - vm_compute. split; [discriminate|reflexivity].
  - vm_compute. auto.
Defined.
